(** * procfs / sysfs readers: zone information and CPU system devices

    A shallow embedding of [sysfs/cpu_system_devices.go] and of the
    [zoneinfo] reader, with the properties of their specification.

    Go strings are byte strings ([string]); [int64] values are integers
    of [Z] whose wrap-around is written out where the code can reach it;
    a slice is a [list] whose indexing panics out of range; the debug
    log is a state threaded through every function; a panic is a result
    of its own, and so is a loop that uses up the fuel it is given. *)

From Stdlib Require Import ZArith Lia Ascii String DecimalString.
From stdpp Require Import base list strings.

Local Open Scope Z_scope.

(** ** Bytes and strings *)

Definition byte (c : ascii) : Z := Z.of_N (N_of_ascii c).

(** [strings.Split(s, sep)] for the one-byte separators the code uses. *)
Fixpoint Split (s : string) (sep : ascii) : list string :=
  match s with
  | EmptyString => [EmptyString]
  | String c s' =>
      if Ascii.eqb c sep then EmptyString :: Split s' sep
      else match Split s' sep with
           | [] => [String c EmptyString]
           | h :: t => String c h :: t
           end
  end.

(** The components [elems] written with [sep] between them, as
    [strings.Join] does. *)
Fixpoint joinWith (sep : ascii) (elems : list string) : string :=
  match elems with
  | [] => EmptyString
  | [e] => e
  | e :: rest => e +:+ String sep (joinWith sep rest)
  end.

(** [strings.HasPrefix(s, prefix)]. *)
Definition HasPrefix (s pre : string) : bool := String.prefix pre s.

(** [strings.TrimRight(s, cutset)] for a cutset of one byte. *)
Fixpoint TrimRight (s : string) (cut : ascii) : string :=
  match s with
  | EmptyString => EmptyString
  | String a s' =>
      match TrimRight s' cut with
      | EmptyString => if Ascii.eqb a cut then EmptyString else String a EmptyString
      | t => String a t
      end
  end.

(** *** UTF-8 decoding and white space

    [strings.TrimSpace] and [strings.Fields] work on the runes of the
    string, decoded as [utf8.DecodeRuneInString] does: an ill-formed
    byte is the rune [RuneError] of width one. *)

Definition RuneError : Z := 65533.

Definition cont (b : Z) : bool := (128 <=? b) && (b <=? 191).

(** The rune that starts [s] and its width in bytes. *)
Definition DecodeRune (s : string) : Z * nat :=
  match s with
  | EmptyString => (RuneError, 0%nat)
  | String c0 s0 =>
      let b0 := byte c0 in
      if b0 <? 128 then (b0, 1%nat)
      else if (194 <=? b0) && (b0 <=? 223) then
        match s0 with
        | String c1 _ =>
            let b1 := byte c1 in
            if cont b1 then ((b0 - 192) * 64 + (b1 - 128), 2%nat)
            else (RuneError, 1%nat)
        | _ => (RuneError, 1%nat)
        end
      else if (224 <=? b0) && (b0 <=? 239) then
        match s0 with
        | String c1 (String c2 _) =>
            let b1 := byte c1 in
            let b2 := byte c2 in
            let lo := if b0 =? 224 then 160 else 128 in
            let hi := if b0 =? 237 then 159 else 191 in
            if (lo <=? b1) && (b1 <=? hi) && cont b2
            then ((b0 - 224) * 4096 + (b1 - 128) * 64 + (b2 - 128), 3%nat)
            else (RuneError, 1%nat)
        | _ => (RuneError, 1%nat)
        end
      else if (240 <=? b0) && (b0 <=? 244) then
        match s0 with
        | String c1 (String c2 (String c3 _)) =>
            let b1 := byte c1 in
            let b2 := byte c2 in
            let b3 := byte c3 in
            let lo := if b0 =? 240 then 144 else 128 in
            let hi := if b0 =? 244 then 143 else 191 in
            if (lo <=? b1) && (b1 <=? hi) && cont b2 && cont b3
            then ((b0 - 240) * 262144 + (b1 - 128) * 4096
                  + (b2 - 128) * 64 + (b3 - 128), 4%nat)
            else (RuneError, 1%nat)
        | _ => (RuneError, 1%nat)
        end
      else (RuneError, 1%nat)
  end.

(** [unicode.IsSpace]. *)
Definition IsSpace (r : Z) : bool :=
  ((9 <=? r) && (r <=? 13)) || (r =? 32) || (r =? 133) || (r =? 160)
  || (r =? 5760) || ((8192 <=? r) && (r <=? 8202)) || (r =? 8232)
  || (r =? 8233) || (r =? 8239) || (r =? 8287) || (r =? 12288).

Fixpoint take_bytes (n : nat) (s : string) : string :=
  match n, s with
  | S k, String c s' => String c (take_bytes k s')
  | _, _ => EmptyString
  end.

(** The runes of [s] from left to right, each with the bytes that encode
    it; [skip] counts the bytes left of the rune being passed over. *)
Fixpoint runes_from (skip : nat) (s : string) : list (Z * string) :=
  match s with
  | EmptyString => []
  | String _ s' =>
      match skip with
      | S k => runes_from k s'
      | O => let '(r, w) := DecodeRune s in
             (r, take_bytes w s) :: runes_from (Nat.pred w) s'
      end
  end.

Definition runes (s : string) : list (Z * string) := runes_from 0 s.

Definition is_space_rune (rb : Z * string) : bool := IsSpace (fst rb).

Fixpoint bytes_of (rs : list (Z * string)) : string :=
  match rs with
  | [] => EmptyString
  | (_, b) :: rest => b +:+ bytes_of rest
  end.

Fixpoint drop_spaces (rs : list (Z * string)) : list (Z * string) :=
  match rs with
  | rb :: rest => if is_space_rune rb then drop_spaces rest else rs
  | [] => []
  end.

(** [strings.TrimSpace(s)]: the white-space runes at both ends are cut.
    Go finds those of the right end decoding backwards; no encoding of a
    white-space rune starts inside the encoding of another rune, so they
    are the last white-space runes of the decoding from the left. *)
Definition TrimSpace (s : string) : string :=
  bytes_of (rev (drop_spaces (rev (drop_spaces (runes s))))).

(** [strings.Fields(s)]: the maximal runs of runes that are not white
    space. [cur] is the field being read, if one is. *)
Fixpoint fields_from (cur : option string) (rs : list (Z * string)) : list string :=
  match rs with
  | [] => match cur with Some f => [f] | None => [] end
  | rb :: rest =>
      if is_space_rune rb then
        match cur with
        | Some f => f :: fields_from None rest
        | None => fields_from None rest
        end
      else
        fields_from (Some (match cur with Some f => f +:+ snd rb | None => snd rb end)) rest
  end.

Definition Fields (s : string) : list string := fields_from None (runes s).

(** [fmt.Sprintf("%d", n)]. *)
Definition Sprintf_d (n : Z) : string := NilZero.string_of_int (Z.to_int n).

(** ** Errors *)

Inductive numErr : Type := ErrSyntax | ErrRange.

(** The values of Go's [error] the code meets: a [*strconv.NumError],
    and errors known by their text alone (what [fmt.Errorf] builds, what
    the scanner reports). *)
Inductive error : Type :=
| NumError (Func Num : string) (Err : numErr)
| errorString (text : string).

(** ** strconv.ParseInt(s, 10, 64) *)

Definition maxUint64 : Z := 2 ^ 64 - 1.
Definition MaxInt64 : Z := 2 ^ 63 - 1.
Definition MinInt64 : Z := - 2 ^ 63.

(** The wrap-around of [int64] arithmetic. *)
Definition wrap64 (z : Z) : Z := (z + 2 ^ 63) mod 2 ^ 64 - 2 ^ 63.

Definition digit (c : ascii) : option Z :=
  let d := byte c in
  if (48 <=? d) && (d <=? 57) then Some (d - 48) else None.

(** The digit loop of [ParseUint] in base ten on 64 bits: the value read
    and the kind of the failure, if any. *)
Fixpoint parseUintLoop (s : string) (n : Z) : Z * option numErr :=
  match s with
  | EmptyString => (n, None)
  | String d s' =>
      match digit d with
      | None => (0, Some ErrSyntax)
      | Some v =>
          if n >=? maxUint64 / 10 + 1 then (maxUint64, Some ErrRange)
          else
            let n := n * 10 in
            let n1 := (n + v) mod 2 ^ 64 in
            if (n1 <? n) || (n1 >? maxUint64) then (maxUint64, Some ErrRange)
            else parseUintLoop s' n1
      end
  end.

Definition ParseUint (s : string) : Z * option numErr :=
  match s with
  | EmptyString => (0, Some ErrSyntax)
  | _ => parseUintLoop s 0
  end.

Definition ParseInt (s : string) : Z * option error :=
  match s with
  | EmptyString => (0, Some (NumError "ParseInt" s ErrSyntax))
  | String c0 rest =>
      let s0 := s in
      let neg := Ascii.eqb c0 "-" in
      let s := if Ascii.eqb c0 "+" || neg then rest else s in
      match ParseUint s with
      | (_, Some ErrSyntax) => (0, Some (NumError "ParseInt" s0 ErrSyntax))
      | (un, _) =>
          let cutoff := 2 ^ 63 in
          if negb neg && (un >=? cutoff)
          then (cutoff - 1, Some (NumError "ParseInt" s0 ErrRange))
          else if neg && (un >? cutoff)
          then (- cutoff, Some (NumError "ParseInt" s0 ErrRange))
          else (if neg then - un else un, None)
      end
  end.

(** ** Results, panics and the debug log *)

(** A run-time panic of Go: [index out of range [index] with length
    length]. *)
Inductive panic : Type :=
| IndexOutOfRange (index : Z) (length : nat).

(** What a call comes to: it returns, it panics, or the fuel given to
    its loops is used up before it returns. *)
Inductive result (A : Type) : Type :=
| Done (a : A)
| Panic (p : panic)
| OutOfFuel.

Arguments Done {A} a.
Arguments Panic {A} p.
Arguments OutOfFuel {A}.

(** The sink of [log.Debugln]: the errors logged so far, oldest first. *)
Definition Log : Type := list error.

Definition M (A : Type) : Type := Log -> result A * Log.

Definition ret {A} (a : A) : M A := fun log => (Done a, log).

Definition bind {A B} (m : M A) (k : A -> M B) : M B :=
  fun log =>
    match m log with
    | (Done a, log') => k a log'
    | (Panic p, log') => (Panic p, log')
    | (OutOfFuel, log') => (OutOfFuel, log')
    end.

Notation "x <- m ;; k" := (bind m (fun x => k))
  (at level 100, m at next level, right associativity).

Definition throw {A} (p : panic) : M A := fun log => (Panic p, log).

Definition lift {A} (r : result A) : M A := fun log => (r, log).

Definition Debugln (e : error) : M unit := fun log => (Done tt, log ++ [e]).

(** [if err != nil { log.Debugln(err) }]. *)
Definition logIfErr (err : option error) : M unit :=
  match err with
  | Some e => Debugln e
  | None => ret tt
  end.

(** [s[i]] on a slice: a panic out of range. *)
Definition index {A} (s : list A) (i : Z) : M A :=
  if i <? 0 then throw (IndexOutOfRange i (length s))
  else match s !! Z.to_nat i with
       | Some a => ret a
       | None => throw (IndexOutOfRange i (length s))
       end.

(** What the body of a loop leaves: the state for the next iteration, or
    the value the enclosing function returns at once. *)
Inductive flow (S R : Type) : Type :=
| Next (s : S)
| Return (r : R).

Arguments Next {S R} s.
Arguments Return {S R} r.

(** ** Range expansion: parseCPURange *)

(** [for i := first; i <= last; i++ { cpuSlice = append(cpuSlice, i) }];
    [fuel] bounds the number of times the body runs. *)
Fixpoint rangeLoop (fuel : nat) (i last : Z) (cpuSlice : list Z) : result (list Z) :=
  match fuel with
  | O => if i <=? last then OutOfFuel else Done cpuSlice
  | S fuel' =>
      if i <=? last
      then rangeLoop fuel' (wrap64 (i + 1)) last (cpuSlice ++ [i])
      else Done cpuSlice
  end.

(** The body of the loop over the components. *)
Definition parseComponent (fuel : nat) (component : string) (cpuSlice : list Z)
  : M (list Z) :=
  p0 <- index (Split component "-") 0 ;;
  let '(first, err) := ParseInt p0 in
  _ <- logIfErr err ;;
  p1 <- index (Split component "-") 1 ;;
  let '(last, err) := ParseInt p1 in
  _ <- logIfErr err ;;
  lift (rangeLoop fuel first last cpuSlice).

Fixpoint parseComponents (fuel : nat) (components : list string) (cpuSlice : list Z)
  : M (list Z) :=
  match components with
  | [] => ret cpuSlice
  | component :: rest =>
      cpuSlice <- parseComponent fuel component cpuSlice ;;
      parseComponents fuel rest cpuSlice
  end.

Definition parseCPURange (fuel : nat) (value : string) : M (list Z) :=
  parseComponents fuel (Split value ",") [].

(** ** The file system *)

(** An [os.FileInfo], as far as the code looks at it. *)
Record FileInfo : Type := mkFileInfo { Name : string; IsDir : bool }.

(** The read primitives, [ioutil.ReadDir] and [ioutil.ReadFile]: each
    gives its value, or fails with an error of the given text. *)
Record OS : Type := mkOS {
  ReadDir : string -> string + list FileInfo;
  ReadFile : string -> string + string
}.

(** Modelled from the spec: the mount point [FS] is not among the
    sources; it has the one capability of resolving a relative path,
    [Path(relative) -> absolute path]. *)
Record FS : Type := mkFS { Path : string -> string }.

(** [fmt.Errorf("cannot access %s, %s", file, err)]. *)
Definition cannotAccess (file err : string) : error :=
  errorString ("cannot access " +:+ file +:+ ", " +:+ err).

(** [fmt.Errorf("cannot access %s dir %s", path, err)]. *)
Definition cannotAccessDir (path err : string) : error :=
  errorString ("cannot access " +:+ path +:+ " dir " +:+ err).

(** ** The records *)

Record CPUFreq : Type := mkCPUFreq {
  CPUInfoCurFreq : Z;
  CPUInfoMaxFreq : Z;
  CPUInfoMinFreq : Z;
  CPUInfoTransitionLatency : Z;
  ScalingAvailableGovernors : string;
  ScalingCurFreq : Z;
  ScalingDriver : string;
  ScalingGovernor : string;
  ScalingMaxFreq : Z;
  ScalingMinFreq : Z;
  ScalingSetspeed : Z
}.

Record CPUTopology : Type := mkCPUTopology {
  CoreID : Z;
  CoreSiblings : string;
  CoreSiblingsList : string;
  PhysicalPackageID : Z;
  ThreadSiblings : string;
  ThreadSiblingsList : string
}.

Record CPUThermalThrottle : Type := mkCPUThermalThrottle {
  CoreThrottleCount : Z;
  PackageThrottleCount : Z
}.

Record CPUInfoGeneric : Type := mkCPUInfoGeneric {
  KernelMax : Z;
  Offline : list Z;
  Online : list Z;
  Possible : list Z;
  Present : list Z
}.

Record CPUInfo : Type := mkCPUInfo {
  cpuInfoGeneric : CPUInfoGeneric;
  CPUFreqSlice : list CPUFreq;
  CPUTopologySlice : list CPUTopology;
  CPUThermalThrottleSlice : list CPUThermalThrottle
}.

(** The zero values. *)
Definition zeroCPUFreq : CPUFreq := mkCPUFreq 0 0 0 0 "" 0 "" "" 0 0 0.
Definition zeroCPUTopology : CPUTopology := mkCPUTopology 0 "" "" 0 "" "".
Definition zeroCPUThermalThrottle : CPUThermalThrottle := mkCPUThermalThrottle 0 0.
Definition zeroCPUInfoGeneric : CPUInfoGeneric := mkCPUInfoGeneric 0 [] [] [] [].
Definition zeroCPUInfo : CPUInfo := mkCPUInfo zeroCPUInfoGeneric [] [] [].

(** ** The per-CPU parsers

    The three parsers are one loop over the online CPUs and, inside it,
    one loop over the files of the CPU's directory; they differ by the
    directory and by the [switch] on the file name. A case of the switch
    is the assignment it makes to the record of the CPU: the new record
    and the [err] of the conversion, [nil] for a field kept as a string. *)

Definition assignment (R : Type) : Type := R -> R * option error.

(** [r.field, err = strconv.ParseInt(value, 10, 64)]. *)
Definition parsed {R} (set : Z -> R -> R) (value : string) : assignment R :=
  fun r => let '(v, err) := ParseInt value in (set v r, err).

(** [r.field = value]. *)
Definition stored {R} (set : string -> R -> R) (value : string) : assignment R :=
  fun r => (set value r, None).

Section FanOut.
Context {R : Type}.
Variable zero : R.
Variable subsystem : string.
Variable cases : string -> string -> option (assignment R).
Variable os : OS.
Variable fs : FS.

(** The body of the loop over the files of one directory. *)
Definition readField (cpuNum : Z) (path : string) (fileDir : FileInfo)
    (slice : list R) : M (flow (list R) (list R * option error)) :=
  match ReadFile os (path +:+ "/" +:+ Name fileDir) with
  | inl err =>
      ret (Return (slice, Some (cannotAccess (path +:+ "/" +:+ Name fileDir) err)))
  | inr fileContents =>
      let value := TrimSpace fileContents in
      match cases (Name fileDir) value with
      | None => ret (Next slice)
      | Some assign =>
          r <- index slice cpuNum ;;
          let '(r', err) := assign r in
          _ <- logIfErr err ;;
          ret (Next (<[Z.to_nat cpuNum := r']> slice))
      end
  end.

Fixpoint readFields (cpuNum : Z) (path : string) (files : list FileInfo)
    (slice : list R) : M (flow (list R) (list R * option error)) :=
  match files with
  | [] => ret (Next slice)
  | fileDir :: rest =>
      f <- readField cpuNum path fileDir slice ;;
      match f with
      | Next slice => readFields cpuNum path rest slice
      | Return r => ret (Return r)
      end
  end.

Definition cpuPath (cpuNum : Z) : string :=
  Path fs ("devices/system/cpu/cpu" +:+ Sprintf_d cpuNum +:+ "/" +:+ subsystem).

(** The body of the loop over the online CPUs. *)
Definition readCPU (cpuNum : Z) (slice : list R)
    : M (flow (list R) (list R * option error)) :=
  let path := cpuPath cpuNum in
  match ReadDir os path with
  | inl _ => ret (Next slice)
  | inr files => readFields cpuNum path files slice
  end.

Fixpoint readCPUs (online : list Z) (slice : list R)
    : M (flow (list R) (list R * option error)) :=
  match online with
  | [] => ret (Next slice)
  | cpuNum :: rest =>
      f <- readCPU cpuNum slice ;;
      match f with
      | Next slice => readCPUs rest slice
      | Return r => ret (Return r)
      end
  end.

(** The whole parser: the slice is made with [len(online)] zero
    records, and the [err] returned after the loop is the one declared
    before it, which nothing assigns. *)
Definition fanOut (online : list Z) : M (list R * option error) :=
  f <- readCPUs online (replicate (length online) zero) ;;
  match f with
  | Next slice => ret (slice, None)
  | Return r => ret r
  end.
End FanOut.

(** Assignments to one field. *)
Definition setCPUInfoCurFreq (v : Z) (r : CPUFreq) : CPUFreq :=
  let 'mkCPUFreq _ b c d e f g h i j k := r in mkCPUFreq v b c d e f g h i j k.
Definition setCPUInfoMaxFreq (v : Z) (r : CPUFreq) : CPUFreq :=
  let 'mkCPUFreq a _ c d e f g h i j k := r in mkCPUFreq a v c d e f g h i j k.
Definition setCPUInfoMinFreq (v : Z) (r : CPUFreq) : CPUFreq :=
  let 'mkCPUFreq a b _ d e f g h i j k := r in mkCPUFreq a b v d e f g h i j k.
Definition setCPUInfoTransitionLatency (v : Z) (r : CPUFreq) : CPUFreq :=
  let 'mkCPUFreq a b c _ e f g h i j k := r in mkCPUFreq a b c v e f g h i j k.
Definition setScalingAvailableGovernors (v : string) (r : CPUFreq) : CPUFreq :=
  let 'mkCPUFreq a b c d _ f g h i j k := r in mkCPUFreq a b c d v f g h i j k.
Definition setScalingCurFreq (v : Z) (r : CPUFreq) : CPUFreq :=
  let 'mkCPUFreq a b c d e _ g h i j k := r in mkCPUFreq a b c d e v g h i j k.
Definition setScalingDriver (v : string) (r : CPUFreq) : CPUFreq :=
  let 'mkCPUFreq a b c d e f _ h i j k := r in mkCPUFreq a b c d e f v h i j k.
Definition setScalingGovernor (v : string) (r : CPUFreq) : CPUFreq :=
  let 'mkCPUFreq a b c d e f g _ i j k := r in mkCPUFreq a b c d e f g v i j k.
Definition setScalingMaxFreq (v : Z) (r : CPUFreq) : CPUFreq :=
  let 'mkCPUFreq a b c d e f g h _ j k := r in mkCPUFreq a b c d e f g h v j k.
Definition setScalingMinFreq (v : Z) (r : CPUFreq) : CPUFreq :=
  let 'mkCPUFreq a b c d e f g h i _ k := r in mkCPUFreq a b c d e f g h i v k.
Definition setScalingSetspeed (v : Z) (r : CPUFreq) : CPUFreq :=
  let 'mkCPUFreq a b c d e f g h i j _ := r in mkCPUFreq a b c d e f g h i j v.

Definition setCoreID (v : Z) (r : CPUTopology) : CPUTopology :=
  let 'mkCPUTopology _ b c d e f := r in mkCPUTopology v b c d e f.
Definition setCoreSiblings (v : string) (r : CPUTopology) : CPUTopology :=
  let 'mkCPUTopology a _ c d e f := r in mkCPUTopology a v c d e f.
Definition setCoreSiblingsList (v : string) (r : CPUTopology) : CPUTopology :=
  let 'mkCPUTopology a b _ d e f := r in mkCPUTopology a b v d e f.
Definition setPhysicalPackageID (v : Z) (r : CPUTopology) : CPUTopology :=
  let 'mkCPUTopology a b c _ e f := r in mkCPUTopology a b c v e f.
Definition setThreadSiblings (v : string) (r : CPUTopology) : CPUTopology :=
  let 'mkCPUTopology a b c d _ f := r in mkCPUTopology a b c d v f.
Definition setThreadSiblingsList (v : string) (r : CPUTopology) : CPUTopology :=
  let 'mkCPUTopology a b c d e _ := r in mkCPUTopology a b c d e v.

Definition setCoreThrottleCount (v : Z) (r : CPUThermalThrottle) : CPUThermalThrottle :=
  mkCPUThermalThrottle v (PackageThrottleCount r).
Definition setPackageThrottleCount (v : Z) (r : CPUThermalThrottle) : CPUThermalThrottle :=
  mkCPUThermalThrottle (CoreThrottleCount r) v.

Definition setKernelMax (v : Z) (r : CPUInfoGeneric) : CPUInfoGeneric :=
  mkCPUInfoGeneric v (Offline r) (Online r) (Possible r) (Present r).
Definition setOffline (v : list Z) (r : CPUInfoGeneric) : CPUInfoGeneric :=
  mkCPUInfoGeneric (KernelMax r) v (Online r) (Possible r) (Present r).
Definition setOnline (v : list Z) (r : CPUInfoGeneric) : CPUInfoGeneric :=
  mkCPUInfoGeneric (KernelMax r) (Offline r) v (Possible r) (Present r).
Definition setPossible (v : list Z) (r : CPUInfoGeneric) : CPUInfoGeneric :=
  mkCPUInfoGeneric (KernelMax r) (Offline r) (Online r) v (Present r).
Definition setPresent (v : list Z) (r : CPUInfoGeneric) : CPUInfoGeneric :=
  mkCPUInfoGeneric (KernelMax r) (Offline r) (Online r) (Possible r) v.

(** The [switch] of [parseCPUThermalThrottle]. *)
Definition thermalThrottleCases (label value : string)
  : option (assignment CPUThermalThrottle) :=
  if String.eqb label "core_throttle_count" then Some (parsed setCoreThrottleCount value)
  else if String.eqb label "package_throttle_count" then Some (parsed setPackageThrottleCount value)
  else None.

(** The [switch] of [parseCPUTopology]. *)
Definition topologyCases (label value : string) : option (assignment CPUTopology) :=
  if String.eqb label "core_id" then Some (parsed setCoreID value)
  else if String.eqb label "core_siblings" then Some (stored setCoreSiblings value)
  else if String.eqb label "core_siblings_list" then Some (stored setCoreSiblingsList value)
  else if String.eqb label "physical_package_id" then Some (parsed setPhysicalPackageID value)
  else if String.eqb label "thread_siblings" then Some (stored setThreadSiblings value)
  else if String.eqb label "thread_siblings_list" then Some (stored setThreadSiblingsList value)
  else None.

(** The [switch] of [parseCPUFreq]. *)
Definition freqCases (label value : string) : option (assignment CPUFreq) :=
  if String.eqb label "cpuinfo_cur_freq" then Some (parsed setCPUInfoCurFreq value)
  else if String.eqb label "cpuinfo_max_freq" then Some (parsed setCPUInfoMaxFreq value)
  else if String.eqb label "cpuinfo_min_freq" then Some (parsed setCPUInfoMinFreq value)
  else if String.eqb label "cpuinfo_transition_latency"
       then Some (parsed setCPUInfoTransitionLatency value)
  else if String.eqb label "scaling_available_governors"
       then Some (stored setScalingAvailableGovernors value)
  else if String.eqb label "scaling_cur_freq" then Some (parsed setScalingCurFreq value)
  else if String.eqb label "scaling_driver" then Some (stored setScalingDriver value)
  else if String.eqb label "scaling_governor" then Some (stored setScalingGovernor value)
  else if String.eqb label "scaling_max_freq" then Some (parsed setScalingMaxFreq value)
  else if String.eqb label "scaling_min_freq" then Some (parsed setScalingMinFreq value)
  else if String.eqb label "scaling_setspeed" then Some (parsed setScalingSetspeed value)
  else None.

Definition parseCPUThermalThrottle (os : OS) (fs : FS) (online : list Z)
  : M (list CPUThermalThrottle * option error) :=
  fanOut zeroCPUThermalThrottle "thermal_throttle" thermalThrottleCases os fs online.

Definition parseCPUTopology (os : OS) (fs : FS) (online : list Z)
  : M (list CPUTopology * option error) :=
  fanOut zeroCPUTopology "topology" topologyCases os fs online.

Definition parseCPUFreq (os : OS) (fs : FS) (online : list Z)
  : M (list CPUFreq * option error) :=
  fanOut zeroCPUFreq "cpufreq" freqCases os fs online.

(** ** The CPU enumeration: parseCPUInfoGeneric *)

Section Generic.
Variable fuel : nat.
Variable os : OS.
Variable fs : FS.

(** The body of the loop over the entries of the CPU device root. The
    [err] that the [kernel_max] case assigns is the one declared with
    [fileContents] inside the body: it is logged and goes no further. *)
Definition readGeneric (path : string) (fileDir : FileInfo)
    (cpuInfoGeneric : CPUInfoGeneric)
    : M (flow CPUInfoGeneric (CPUInfoGeneric * option error)) :=
  if IsDir fileDir then ret (Next cpuInfoGeneric)
  else
    match ReadFile os (path +:+ "/" +:+ Name fileDir) with
    | inl err =>
        ret (Return (cpuInfoGeneric,
                     Some (cannotAccess (path +:+ "/" +:+ Name fileDir) err)))
    | inr fileContents =>
        let value := TrimSpace fileContents in
        let label := Name fileDir in
        if String.eqb label "kernel_max" then
          let '(v, err) := ParseInt value in
          _ <- logIfErr err ;;
          ret (Next (setKernelMax v cpuInfoGeneric))
        else if String.eqb label "offline" then
          v <- parseCPURange fuel value ;;
          ret (Next (setOffline v cpuInfoGeneric))
        else if String.eqb label "online" then
          v <- parseCPURange fuel value ;;
          ret (Next (setOnline v cpuInfoGeneric))
        else if String.eqb label "possible" then
          v <- parseCPURange fuel value ;;
          ret (Next (setPossible v cpuInfoGeneric))
        else if String.eqb label "present" then
          v <- parseCPURange fuel value ;;
          ret (Next (setPresent v cpuInfoGeneric))
        else ret (Next cpuInfoGeneric)
    end.

Fixpoint readGenerics (path : string) (files : list FileInfo)
    (cpuInfoGeneric : CPUInfoGeneric)
    : M (flow CPUInfoGeneric (CPUInfoGeneric * option error)) :=
  match files with
  | [] => ret (Next cpuInfoGeneric)
  | fileDir :: rest =>
      f <- readGeneric path fileDir cpuInfoGeneric ;;
      match f with
      | Next cpuInfoGeneric => readGenerics path rest cpuInfoGeneric
      | Return r => ret (Return r)
      end
  end.

(** After the loop the function returns the [err] of [ReadDir], which
    is [nil] there. *)
Definition parseCPUInfoGeneric : M (CPUInfoGeneric * option error) :=
  let cpuInfoGeneric := zeroCPUInfoGeneric in
  let path := Path fs "devices/system/cpu" in
  match ReadDir os path with
  | inl err => ret (cpuInfoGeneric, Some (cannotAccessDir path err))
  | inr files =>
      f <- readGenerics path files cpuInfoGeneric ;;
      match f with
      | Next cpuInfoGeneric => ret (cpuInfoGeneric, None)
      | Return r => ret r
      end
  end.

(** [fs.NewCPUInfo()]. *)
Definition NewCPUInfo : M (CPUInfo * option error) :=
  let cpuInformation := zeroCPUInfo in
  r <- parseCPUInfoGeneric ;;
  let cpuInformation :=
    mkCPUInfo r.1 (CPUFreqSlice cpuInformation)
      (CPUTopologySlice cpuInformation) (CPUThermalThrottleSlice cpuInformation) in
  match r.2 with
  | Some err => ret (cpuInformation, Some err)
  | None =>
      r <- parseCPUFreq os fs (Online (cpuInfoGeneric cpuInformation)) ;;
      let cpuInformation :=
        mkCPUInfo (cpuInfoGeneric cpuInformation) r.1
          (CPUTopologySlice cpuInformation) (CPUThermalThrottleSlice cpuInformation) in
      match r.2 with
      | Some err => ret (cpuInformation, Some err)
      | None =>
          r <- parseCPUTopology os fs (Online (cpuInfoGeneric cpuInformation)) ;;
          let cpuInformation :=
            mkCPUInfo (cpuInfoGeneric cpuInformation) (CPUFreqSlice cpuInformation)
              r.1 (CPUThermalThrottleSlice cpuInformation) in
          match r.2 with
          | Some err => ret (cpuInformation, Some err)
          | None =>
              r <- parseCPUThermalThrottle os fs (Online (cpuInfoGeneric cpuInformation)) ;;
              ret (mkCPUInfo (cpuInfoGeneric cpuInformation)
                     (CPUFreqSlice cpuInformation)
                     (CPUTopologySlice cpuInformation) r.1, r.2)
          end
      end
  end.
End Generic.

(** ** Zone information: parseZoneInfo *)

Record ZoneInfo : Type := mkZoneInfo { Node : string; Zone : string }.

(** The reader as the [bufio.Scanner] made on it shows it: the lines
    [Text()] gives while [Scan()] holds, then the value of [Err()]. *)
Record Reader : Type := mkReader {
  lines : list string;
  scanErr : option error
}.

(** The body of the loop over the lines. *)
Definition scanLine (line : string) (zoneInfo : list ZoneInfo) : M (list ZoneInfo) :=
  if HasPrefix line "Node" then
    let parts := Fields line in
    p1 <- index parts 1 ;;
    let node := TrimRight p1 "," in
    p3 <- index parts 3 ;;
    let zone := TrimRight p3 "," in
    ret (zoneInfo ++ [mkZoneInfo node zone])
  else ret zoneInfo.

Fixpoint scanAll (ls : list string) (zoneInfo : list ZoneInfo) : M (list ZoneInfo) :=
  match ls with
  | [] => ret zoneInfo
  | line :: rest =>
      zoneInfo <- scanLine line zoneInfo ;;
      scanAll rest zoneInfo
  end.

Definition parseZoneInfo (r : Reader) : M (list ZoneInfo * option error) :=
  zoneInfo <- scanAll (lines r) [] ;;
  ret (zoneInfo, scanErr r).

(** ** Fixtures

    A file system given by two tables, the directories with their
    entries and the files with their contents; what is in neither table
    does not exist. *)

Fixpoint assoc {A} (table : list (string * A)) (p : string) : option A :=
  match table with
  | [] => None
  | (q, a) :: rest => if String.eqb p q then Some a else assoc rest p
  end.

Definition fixtureOS (dirs : list (string * list FileInfo))
    (files : list (string * string)) : OS :=
  mkOS
    (fun p => match assoc dirs p with
              | Some entries => inr entries
              | None => inl ("open " +:+ p +:+ ": no such file or directory")
              end)
    (fun p => match assoc files p with
              | Some contents => inr contents
              | None => inl ("open " +:+ p +:+ ": no such file or directory")
              end).

(** The mount point [/sys]. *)
Definition sys : FS := mkFS (fun p => "/sys/" +:+ p).

Definition file (name : string) : FileInfo := mkFileInfo name false.
Definition dir (name : string) : FileInfo := mkFileInfo name true.

(** ** Words of the specification *)

Fixpoint hasByte (c : ascii) (s : string) : bool :=
  match s with
  | EmptyString => false
  | String a s' => Ascii.eqb a c || hasByte c s'
  end.

(** A string of decimal digits, and the number it writes after the
    digits of [n]. *)
Fixpoint allDigits (s : string) : bool :=
  match s with
  | EmptyString => true
  | String c s' => match digit c with Some _ => allDigits s' | None => false end
  end.

Definition isNumber (s : string) : bool :=
  match s with EmptyString => false | _ => allDigits s end.

Fixpoint decimalFrom (n : Z) (s : string) : Z :=
  match s with
  | EmptyString => n
  | String c s' => decimalFrom (n * 10 + (byte c - 48)) s'
  end.

Definition decimal (s : string) : Z := decimalFrom 0 s.

(** A component [first-last] of a range string. *)
Definition rangeText (ab : string * string) : string := ab.1 +:+ "-" +:+ ab.2.

(** The integers from [first] to [last] that the component stands for. *)
Definition rangeSpan (ab : string * string) : list Z :=
  seqZ (decimal ab.1) (decimal ab.2 - decimal ab.1 + 1).

(** A well-formed component below a bound: two numbers, the first not
    above the second, the second below [bound]. *)
Definition wellFormedRange (bound : Z) (ab : string * string) : Prop :=
  isNumber ab.1 = true /\ isNumber ab.2 = true
  /\ decimal ab.1 <= decimal ab.2 /\ decimal ab.2 < bound.

(** The number of integers a list of components stands for. *)
Definition spanCount (rs : list (string * string)) : Z :=
  foldr (fun ab n => decimal ab.2 - decimal ab.1 + 1 + n) 0 rs.

(** The slice a loop body leaves, whether the loop goes on or returns. *)
Definition sliceOf {R E} (f : flow (list R) (list R * E)) : list R :=
  match f with
  | Next s => s
  | Return r => r.1
  end.

(** A computation that only adds to the log and never looks at it. *)
Definition steady {A} (m : M A) : Prop :=
  forall log, m log = ((m []).1, log ++ (m []).2).

(** A fixture in the manner of the tests: CPU 0 has no
    [thermal_throttle] directory; a file listed in [cpu2/topology]
    cannot be read; the count of [cpu3/thermal_throttle] is past the
    greatest [int64]; CPU 89 has a [thermal_throttle] directory. *)
Definition fixture : OS := fixtureOS
  [("/sys/devices/system/cpu",
    [dir "cpu0"; dir "cpu1"; file "kernel_max"; file "offline"; file "online";
     file "possible"; file "present"]);
   ("/sys/devices/system/cpu/cpu0/cpufreq",
    [file "cpuinfo_cur_freq"; file "scaling_driver"; file "scaling_setspeed"]);
   ("/sys/devices/system/cpu/cpu0/topology", [file "core_id"; file "core_siblings_list"]);
   ("/sys/devices/system/cpu/cpu1/topology", [file "core_id"; file "core_siblings_list"]);
   ("/sys/devices/system/cpu/cpu1/thermal_throttle",
    [file "core_throttle_count"; file "package_throttle_count"]);
   ("/sys/devices/system/cpu/cpu2/topology", [file "core_id"; file "core_siblings"]);
   ("/sys/devices/system/cpu/cpu3/thermal_throttle", [file "core_throttle_count"]);
   ("/sys/devices/system/cpu/cpu89/thermal_throttle", [file "core_throttle_count"])]
  [("/sys/devices/system/cpu/kernel_max", "2047
");
   ("/sys/devices/system/cpu/offline", "2-3
");
   ("/sys/devices/system/cpu/online", "0-1
");
   ("/sys/devices/system/cpu/possible", "0-3
");
   ("/sys/devices/system/cpu/present", "0-1
");
   ("/sys/devices/system/cpu/cpu0/cpufreq/cpuinfo_cur_freq", "2300000
");
   ("/sys/devices/system/cpu/cpu0/cpufreq/scaling_driver", "acpi-cpufreq
");
   ("/sys/devices/system/cpu/cpu0/cpufreq/scaling_setspeed", "<unsupported>
");
   ("/sys/devices/system/cpu/cpu0/topology/core_id", "0
");
   ("/sys/devices/system/cpu/cpu0/topology/core_siblings_list", "0-23,48-71
");
   ("/sys/devices/system/cpu/cpu1/topology/core_id", "1
");
   ("/sys/devices/system/cpu/cpu1/topology/core_siblings_list", "0-15,32-47
");
   ("/sys/devices/system/cpu/cpu1/thermal_throttle/core_throttle_count", "30
");
   ("/sys/devices/system/cpu/cpu1/thermal_throttle/package_throttle_count", "45
");
   ("/sys/devices/system/cpu/cpu2/topology/core_id", "2
");
   ("/sys/devices/system/cpu/cpu3/thermal_throttle/core_throttle_count",
    "9223372036854775808
");
   ("/sys/devices/system/cpu/cpu89/thermal_throttle/core_throttle_count", "7
")].

(** Twenty-four online CPUs, the last of number 89. *)
Definition online24 : list Z := seqZ 0 23 ++ [89].

(** The record of a line: its second and fourth fields without their
    trailing commas. *)
Definition zoneRecord (line : string) : ZoneInfo :=
  mkZoneInfo (TrimRight (nth 1 (Fields line) "") ",")
             (TrimRight (nth 3 (Fields line) "") ",").

Definition isNodeLine (line : string) : bool := HasPrefix line "Node".

(** A few lines of [/proc/zoneinfo]. *)
Definition zoneinfoLines : list string :=
  ["Node 0, zone      DMA";
   "  per-node stats";
   "      nr_inactive_anon 230981";
   "  pages free     3952";
   "        min      33";
   "Node 0, zone    DMA32";
   "  pages free     204252"].

(** A numeric field of the records of a parser: the case of [label]
    assigns to it what [ParseInt] returns, and no other case writes it. *)
Definition numericField {R} (cases : string -> string -> option (assignment R))
    (label : string) (get : R -> Z) (set : Z -> R -> R) : Prop :=
  (forall value, cases label value = Some (parsed set value))
  /\ (forall v r, get (set v r) = v)
  /\ (forall l value assign r,
        l <> label -> cases l value = Some assign -> get (assign r).1 = get r).

(** The slot [i] of the slice exists and its field is [v]. *)
Definition slotHas {R} (get : R -> Z) (i : nat) (v : Z) (s : list R) : Prop :=
  exists r, s !! i = Some r /\ get r = v.

(** The enumeration a loop body leaves, whether the loop goes on or
    returns. *)
Definition enumerationOf {E} (f : flow CPUInfoGeneric (CPUInfoGeneric * E))
  : CPUInfoGeneric :=
  match f with
  | Next c => c
  | Return r => r.1
  end.

(** The files of the CPU device root that hold ranges. *)
Definition isRangeFile (name : string) : bool :=
  String.eqb name "offline" || String.eqb name "online"
  || String.eqb name "possible" || String.eqb name "present".

(** The expansion of [value] returns. *)
Definition expands (fuel : nat) (value : string) : Prop :=
  exists out w, parseCPURange fuel value [] = (Done out, w).

(** A CPU device root whose [kernel_max] is not a number. *)
Definition fixtureKernelMax : OS := fixtureOS
  [("/sys/devices/system/cpu", [dir "cpu0"; file "kernel_max"; file "online"])]
  [("/sys/devices/system/cpu/kernel_max", "unlimited
");
   ("/sys/devices/system/cpu/online", "0-1
")].

(** A string field of the records of a parser: the case of [label]
    stores the value of the file in it, and no other case writes it. *)
Definition stringField {R} (cases : string -> string -> option (assignment R))
    (label : string) (get : R -> string) (set : string -> R -> R) : Prop :=
  (forall value, cases label value = Some (stored set value))
  /\ (forall v r, get (set v r) = v)
  /\ (forall l value assign r,
        l <> label -> cases l value = Some assign -> get (assign r).1 = get r).

(** The slot [i] of the slice exists and its string field is [v]. *)
Definition slotHolds {R} (get : R -> string) (i : nat) (v : string) (s : list R)
  : Prop :=
  exists r, s !! i = Some r /\ get r = v.

(** The file system [os] with the directories left out of its listings. *)
Definition withoutDirectories (os : OS) : OS :=
  mkOS
    (fun p => match ReadDir os p with
              | inr entries => inr (List.filter (fun fd => negb (IsDir fd)) entries)
              | inl e => inl e
              end)
    (ReadFile os).

(** The four range files of the CPU device root and their fields. *)
Inductive rangeField : string -> (CPUInfoGeneric -> list Z) -> Prop :=
| offlineField : rangeField "offline" Offline
| onlineField : rangeField "online" Online
| possibleField : rangeField "possible" Possible
| presentField : rangeField "present" Present.

(** A CPU device root with a file of no known name that cannot be read. *)
Definition fixtureUevent : OS := fixtureOS
  [("/sys/devices/system/cpu",
    [dir "cpu0"; file "kernel_max"; file "online"; file "probe"; file "present"])]
  [("/sys/devices/system/cpu/kernel_max", "2047
");
   ("/sys/devices/system/cpu/online", "0-1
");
   ("/sys/devices/system/cpu/present", "0-1
")].

(** [s] ends with the byte [c]. *)
Fixpoint endsWith (c : ascii) (s : string) : bool :=
  match s with
  | EmptyString => false
  | String a EmptyString => Ascii.eqb a c
  | String _ s' => endsWith c s'
  end.

(** ** Two earlier states of the CPU reader

    The sources hold two earlier states of [cpu_system_devices.go]. *)

(** *** The reader with the frequencies only

    Its [parseCPUFreq] and [parseCPURange] are those above, word for
    word; its [parseCPUInfoGeneric] does not log, and its [NewCPUInfo]
    stops after the frequencies. *)

Record CPUInfoF : Type := mkCPUInfoF {
  cpuInfoGenericF : CPUInfoGeneric;
  CPUFreqString : list CPUFreq
}.

Section Freq.
Variable fuel : nat.
Variable os : OS.
Variable fs : FS.

(** The body of the loop over the entries: the [err] of the
    [kernel_max] case is dropped. *)
Definition readGenericF (path : string) (fileDir : FileInfo)
    (cpuInfoGeneric : CPUInfoGeneric)
    : M (flow CPUInfoGeneric (CPUInfoGeneric * option error)) :=
  if IsDir fileDir then ret (Next cpuInfoGeneric)
  else
    match ReadFile os (path +:+ "/" +:+ Name fileDir) with
    | inl err =>
        ret (Return (cpuInfoGeneric,
                     Some (cannotAccess (path +:+ "/" +:+ Name fileDir) err)))
    | inr fileContents =>
        let value := TrimSpace fileContents in
        let label := Name fileDir in
        if String.eqb label "kernel_max" then
          let '(v, err) := ParseInt value in
          ret (Next (setKernelMax v cpuInfoGeneric))
        else if String.eqb label "offline" then
          v <- parseCPURange fuel value ;;
          ret (Next (setOffline v cpuInfoGeneric))
        else if String.eqb label "online" then
          v <- parseCPURange fuel value ;;
          ret (Next (setOnline v cpuInfoGeneric))
        else if String.eqb label "possible" then
          v <- parseCPURange fuel value ;;
          ret (Next (setPossible v cpuInfoGeneric))
        else if String.eqb label "present" then
          v <- parseCPURange fuel value ;;
          ret (Next (setPresent v cpuInfoGeneric))
        else ret (Next cpuInfoGeneric)
    end.

Fixpoint readGenericsF (path : string) (files : list FileInfo)
    (cpuInfoGeneric : CPUInfoGeneric)
    : M (flow CPUInfoGeneric (CPUInfoGeneric * option error)) :=
  match files with
  | [] => ret (Next cpuInfoGeneric)
  | fileDir :: rest =>
      f <- readGenericF path fileDir cpuInfoGeneric ;;
      match f with
      | Next cpuInfoGeneric => readGenericsF path rest cpuInfoGeneric
      | Return r => ret (Return r)
      end
  end.

Definition parseCPUInfoGenericF : M (CPUInfoGeneric * option error) :=
  let cpuInfoGeneric := zeroCPUInfoGeneric in
  let path := Path fs "devices/system/cpu" in
  match ReadDir os path with
  | inl err => ret (cpuInfoGeneric, Some (cannotAccessDir path err))
  | inr files =>
      f <- readGenericsF path files cpuInfoGeneric ;;
      match f with
      | Next cpuInfoGeneric => ret (cpuInfoGeneric, None)
      | Return r => ret r
      end
  end.

Definition NewCPUInfoF : M (CPUInfoF * option error) :=
  let cpuInformation := mkCPUInfoF zeroCPUInfoGeneric [] in
  r <- parseCPUInfoGenericF ;;
  let cpuInformation := mkCPUInfoF r.1 (CPUFreqString cpuInformation) in
  match r.2 with
  | Some err => ret (cpuInformation, Some err)
  | None =>
      r <- parseCPUFreq os fs (Online (cpuInfoGenericF cpuInformation)) ;;
      let cpuInformation := mkCPUInfoF (cpuInfoGenericF cpuInformation) r.1 in
      match r.2 with
      | Some err => ret (cpuInformation, Some err)
      | None => ret (cpuInformation, None)
      end
  end.
End Freq.

(** *** The reader that keeps the ranges as strings

    It neither logs nor indexes a slice: its functions are plain ones. *)

Record CPUInfoGenericS : Type := mkCPUInfoGenericS {
  KernelMaxS : Z;
  OfflineS : string;
  OnlineS : string;
  PossibleS : string;
  PresentS : string
}.

Record CPUInfoS : Type := mkCPUInfoS { cpuInfoGenericS : CPUInfoGenericS }.

Definition zeroCPUInfoGenericS : CPUInfoGenericS := mkCPUInfoGenericS 0 "" "" "" "".

Section Strings.
(** Modelled from the spec: [sysReadFile] is not among the sources; it
    is the file read primitive, which gives the contents of the file or
    fails with an error of the given text. *)
Variable sysReadFile : string -> string + string.
Variable os : OS.
Variable fs : FS.

Definition readGenericS (path : string) (fileDir : FileInfo)
    (cpuInfoGeneric : CPUInfoGenericS)
    : flow CPUInfoGenericS (CPUInfoGenericS * option error) :=
  if IsDir fileDir then Next cpuInfoGeneric
  else
    match sysReadFile (path +:+ "/" +:+ Name fileDir) with
    | inl err =>
        Return (cpuInfoGeneric,
                Some (cannotAccess (path +:+ "/" +:+ Name fileDir) err))
    | inr fileContents =>
        let value := TrimSpace fileContents in
        let label := Name fileDir in
        let 'mkCPUInfoGenericS k off on pos pre := cpuInfoGeneric in
        if String.eqb label "kernel_max" then
          Next (mkCPUInfoGenericS (ParseInt value).1 off on pos pre)
        else if String.eqb label "offline" then
          Next (mkCPUInfoGenericS k value on pos pre)
        else if String.eqb label "online" then
          Next (mkCPUInfoGenericS k off value pos pre)
        else if String.eqb label "possible" then
          Next (mkCPUInfoGenericS k off on value pre)
        else if String.eqb label "present" then
          Next (mkCPUInfoGenericS k off on pos value)
        else Next cpuInfoGeneric
    end.

Fixpoint readGenericsS (path : string) (files : list FileInfo)
    (cpuInfoGeneric : CPUInfoGenericS)
    : flow CPUInfoGenericS (CPUInfoGenericS * option error) :=
  match files with
  | [] => Next cpuInfoGeneric
  | fileDir :: rest =>
      match readGenericS path fileDir cpuInfoGeneric with
      | Next cpuInfoGeneric => readGenericsS path rest cpuInfoGeneric
      | Return r => Return r
      end
  end.

Definition parseCPUInfoGenericS : CPUInfoGenericS * option error :=
  let cpuInfoGeneric := zeroCPUInfoGenericS in
  let path := Path fs "devices/system/cpu" in
  match ReadDir os path with
  | inl err => (cpuInfoGeneric, Some (cannotAccessDir path err))
  | inr files =>
      match readGenericsS path files cpuInfoGeneric with
      | Next cpuInfoGeneric => (cpuInfoGeneric, None)
      | Return r => r
      end
  end.

(** On an error the snapshot returned is [CPUInfo{}]. *)
Definition NewCPUInfoS : CPUInfoS * option error :=
  let cpuInformation := mkCPUInfoS zeroCPUInfoGenericS in
  let r := parseCPUInfoGenericS in
  let cpuInformation := mkCPUInfoS r.1 in
  match r.2 with
  | Some err => (mkCPUInfoS zeroCPUInfoGenericS, Some err)
  | None => (cpuInformation, None)
  end.
End Strings.

(** The four range strings of that reader and their files. *)
Inductive rangeString : string -> (CPUInfoGenericS -> string) -> Prop :=
| offlineString : rangeString "offline" OfflineS
| onlineString : rangeString "online" OnlineS
| possibleString : rangeString "possible" PossibleS
| presentString : rangeString "present" PresentS.

(** * Properties *)

(** ** Strings *)

Lemma Split_none s sep : hasByte sep s = false -> Split s sep = [s].
Proof.
  induction s as [|c s IH]; simpl; [reflexivity|].
  intros H. apply orb_false_iff in H as [Hc Hs].
  rewrite Hc, (IH Hs). reflexivity.
Qed.

Lemma Split_app s t sep :
  hasByte sep s = false ->
  Split (s +:+ String sep t) sep = s :: Split t sep.
Proof.
  induction s as [|c s IH]; simpl; intros H.
  - rewrite Ascii.eqb_refl. reflexivity.
  - apply orb_false_iff in H as [Hc Hs].
    change (String c s +:+ String sep t) with (String c (s +:+ String sep t)).
    simpl. rewrite Hc, (IH Hs). reflexivity.
Qed.

Lemma Split_joinWith sep comps :
  comps <> [] ->
  Forall (fun c => hasByte sep c = false) comps ->
  Split (joinWith sep comps) sep = comps.
Proof.
  induction comps as [|c rest IH]; [congruence|].
  intros _ H. inversion H as [|? ? Hc Hrest]; subst.
  destruct rest as [|c' rest'].
  - simpl. apply Split_none, Hc.
  - change (joinWith sep (c :: c' :: rest'))
      with (c +:+ String sep (joinWith sep (c' :: rest'))).
    rewrite (Split_app _ _ _ Hc), IH; [reflexivity|discriminate|assumption].
Qed.

Lemma hasByte_app c s t : hasByte c (s +:+ t) = hasByte c s || hasByte c t.
Proof.
  induction s as [|a s IH]; [reflexivity|].
  change (String a s +:+ t) with (String a (s +:+ t)).
  simpl. rewrite IH, orb_assoc. reflexivity.
Qed.

(** ** Decimal numbers *)

Lemma digit_range c v : digit c = Some v -> v = byte c - 48 /\ 0 <= v <= 9.
Proof.
  unfold digit. destruct (_ && _) eqn:E; [|discriminate].
  intros [= <-]. apply andb_true_iff in E as [H1 H2]. lia.
Qed.

Lemma digit_not sep c : digit sep = None -> digit c <> None -> Ascii.eqb c sep = false.
Proof.
  intros Hs Hc. destruct (Ascii.eqb_spec c sep) as [->|]; [contradiction|reflexivity].
Qed.

Lemma allDigits_hasByte sep s : digit sep = None -> allDigits s = true -> hasByte sep s = false.
Proof.
  intros Hsep. induction s as [|c s IH]; simpl; [reflexivity|].
  destruct (digit c) eqn:E; [|discriminate]. intros H.
  rewrite (digit_not sep c Hsep), (IH H); [reflexivity|congruence].
Qed.

Lemma decimalFrom_ge s : forall n, 0 <= n -> allDigits s = true -> n <= decimalFrom n s.
Proof.
  induction s as [|c s IH]; simpl; intros n Hn H; [lia|].
  destruct (digit c) eqn:E; [|discriminate].
  apply digit_range in E as [-> Hv].
  specialize (IH (n * 10 + (byte c - 48)) ltac:(lia) H). lia.
Qed.

Lemma parseUintLoop_digits s : forall n,
  0 <= n -> allDigits s = true -> decimalFrom n s <= maxUint64 ->
  parseUintLoop s n = (decimalFrom n s, None).
Proof.
  induction s as [|c s IH]; simpl; intros n Hn H Hmax; [reflexivity|].
  destruct (digit c) eqn:E; [|discriminate].
  apply digit_range in E as [-> Hv].
  pose proof (decimalFrom_ge s (n * 10 + (byte c - 48)) ltac:(lia) H) as Hge.
  unfold maxUint64 in *.
  change (2 ^ 64 - 1) with 18446744073709551615 in *.
  change ((18446744073709551615) / 10 + 1) with 1844674407370955162.
  change (2 ^ 64) with 18446744073709551616.
  destruct (Z.geb_spec n 1844674407370955162); [lia|].
  rewrite Z.mod_small by lia.
  destruct (Z.ltb_spec (n * 10 + (byte c - 48)) (n * 10)); [lia|].
  destruct (Z.gtb_spec (n * 10 + (byte c - 48)) 18446744073709551615); [lia|].
  simpl. apply IH; [lia|assumption|assumption].
Qed.

Lemma isNumber_allDigits s : isNumber s = true -> allDigits s = true.
Proof. destruct s; [discriminate|exact id]. Qed.

Lemma decimal_nonneg s : isNumber s = true -> 0 <= decimal s.
Proof. intros H. apply decimalFrom_ge; [lia|apply isNumber_allDigits, H]. Qed.

(** [ParseInt] reads a number below [2^63] without an error. *)
Lemma ParseInt_number s :
  isNumber s = true -> decimal s <= MaxInt64 -> ParseInt s = (decimal s, None).
Proof.
  intros H Hmax. pose proof (decimal_nonneg s H) as H0.
  destruct s as [|c s]; [discriminate|].
  unfold ParseInt.
  assert (Hc : digit c <> None).
  { simpl in H. destruct (digit c); [discriminate|discriminate H]. }
  rewrite (digit_not "-" c eq_refl Hc), (digit_not "+" c eq_refl Hc).
  cbn [orb negb andb]. unfold ParseUint.
  rewrite (parseUintLoop_digits (String c s) 0); unfold MaxInt64, maxUint64 in *;
    [|lia|exact H|fold (decimal (String c s)); lia].
  fold (decimal (String c s)).
  destruct (Z.geb_spec (decimal (String c s)) (2 ^ 63)); [lia|reflexivity].
Qed.

(** What [ParseInt] returns with an error: zero for a syntax error, the
    nearest bound of [int64] for a number out of range. *)
Lemma ParseInt_failure s v e :
  ParseInt s = (v, Some e) ->
  (v = 0 /\ e = NumError "ParseInt" s ErrSyntax)
  \/ ((v = MaxInt64 \/ v = MinInt64) /\ e = NumError "ParseInt" s ErrRange).
Proof.
  unfold ParseInt. destruct s as [|c0 rest].
  { intros [= <- <-]. left. split; reflexivity. }
  destruct (ParseUint _) as [un [[]|]].
  - intros [= <- <-]. left. split; reflexivity.
  - destruct (_ && _).
    + intros [= <- <-]. right. split; [left|]; reflexivity.
    + destruct (_ && _); [|discriminate].
      intros [= <- <-]. right. split; [right|]; reflexivity.
  - destruct (_ && _).
    + intros [= <- <-]. right. split; [left|]; reflexivity.
    + destruct (_ && _); [|discriminate].
      intros [= <- <-]. right. split; [right|]; reflexivity.
Qed.

(** ** The loop of a range *)

Lemma wrap64_id z : MinInt64 <= z <= MaxInt64 -> wrap64 z = z.
Proof.
  unfold wrap64, MinInt64, MaxInt64. intros H.
  rewrite Z.mod_small; lia.
Qed.

Lemma rangeLoop_spec fuel : forall i last cpuSlice,
  MinInt64 <= i -> last < MaxInt64 -> last - i + 1 <= Z.of_nat fuel ->
  rangeLoop fuel i last cpuSlice = Done (cpuSlice ++ seqZ i (last - i + 1)).
Proof.
  induction fuel as [|fuel IH]; intros i last cpuSlice Hi Hlast Hfuel; simpl.
  - destruct (Z.leb_spec i last); [lia|].
    rewrite seqZ_nil, app_nil_r by lia. reflexivity.
  - destruct (Z.leb_spec i last).
    + rewrite wrap64_id by (unfold MinInt64, MaxInt64 in *; lia).
      rewrite IH by lia.
      rewrite (seqZ_cons i) by lia.
      rewrite <- app_assoc. simpl.
      replace (Z.succ i) with (i + 1) by lia.
      replace (Z.pred (last - i + 1)) with (last - (i + 1) + 1) by lia.
      reflexivity.
    + rewrite seqZ_nil, app_nil_r by lia. reflexivity.
Qed.

Lemma rangeLoop_reversed fuel i last cpuSlice :
  last < i -> rangeLoop fuel i last cpuSlice = Done cpuSlice.
Proof.
  intros H. destruct fuel; simpl; destruct (Z.leb_spec i last); (lia || reflexivity).
Qed.

(** Up to the greatest [int64] the loop never ends: its counter wraps
    around and the test holds again. *)
Lemma rangeLoop_forever fuel : forall i cpuSlice,
  MinInt64 <= i <= MaxInt64 -> rangeLoop fuel i MaxInt64 cpuSlice = OutOfFuel.
Proof.
  induction fuel as [|fuel IH]; intros i cpuSlice Hi; simpl;
    destruct (Z.leb_spec i MaxInt64); try lia; [reflexivity|].
  apply IH. unfold wrap64, MinInt64, MaxInt64 in *.
  pose proof (Z.mod_pos_bound (i + 1 + 2 ^ 63) (2 ^ 64) ltac:(lia)). lia.
Qed.

(** ** Range expansion *)

Lemma Split_component a b :
  hasByte "-" a = false -> hasByte "-" b = false ->
  Split (a +:+ "-" +:+ b) "-" = [a; b].
Proof.
  intros Ha Hb. change (a +:+ "-" +:+ b) with (a +:+ String "-" b).
  rewrite Split_app, Split_none by assumption. reflexivity.
Qed.

Lemma parseComponent_parsed fuel a b first last cpuSlice log :
  hasByte "-" a = false -> hasByte "-" b = false ->
  ParseInt a = (first, None) -> ParseInt b = (last, None) ->
  parseComponent fuel (a +:+ "-" +:+ b) cpuSlice log
  = (rangeLoop fuel first last cpuSlice, log).
Proof.
  intros Ha Hb Hfirst Hlast. unfold parseComponent.
  rewrite (Split_component a b Ha Hb).
  unfold bind, index. simpl. rewrite Hfirst. simpl. rewrite Hlast. reflexivity.
Qed.

Lemma parseComponents_app fuel pre : forall post cpuSlice log,
  parseComponents fuel (pre ++ post) cpuSlice log
  = (s <- parseComponents fuel pre cpuSlice ;; parseComponents fuel post s) log.
Proof.
  induction pre as [|c pre IH]; intros post cpuSlice log; simpl; [reflexivity|].
  unfold bind.
  destruct (parseComponent fuel c cpuSlice log) as [[s| |] log']; try reflexivity.
  rewrite IH. reflexivity.
Qed.

Lemma wellFormed_hyphen bound ab :
  wellFormedRange bound ab -> hasByte "-" ab.1 = false /\ hasByte "-" ab.2 = false.
Proof.
  intros (Ha & Hb & _).
  split; apply allDigits_hasByte; try reflexivity; apply isNumber_allDigits; assumption.
Qed.

Lemma wellFormed_comma bound ab :
  wellFormedRange bound ab -> hasByte "," (rangeText ab) = false.
Proof.
  intros (Ha & Hb & _). unfold rangeText.
  rewrite !hasByte_app.
  rewrite (allDigits_hasByte "," ab.1), (allDigits_hasByte "," ab.2);
    auto using isNumber_allDigits.
Qed.

Lemma parseComponents_ranges fuel rs : forall cpuSlice log,
  Forall (wellFormedRange MaxInt64) rs ->
  Forall (fun ab => decimal ab.2 - decimal ab.1 + 1 <= Z.of_nat fuel) rs ->
  parseComponents fuel (map rangeText rs) cpuSlice log
  = (Done (cpuSlice ++ concat (map rangeSpan rs)), log).
Proof.
  induction rs as [|ab rs IH]; intros cpuSlice log Hwf Hfuel; simpl.
  - rewrite app_nil_r. reflexivity.
  - inversion Hwf as [|? ? Hab Hrs]; inversion Hfuel as [|? ? Hf Hfs]; subst.
    destruct (wellFormed_hyphen _ _ Hab) as [H1 H2].
    destruct Hab as (Ha & Hb & Hle & Hlt).
    pose proof (decimal_nonneg _ Ha).
    unfold bind, rangeText at 1.
    rewrite (parseComponent_parsed fuel _ _ (decimal ab.1) (decimal ab.2))
      by (auto; apply ParseInt_number; auto; lia).
    rewrite rangeLoop_spec by (unfold MinInt64; lia).
    rewrite IH by assumption. rewrite <- app_assoc. reflexivity.
Qed.

Lemma length_spans rs :
  Forall (wellFormedRange MaxInt64) rs ->
  Z.of_nat (length (concat (map rangeSpan rs))) = spanCount rs.
Proof.
  induction 1 as [|ab rs (_ & _ & Hle & _) _ IH]; simpl; [reflexivity|].
  rewrite length_app, Nat2Z.inj_add, IH. unfold rangeSpan.
  rewrite length_seqZ. lia.
Qed.

(** C2, as amended. A string of one or more well-formed components [N-M]
    with commas between them, where [N <= M] and [M] is below the
    greatest [int64]: with fuel for the longest component,
    [parseCPURange] returns the integers of the components in the order
    of the string, ascending from [N] to [M] inside a component; their
    number is the sum of the spans [M - N + 1]; nothing is logged. *)
Theorem parseCPURange_ranges (rs : list (string * string)) (fuel : nat) (log : Log) :
  rs <> [] ->
  Forall (wellFormedRange MaxInt64) rs ->
  Forall (fun ab => decimal ab.2 - decimal ab.1 + 1 <= Z.of_nat fuel) rs ->
  parseCPURange fuel (joinWith "," (map rangeText rs)) log
    = (Done (concat (map rangeSpan rs)), log)
  /\ Z.of_nat (length (concat (map rangeSpan rs))) = spanCount rs.
Proof.
  intros Hne Hwf Hfuel. split; [|apply length_spans, Hwf].
  unfold parseCPURange. rewrite Split_joinWith.
  - apply (parseComponents_ranges fuel rs [] log Hwf Hfuel).
  - destruct rs; [congruence|discriminate].
  - apply Forall_map. eapply Forall_impl; [exact Hwf|].
    intros ab Hab. exact (wellFormed_comma _ _ Hab).
Qed.

Ltac number_facts :=
  repeat match goal with
    | |- Forall _ _ => constructor
    | |- wellFormedRange _ _ => unfold wellFormedRange
    | |- _ /\ _ => split
    end;
  try reflexivity; try discriminate; try (vm_compute; congruence).

(** The two expansions of the specification: ["0-2"] and ["0-1,8-9"]. *)
Lemma parseCPURange_ranges_witness :
  parseCPURange 3 "0-2" [] = (Done [0; 1; 2], [])
  /\ parseCPURange 2 "0-1,8-9" [] = (Done [0; 1; 8; 9], []).
Proof.
  split.
  - refine (proj1 (parseCPURange_ranges [("0", "2")] 3 [] _ _ _)); number_facts.
  - refine (proj1 (parseCPURange_ranges [("0", "1"); ("8", "9")] 2 [] _ _ _));
      number_facts.
Defined.

(** C2 as it is written fails for the greatest [int64]: ["0-M"] with
    [M = 2^63 - 1] is a well-formed range with [N <= M], and
    [parseCPURange] returns for no amount of fuel, since [i <= last]
    holds for every [int64]. *)
Lemma parseCPURange_greatest_last :
  wellFormedRange (MaxInt64 + 1) ("0", "9223372036854775807")
  /\ forall fuel log,
       parseCPURange fuel "0-9223372036854775807" log = (OutOfFuel, log).
Proof.
  split; [number_facts|].
  intros fuel log. unfold parseCPURange.
  change (Split "0-9223372036854775807" ",") with ["0-9223372036854775807"].
  unfold parseComponents, bind.
  rewrite (parseComponent_parsed fuel "0" "9223372036854775807" 0 MaxInt64)
    by reflexivity.
  rewrite rangeLoop_forever; [reflexivity|].
  unfold MinInt64, MaxInt64. lia.
Qed.

(** C10. A component [N-M] whose two parts parse as integers with
    [M < N] adds nothing to the slice and logs nothing, and the call
    comes to what the loop over the other components comes to. *)
Theorem parseCPURange_reversed (pre post : list string) (a b : string)
    (first last : Z) (fuel : nat) (log : Log) :
  Forall (fun c => hasByte "," c = false) (pre ++ (a +:+ "-" +:+ b) :: post) ->
  hasByte "-" a = false -> hasByte "-" b = false ->
  ParseInt a = (first, None) -> ParseInt b = (last, None) ->
  last < first ->
  (forall cpuSlice log',
     parseComponent fuel (a +:+ "-" +:+ b) cpuSlice log' = (Done cpuSlice, log'))
  /\ parseCPURange fuel (joinWith "," (pre ++ (a +:+ "-" +:+ b) :: post)) log
     = parseComponents fuel (pre ++ post) [] log.
Proof.
  intros Hcomma Ha Hb Hfirst Hlast Hlt.
  assert (Hstep : forall cpuSlice log',
    parseComponent fuel (a +:+ "-" +:+ b) cpuSlice log' = (Done cpuSlice, log')).
  { intros cpuSlice log'.
    rewrite (parseComponent_parsed fuel a b first last) by assumption.
    rewrite rangeLoop_reversed by assumption. reflexivity. }
  split; [exact Hstep|].
  unfold parseCPURange. rewrite Split_joinWith; [|destruct pre; discriminate|assumption].
  rewrite !parseComponents_app. unfold bind.
  destruct (parseComponents fuel pre [] log) as [[s| |] log']; try reflexivity.
  simpl. unfold bind. rewrite Hstep. reflexivity.
Qed.

Lemma parseCPURange_reversed_witness :
  parseCPURange 2 "0-1,5-3,8-9" [] = (Done [0; 1; 8; 9], []).
Proof.
  refine (eq_trans
    (proj2 (parseCPURange_reversed ["0-1"] ["8-9"] "5" "3" 5 3 2 [] _ _ _ _ _ _)) _);
    try reflexivity.
  repeat constructor.
Defined.

(** ** The log is only written *)

Lemma steady_ret {A} (a : A) : steady (ret a).
Proof. intros log. unfold ret. simpl. rewrite app_nil_r. reflexivity. Qed.

Lemma steady_throw {A} p : steady (@throw A p).
Proof. intros log. unfold throw. simpl. rewrite app_nil_r. reflexivity. Qed.

Lemma steady_lift {A} (r : result A) : steady (lift r).
Proof. intros log. unfold lift. simpl. rewrite app_nil_r. reflexivity. Qed.

Lemma steady_Debugln e : steady (Debugln e).
Proof. intros log. reflexivity. Qed.

Lemma steady_logIfErr err : steady (logIfErr err).
Proof. destruct err; [apply steady_Debugln|apply steady_ret]. Qed.

Lemma steady_index {A} (s : list A) i : steady (index s i).
Proof.
  unfold index. destruct (i <? 0); [apply steady_throw|].
  destruct (s !! Z.to_nat i); [apply steady_ret|apply steady_throw].
Qed.

Lemma steady_bind {A B} (m : M A) (k : A -> M B) :
  steady m -> (forall a, steady (k a)) -> steady (x <- m ;; k x).
Proof.
  intros Hm Hk log. unfold bind.
  rewrite (Hm log). destruct (m []) as [[a| |] w]; simpl.
  - rewrite (Hk a (log ++ w)), (Hk a w). simpl. rewrite app_assoc. reflexivity.
  - reflexivity.
  - reflexivity.
Qed.

Lemma steady_extends {A} (m : M A) log r log' :
  steady m -> m log = (r, log') -> exists w, log' = log ++ w.
Proof. intros Hm H. rewrite (Hm log) in H. inversion H. eauto. Qed.

Create HintDb steady.
#[local] Hint Resolve steady_ret steady_throw steady_lift steady_Debugln
  steady_logIfErr steady_index : steady.

Ltac steady_step :=
  match goal with
  | |- steady (bind _ _) => apply steady_bind; [|intros ?]
  | |- steady (match ?x with _ => _ end) => destruct x
  | |- steady (let '(_, _) := ?x in _) => destruct x
  | |- steady _ => solve [auto with steady]
  end.

Lemma steady_parseComponent fuel component cpuSlice :
  steady (parseComponent fuel component cpuSlice).
Proof. unfold parseComponent. repeat steady_step. Qed.

Lemma steady_parseComponents fuel components :
  forall cpuSlice, steady (parseComponents fuel components cpuSlice).
Proof.
  induction components as [|c rest IH]; intros cpuSlice; simpl.
  - apply steady_ret.
  - apply steady_bind; [apply steady_parseComponent|exact IH].
Qed.

Lemma steady_parseCPURange fuel value : steady (parseCPURange fuel value).
Proof. apply steady_parseComponents. Qed.

#[local] Hint Resolve steady_parseCPURange : steady.

(** ** The per-CPU parsers *)

Section FanOutFacts.
Context {R : Type}.
Variable zero : R.
Variable subsystem : string.
Variable cases : string -> string -> option (assignment R).
Variable os : OS.
Variable fs : FS.

Local Abbreviation field := (readField cases os).
Local Abbreviation fields := (readFields cases os).
Local Abbreviation cpu := (readCPU subsystem cases os fs).
Local Abbreviation cpus := (readCPUs subsystem cases os fs).
Local Abbreviation pathOf := (cpuPath subsystem fs).
Local Abbreviation parser := (fanOut zero subsystem cases os fs).

(** *** The body of the inner loop, case by case *)

Lemma readField_unreadable cpuNum path fileDir slice log err :
  ReadFile os (path +:+ "/" +:+ Name fileDir) = inl err ->
  field cpuNum path fileDir slice log
  = (Done (Return (slice, Some (cannotAccess (path +:+ "/" +:+ Name fileDir) err))), log).
Proof. intros H. unfold readField. rewrite H. reflexivity. Qed.

Lemma readField_ignored cpuNum path fileDir slice log contents :
  ReadFile os (path +:+ "/" +:+ Name fileDir) = inr contents ->
  cases (Name fileDir) (TrimSpace contents) = None ->
  field cpuNum path fileDir slice log = (Done (Next slice), log).
Proof. intros H1 H2. unfold readField. rewrite H1, H2. reflexivity. Qed.

Lemma readField_write cpuNum path fileDir slice log contents assign r :
  ReadFile os (path +:+ "/" +:+ Name fileDir) = inr contents ->
  cases (Name fileDir) (TrimSpace contents) = Some assign ->
  0 <= cpuNum -> slice !! Z.to_nat cpuNum = Some r ->
  field cpuNum path fileDir slice log
  = (Done (Next (<[Z.to_nat cpuNum := (assign r).1]> slice)),
     log ++ option_list (assign r).2).
Proof.
  intros H1 H2 H0 Hr. unfold readField. rewrite H1, H2.
  unfold bind, index. destruct (Z.ltb_spec cpuNum 0); [lia|].
  rewrite Hr. simpl. destruct (assign r) as [r' [e|]]; simpl; [reflexivity|].
  rewrite app_nil_r. reflexivity.
Qed.

Lemma readField_out_of_range cpuNum path fileDir slice log contents assign :
  ReadFile os (path +:+ "/" +:+ Name fileDir) = inr contents ->
  cases (Name fileDir) (TrimSpace contents) = Some assign ->
  cpuNum < 0 \/ Z.of_nat (length slice) <= cpuNum ->
  field cpuNum path fileDir slice log
  = (Panic (IndexOutOfRange cpuNum (length slice)), log).
Proof.
  intros H1 H2 H0. unfold readField. rewrite H1, H2.
  unfold bind, index. destruct (Z.ltb_spec cpuNum 0); [reflexivity|].
  rewrite (lookup_ge_None_2 slice (Z.to_nat cpuNum)) by lia. reflexivity.
Qed.

(** *** The loops, piece by piece *)

Lemma fields_app cpuNum path pre : forall post slice log,
  fields cpuNum path (pre ++ post) slice log
  = match fields cpuNum path pre slice log with
    | (Done (Next s1), l1) => fields cpuNum path post s1 l1
    | other => other
    end.
Proof.
  induction pre as [|f pre IH]; intros post slice log; simpl; [reflexivity|].
  unfold bind.
  destruct (field cpuNum path f slice log) as [[[s1|r]| |] l1]; try reflexivity.
  apply IH.
Qed.

Lemma cpus_app pre : forall post slice log,
  cpus (pre ++ post) slice log
  = match cpus pre slice log with
    | (Done (Next s1), l1) => cpus post s1 l1
    | other => other
    end.
Proof.
  induction pre as [|n pre IH]; intros post slice log; simpl; [reflexivity|].
  unfold bind.
  destruct (cpu n slice log) as [[[s1|r]| |] l1]; try reflexivity.
  apply IH.
Qed.

(** *** What every run keeps *)

Section Kept.
Variable Q : list R -> list R -> Prop.
Hypothesis Q_refl : forall s, Q s s.
Hypothesis Q_trans : forall a b c, Q a b -> Q b c -> Q a c.

Lemma fields_keep cpuNum path files :
  (forall fileDir, In fileDir files -> forall s log f log',
     field cpuNum path fileDir s log = (Done f, log') -> Q s (sliceOf f)) ->
  forall s log f log',
    fields cpuNum path files s log = (Done f, log') -> Q s (sliceOf f).
Proof.
  induction files as [|fd files IH]; simpl; intros Hstep s log f log' H.
  - inversion H; subst. apply Q_refl.
  - unfold bind in H.
    destruct (field cpuNum path fd s log) as [[[s1|r1]| |] l1] eqn:E;
      try discriminate.
    + apply (Q_trans _ s1).
      * apply (Hstep fd (or_introl eq_refl) _ _ _ _ E).
      * apply (IH (fun g Hg => Hstep g (or_intror Hg)) _ _ _ _ H).
    + inversion H; subst. apply (Hstep fd (or_introl eq_refl) _ _ _ _ E).
Qed.

Lemma cpu_keep cpuNum :
  (forall fileDir s log f log',
     field cpuNum (pathOf cpuNum) fileDir s log = (Done f, log') ->
     Q s (sliceOf f)) ->
  forall s log f log', cpu cpuNum s log = (Done f, log') -> Q s (sliceOf f).
Proof.
  intros Hstep s log f log'. unfold readCPU.
  destruct (ReadDir os (pathOf cpuNum)) as [e|files].
  - intros H. inversion H; subst. apply Q_refl.
  - apply fields_keep. intros fd _. apply Hstep.
Qed.

Lemma cpus_keep online :
  (forall cpuNum, In cpuNum online -> forall s log f log',
     cpu cpuNum s log = (Done f, log') -> Q s (sliceOf f)) ->
  forall s log f log', cpus online s log = (Done f, log') -> Q s (sliceOf f).
Proof.
  induction online as [|n online IH]; simpl; intros Hstep s log f log' H.
  - inversion H; subst. apply Q_refl.
  - unfold bind in H.
    destruct (cpu n s log) as [[[s1|r1]| |] l1] eqn:E; try discriminate.
    + apply (Q_trans _ s1).
      * apply (Hstep n (or_introl eq_refl) _ _ _ _ E).
      * apply (IH (fun m Hm => Hstep m (or_intror Hm)) _ _ _ _ H).
    + inversion H; subst. apply (Hstep n (or_introl eq_refl) _ _ _ _ E).
Qed.
End Kept.

(** Whatever the body does, it writes one slot at most, the slot of
    index [cpuNum], with what the case of the file's name assigns. *)
Lemma field_cases cpuNum path fileDir s log f log' :
  field cpuNum path fileDir s log = (Done f, log') ->
  sliceOf f = s
  \/ exists contents assign r,
       ReadFile os (path +:+ "/" +:+ Name fileDir) = inr contents
       /\ cases (Name fileDir) (TrimSpace contents) = Some assign
       /\ 0 <= cpuNum /\ s !! Z.to_nat cpuNum = Some r
       /\ f = Next (<[Z.to_nat cpuNum := (assign r).1]> s).
Proof.
  unfold readField.
  destruct (ReadFile os _) as [e|contents] eqn:Hread.
  { intros H. inversion H; subst. left. reflexivity. }
  destruct (cases _ _) as [assign|] eqn:Hcase.
  2: { intros H. inversion H; subst. left. reflexivity. }
  unfold bind, index. destruct (Z.ltb_spec cpuNum 0); [discriminate|].
  destruct (s !! Z.to_nat cpuNum) as [r|] eqn:Hr; [|discriminate].
  intros Hrun. right. exists contents, assign, r.
  repeat split; try assumption.
  simpl in Hrun. destruct (assign r) as [r' [e|]]; simpl in *;
    inversion Hrun; reflexivity.
Qed.

Lemma field_length cpuNum path fileDir s log f log' :
  field cpuNum path fileDir s log = (Done f, log') ->
  length (sliceOf f) = length s.
Proof.
  intros H.
  destruct (field_cases _ _ _ _ _ _ _ H) as [->|(c & a & r & _ & _ & _ & _ & ->)];
    [reflexivity|]. simpl. apply length_insert.
Qed.

Lemma field_other (i : nat) cpuNum path fileDir s log f log' :
  Z.of_nat i <> cpuNum ->
  field cpuNum path fileDir s log = (Done f, log') ->
  sliceOf f !! i = s !! i.
Proof.
  intros Hi H.
  destruct (field_cases _ _ _ _ _ _ _ H) as [->|(c & a & r & _ & _ & Hn & _ & ->)];
    [reflexivity|]. simpl. apply list_lookup_insert_ne. lia.
Qed.

Lemma cpus_length online s log f log' :
  cpus online s log = (Done f, log') -> length (sliceOf f) = length s.
Proof.
  apply (cpus_keep (fun a b => length b = length a)); [reflexivity|congruence|].
  intros n _.
  apply (cpu_keep (fun a b => length b = length a)); [reflexivity|congruence|].
  intros fd. apply field_length.
Qed.

Lemma parser_length online log slice err log' :
  parser online log = (Done (slice, err), log') -> length slice = length online.
Proof.
  unfold fanOut, bind.
  destruct (cpus online _ log) as [[[s1|r1]| |] l1] eqn:E; try discriminate;
    apply cpus_length in E; rewrite length_replicate in E;
    intros H; inversion H; subst; exact E.
Qed.

(** A slot is not touched by the CPUs of another number, nor by those
    whose directory cannot be listed. *)
Lemma cpus_untouched (i : nat) online s log f log' :
  (forall cpuNum, In cpuNum online -> cpuNum = Z.of_nat i ->
     exists e, ReadDir os (pathOf cpuNum) = inl e) ->
  cpus online s log = (Done f, log') -> sliceOf f !! i = s !! i.
Proof.
  intros Hdir.
  apply (cpus_keep (fun a b => b !! i = a !! i)); [reflexivity|congruence|].
  intros n Hn. destruct (Z.eq_dec n (Z.of_nat i)) as [Heq|Hne].
  - destruct (Hdir n Hn Heq) as [e He].
    intros s0 log0 f0 log0'. unfold readCPU. rewrite He.
    intros H. inversion H; subst. reflexivity.
  - apply (cpu_keep (fun a b => b !! i = a !! i)); [reflexivity|congruence|].
    intros fd s0 log0 f0 log0'. apply field_other. congruence.
Qed.

(** *** Runs in which nothing is fatal *)

Lemma fields_total cpuNum path files :
  (forall fileDir, In fileDir files ->
     exists contents, ReadFile os (path +:+ "/" +:+ Name fileDir) = inr contents) ->
  forall s log, 0 <= cpuNum < Z.of_nat (length s) ->
  exists s' log', fields cpuNum path files s log = (Done (Next s'), log')
                  /\ length s' = length s.
Proof.
  induction files as [|fd files IH]; simpl; intros Hread s log Hn.
  - exists s, log. split; reflexivity.
  - destruct (Hread fd (or_introl eq_refl)) as [contents Hc].
    assert (Hstep : exists s1 l1,
      field cpuNum path fd s log = (Done (Next s1), l1) /\ length s1 = length s).
    { destruct (cases (Name fd) (TrimSpace contents)) as [assign|] eqn:Hcase.
      - destruct (lookup_lt_is_Some_2 s (Z.to_nat cpuNum) ltac:(lia)) as [r Hr].
        eexists _, _. split.
        + apply (readField_write _ _ _ _ _ _ _ _ Hc Hcase (proj1 Hn) Hr).
        + apply length_insert.
      - eexists _, _. split; [apply (readField_ignored _ _ _ _ _ _ Hc Hcase)|].
        reflexivity. }
    destruct Hstep as (s1 & l1 & E & Hlen). unfold bind. rewrite E.
    destruct (IH (fun g Hg => Hread g (or_intror Hg)) s1 l1 ltac:(lia))
      as (s' & log' & E' & Hlen').
    exists s', log'. split; [exact E'|congruence].
Qed.

Lemma cpus_total online :
  forall s log,
  (forall cpuNum files, In cpuNum online ->
     ReadDir os (pathOf cpuNum) = inr files ->
     0 <= cpuNum < Z.of_nat (length s)
     /\ forall fileDir, In fileDir files ->
          exists contents,
            ReadFile os (pathOf cpuNum +:+ "/" +:+ Name fileDir) = inr contents) ->
  exists s' log', cpus online s log = (Done (Next s'), log')
                  /\ length s' = length s.
Proof.
  induction online as [|n online IH]; simpl; intros s log Hok.
  - exists s, log. split; reflexivity.
  - assert (Hstep : exists s1 l1,
      cpu n s log = (Done (Next s1), l1) /\ length s1 = length s).
    { unfold readCPU. destruct (ReadDir os (pathOf n)) as [e|files] eqn:Hdir.
      - exists s, log. split; reflexivity.
      - destruct (Hok n files (or_introl eq_refl) Hdir) as [Hn Hread].
        apply fields_total; assumption. }
    destruct Hstep as (s1 & l1 & E & Hlen). unfold bind. rewrite E.
    destruct (IH s1 l1) as (s' & log' & E' & Hlen').
    { intros m files Hm Hdir. rewrite Hlen. apply Hok; [right|]; assumption. }
    exists s', log'. split; [exact E'|congruence].
Qed.

Lemma parser_total online log :
  (forall cpuNum files, In cpuNum online ->
     ReadDir os (pathOf cpuNum) = inr files ->
     0 <= cpuNum < Z.of_nat (length online)
     /\ forall fileDir, In fileDir files ->
          exists contents,
            ReadFile os (pathOf cpuNum +:+ "/" +:+ Name fileDir) = inr contents) ->
  exists slice log', parser online log = (Done (slice, None), log')
                     /\ length slice = length online.
Proof.
  intros Hok.
  destruct (cpus_total online (replicate (length online) zero) log)
    as (s' & log' & E & Hlen).
  { rewrite length_replicate. exact Hok. }
  exists s', log'. unfold fanOut, bind. rewrite E.
  rewrite length_replicate in Hlen. split; [reflexivity|exact Hlen].
Qed.

(** *** The log is only written *)

Lemma steady_field cpuNum path fileDir slice :
  steady (field cpuNum path fileDir slice).
Proof. unfold readField. repeat steady_step. Qed.

Lemma steady_fields cpuNum path files :
  forall slice, steady (fields cpuNum path files slice).
Proof.
  induction files as [|fd files IH]; intros slice; simpl.
  - apply steady_ret.
  - apply steady_bind; [apply steady_field|].
    intros [s|r]; [apply IH|apply steady_ret].
Qed.

Lemma steady_cpu cpuNum slice : steady (cpu cpuNum slice).
Proof.
  unfold readCPU. destruct (ReadDir os _); [apply steady_ret|apply steady_fields].
Qed.

Lemma steady_cpus online : forall slice, steady (cpus online slice).
Proof.
  induction online as [|n online IH]; intros slice; simpl.
  - apply steady_ret.
  - apply steady_bind; [apply steady_cpu|].
    intros [s|r]; [apply IH|apply steady_ret].
Qed.

Lemma steady_parser online : steady (parser online).
Proof.
  unfold fanOut. apply steady_bind; [apply steady_cpus|].
  intros [s|r]; apply steady_ret.
Qed.

(** *** A directory that cannot be listed *)

Lemma cpu_skipped cpuNum e slice log :
  ReadDir os (pathOf cpuNum) = inl e ->
  cpu cpuNum slice log = (Done (Next slice), log).
Proof. intros H. unfold readCPU. rewrite H. reflexivity. Qed.

Lemma parser_slot_zero online log cpuNum e slice err log' :
  0 <= cpuNum < Z.of_nat (length online) ->
  ReadDir os (pathOf cpuNum) = inl e ->
  parser online log = (Done (slice, err), log') ->
  slice !! Z.to_nat cpuNum = Some zero.
Proof.
  intros Hn Hdir. unfold fanOut, bind.
  destruct (cpus online _ log) as [[f| |] l1] eqn:E; try discriminate.
  apply (cpus_untouched (Z.to_nat cpuNum)) in E.
  - rewrite lookup_replicate_2 in E by lia.
    destruct f as [s1|[s1 e1]]; intros H; inversion H; subst; exact E.
  - intros m _ Hm. exists e. rewrite Hm, Z2Nat.id by lia. exact Hdir.
Qed.

(** *** A file that cannot be read *)

Lemma parser_abort pre cpuNum post fpre fileDir fpost err log s1 l1 s2 l2 :
  cpus pre (replicate (length (pre ++ cpuNum :: post)) zero) log
    = (Done (Next s1), l1) ->
  ReadDir os (pathOf cpuNum) = inr (fpre ++ fileDir :: fpost) ->
  fields cpuNum (pathOf cpuNum) fpre s1 l1 = (Done (Next s2), l2) ->
  ReadFile os (pathOf cpuNum +:+ "/" +:+ Name fileDir) = inl err ->
  parser (pre ++ cpuNum :: post) log
  = (Done (s2, Some (cannotAccess (pathOf cpuNum +:+ "/" +:+ Name fileDir) err)), l2).
Proof.
  intros Hpre Hdir Hfpre Hread. unfold fanOut, bind.
  rewrite cpus_app, Hpre. simpl. unfold bind, readCPU. rewrite Hdir.
  rewrite fields_app, Hfpre. simpl. unfold bind.
  rewrite (readField_unreadable _ _ _ _ _ _ Hread). reflexivity.
Qed.

(** *** A write out of the slice *)

Lemma parser_panic pre cpuNum post fpre fileDir fpost contents assign log s1 l1 s2 l2 :
  cpus pre (replicate (length (pre ++ cpuNum :: post)) zero) log
    = (Done (Next s1), l1) ->
  ReadDir os (pathOf cpuNum) = inr (fpre ++ fileDir :: fpost) ->
  fields cpuNum (pathOf cpuNum) fpre s1 l1 = (Done (Next s2), l2) ->
  ReadFile os (pathOf cpuNum +:+ "/" +:+ Name fileDir) = inr contents ->
  cases (Name fileDir) (TrimSpace contents) = Some assign ->
  cpuNum < 0 \/ Z.of_nat (length (pre ++ cpuNum :: post)) <= cpuNum ->
  parser (pre ++ cpuNum :: post) log
  = (Panic (IndexOutOfRange cpuNum (length (pre ++ cpuNum :: post))), l2).
Proof.
  intros Hpre Hdir Hfpre Hread Hcase Hout. unfold fanOut, bind.
  rewrite cpus_app, Hpre. simpl. unfold bind, readCPU. rewrite Hdir.
  rewrite fields_app, Hfpre. simpl. unfold bind.
  assert (Hlen : length s2 = length (pre ++ cpuNum :: post)).
  { apply cpus_length in Hpre. rewrite length_replicate in Hpre. simpl in Hpre.
    apply (fields_keep (fun a b => length b = length a)) in Hfpre;
      [simpl in Hfpre; congruence|reflexivity|congruence|].
    intros fd _. apply field_length. }
  rewrite (readField_out_of_range _ _ _ _ _ _ _ Hread Hcase) by (rewrite Hlen; exact Hout).
  rewrite Hlen. reflexivity.
Qed.
(** *** The value of a numeric field *)

Section Field.
Variable label : string.
Variable get : R -> Z.
Variable set : Z -> R -> R.
Hypothesis Hfield : numericField cases label get set.
Variable cpuNum : Z.
Hypothesis Hnonneg : 0 <= cpuNum.
Variable contents : string.
Hypothesis Hcontents :
  ReadFile os (pathOf cpuNum +:+ "/" +:+ label) = inr contents.

Lemma field_sets_value fileDir s log f log' :
  Name fileDir = label ->
  field cpuNum (pathOf cpuNum) fileDir s log = (Done f, log') ->
  slotHas get (Z.to_nat cpuNum) (ParseInt (TrimSpace contents)).1 (sliceOf f)
  /\ log' = log ++ option_list (ParseInt (TrimSpace contents)).2.
Proof.
  intros Hname. destruct Hfield as (Hcase & Hget & _).
  unfold readField. rewrite Hname, Hcontents, Hcase.
  unfold bind, index. destruct (Z.ltb_spec cpuNum 0); [discriminate|].
  destruct (s !! Z.to_nat cpuNum) as [r|] eqn:Hr; [|discriminate].
  apply lookup_lt_Some in Hr. simpl. unfold parsed.
  destruct (ParseInt (TrimSpace contents)) as [v [e|]]; simpl;
    intros Hrun; inversion Hrun; subst; simpl; (split;
      [exists (set v r); split; [apply list_lookup_insert_eq; exact Hr|apply Hget]
      |try reflexivity; rewrite app_nil_r; reflexivity]).
Qed.

Lemma field_keeps_value v other path fileDir s log f log' :
  (other = cpuNum -> path = pathOf cpuNum) ->
  v = (ParseInt (TrimSpace contents)).1 ->
  field other path fileDir s log = (Done f, log') ->
  slotHas get (Z.to_nat cpuNum) v s -> slotHas get (Z.to_nat cpuNum) v (sliceOf f).
Proof.
  intros Hpath Hv Hrun (r0 & Hr0 & Hget0).
  destruct (field_cases _ _ _ _ _ _ _ Hrun)
    as [->|(c & assign & r & Hread & Hcase & Hn & Hr & ->)].
  { exists r0. split; assumption. }
  simpl. destruct (Z.eq_dec other cpuNum) as [->|Hne].
  - rewrite (Hpath eq_refl) in Hread.
    assert (r = r0) as -> by congruence.
    exists (assign r0).1. split; [apply list_lookup_insert_eq; eapply lookup_lt_Some; eauto|].
    destruct Hfield as (Hlabel & Hset & Hother).
    destruct (String.eqb_spec (Name fileDir) label) as [Heq|Hneq].
    + rewrite Heq in Hread, Hcase. rewrite Hcontents in Hread.
      injection Hread as <-. rewrite Hlabel in Hcase. injection Hcase as <-.
      unfold parsed. rewrite Hv.
      destruct (ParseInt (TrimSpace contents)); simpl. apply Hset.
    + rewrite (Hother _ _ _ r0 Hneq Hcase). exact Hget0.
  - exists r0. split; [|exact Hget0].
    rewrite list_lookup_insert_ne by lia. exact Hr0.
Qed.

Lemma cpus_field_value online files fileDir : forall s log s' log',
  In cpuNum online ->
  ReadDir os (pathOf cpuNum) = inr files ->
  In fileDir files -> Name fileDir = label ->
  cpus online s log = (Done (Next s'), log') ->
  slotHas get (Z.to_nat cpuNum) (ParseInt (TrimSpace contents)).1 s'
  /\ forall e, (ParseInt (TrimSpace contents)).2 = Some e -> In e log'.
Proof.
  intros s log s' log' Hin Hdir Hfile Hname Hrun.
  set (v := (ParseInt (TrimSpace contents)).1).
  set (Q := fun a b : list R =>
              slotHas get (Z.to_nat cpuNum) v a -> slotHas get (Z.to_nat cpuNum) v b).
  assert (Qrefl : forall a, Q a a) by (intros a; exact id).
  assert (Qtrans : forall a b c, Q a b -> Q b c -> Q a c) by (unfold Q; auto).
  assert (Hstep : forall other fd a l f l',
            field other (pathOf other) fd a l = (Done f, l') -> Q a (sliceOf f)).
  { intros other fd a l f l' H. unfold Q.
    apply (field_keeps_value v other (pathOf other) fd a l f l');
      [intros ->; reflexivity|reflexivity|exact H]. }
  apply in_split in Hin as (pre & post & ->).
  apply in_split in Hfile as (fpre & fpost & ->).
  rewrite cpus_app in Hrun.
  destruct (cpus pre s log) as [[[s1|r1]| |] l1] eqn:Epre; try discriminate.
  simpl in Hrun. unfold bind in Hrun.
  destruct (cpu cpuNum s1 l1) as [[[s2|r2]| |] l2] eqn:Ecpu; try discriminate.
  unfold readCPU in Ecpu. rewrite Hdir, fields_app in Ecpu.
  destruct (fields cpuNum (pathOf cpuNum) fpre s1 l1) as [[[t1|q1]| |] m1] eqn:Efpre;
    try discriminate.
  simpl in Ecpu. unfold bind in Ecpu.
  destruct (field cpuNum (pathOf cpuNum) fileDir t1 m1) as [[[t2|q2]| |] m2] eqn:Efile;
    try discriminate.
  destruct (field_sets_value _ _ _ _ _ Hname Efile) as [Hval Hlog].
  simpl in Hval.
  assert (Hs2 : slotHas get (Z.to_nat cpuNum) v s2).
  { apply (fields_keep Q Qrefl Qtrans cpuNum (pathOf cpuNum) fpost
             (fun fd _ => Hstep cpuNum fd) _ _ _ _ Ecpu). exact Hval. }
  split.
  - apply (cpus_keep Q Qrefl Qtrans post
             (fun other _ => cpu_keep Q Qrefl Qtrans other (Hstep other))
             _ _ _ _ Hrun). exact Hs2.
  - intros e He. rewrite He in Hlog. simpl in Hlog.
    destruct (steady_extends _ _ _ _ (steady_fields cpuNum (pathOf cpuNum) fpost t2) Ecpu)
      as [w1 ->].
    destruct (steady_extends _ _ _ _ (steady_cpus post s2) Hrun) as [w2 ->].
    rewrite Hlog. rewrite !in_app_iff. left. left. right. left. reflexivity.
Qed.
End Field.
End FanOutFacts.

(** ** The claims on the per-CPU parsers

    [parseCPUFreq], [parseCPUTopology] and [parseCPUThermalThrottle] are
    [fanOut] at their zero record, their directory and their switch;
    what is proved of [fanOut] whatever these are holds of the three. *)

(** C1. The slice a per-CPU parser returns has the length of [online];
    the write for the file of a CPU goes to the slot whose index is the
    number of the CPU, and panics when that number is not an index of
    the slice; so a run that comes to such a write for a CPU number
    outside [0 .. len(online) - 1] panics with that index out of range. *)
Theorem fanOut_indexed_by_cpu_number {R : Type} (zero : R) (subsystem : string)
    (cases : string -> string -> option (assignment R)) (os : OS) (fs : FS)
    (online : list Z) (log : Log) :
  (forall slice err log',
     fanOut zero subsystem cases os fs online log = (Done (slice, err), log') ->
     length slice = length online)
  /\ (forall cpuNum path fileDir slice log0 contents assign,
        ReadFile os (path +:+ "/" +:+ Name fileDir) = inr contents ->
        cases (Name fileDir) (TrimSpace contents) = Some assign ->
        (forall r, 0 <= cpuNum -> slice !! Z.to_nat cpuNum = Some r ->
           readField cases os cpuNum path fileDir slice log0
           = (Done (Next (<[Z.to_nat cpuNum := (assign r).1]> slice)),
              log0 ++ option_list (assign r).2))
        /\ (cpuNum < 0 \/ Z.of_nat (length slice) <= cpuNum ->
            readField cases os cpuNum path fileDir slice log0
            = (Panic (IndexOutOfRange cpuNum (length slice)), log0)))
  /\ (forall pre cpuNum post fpre fileDir fpost contents assign s1 l1 s2 l2,
        online = pre ++ cpuNum :: post ->
        readCPUs subsystem cases os fs pre (replicate (length online) zero) log
          = (Done (Next s1), l1) ->
        ReadDir os (cpuPath subsystem fs cpuNum) = inr (fpre ++ fileDir :: fpost) ->
        readFields cases os cpuNum (cpuPath subsystem fs cpuNum) fpre s1 l1
          = (Done (Next s2), l2) ->
        ReadFile os (cpuPath subsystem fs cpuNum +:+ "/" +:+ Name fileDir)
          = inr contents ->
        cases (Name fileDir) (TrimSpace contents) = Some assign ->
        cpuNum < 0 \/ Z.of_nat (length online) <= cpuNum ->
        fanOut zero subsystem cases os fs online log
        = (Panic (IndexOutOfRange cpuNum (length online)), l2)).
Proof.
  split; [|split].
  - intros slice err log'. apply parser_length.
  - intros cpuNum path fileDir slice log0 contents assign Hread Hcase. split.
    + intros r. eapply readField_write; eassumption.
    + eapply readField_out_of_range; eassumption.
  - intros pre cpuNum post fpre fileDir fpost contents assign s1 l1 s2 l2 ->.
    apply parser_panic.
Qed.

(** The value 89 in a list of 24: the write for CPU 89 is out of range. *)
Lemma fanOut_indexed_by_cpu_number_witness :
  parseCPUThermalThrottle fixture sys online24 []
  = (Panic (IndexOutOfRange 89 24),
     [NumError "ParseInt" "9223372036854775808" ErrRange]).
Proof.
  pose (s := <[3%nat := mkCPUThermalThrottle MaxInt64 0]>
               (<[1%nat := mkCPUThermalThrottle 30 45]>
                  (replicate 24 zeroCPUThermalThrottle))).
  refine (proj2 (proj2 (fanOut_indexed_by_cpu_number zeroCPUThermalThrottle
    "thermal_throttle" thermalThrottleCases fixture sys online24 []))
    (seqZ 0 23) 89 [] [] (file "core_throttle_count") [] "7
" (parsed setCoreThrottleCount "7") s _ s _ _ _ _ _ _ _ _);
    try reflexivity.
  right. vm_compute. congruence.
Defined.

(** C6. An online CPU whose [thermal_throttle] directory cannot be
    listed is passed over: no write, no error, no log entry. Its slot,
    when its number is an index of the slice, holds two zero counters in
    whatever the parser returns; and the parser returns no error when
    the other CPUs give no cause for one, that is when the number of
    each CPU whose directory is listed is an index of the slice and the
    files listed there can be read. *)
Theorem parseCPUThermalThrottle_missing_directory (os : OS) (fs : FS)
    (online : list Z) (log : Log) (cpuNum : Z) (e : string) :
  In cpuNum online ->
  0 <= cpuNum < Z.of_nat (length online) ->
  ReadDir os (cpuPath "thermal_throttle" fs cpuNum) = inl e ->
  (forall slice log0,
     readCPU "thermal_throttle" thermalThrottleCases os fs cpuNum slice log0
     = (Done (Next slice), log0))
  /\ (forall slice err log',
        parseCPUThermalThrottle os fs online log = (Done (slice, err), log') ->
        slice !! Z.to_nat cpuNum = Some (mkCPUThermalThrottle 0 0))
  /\ ((forall other files, In other online ->
         ReadDir os (cpuPath "thermal_throttle" fs other) = inr files ->
         0 <= other < Z.of_nat (length online)
         /\ forall fileDir, In fileDir files ->
              exists contents,
                ReadFile os (cpuPath "thermal_throttle" fs other +:+ "/" +:+ Name fileDir)
                = inr contents) ->
      exists slice log',
        parseCPUThermalThrottle os fs online log = (Done (slice, None), log')
        /\ length slice = length online
        /\ slice !! Z.to_nat cpuNum = Some (mkCPUThermalThrottle 0 0)).
Proof.
  intros Hin Hn Hdir. split; [|split].
  - intros slice log0. apply (cpu_skipped _ _ _ _ _ e). exact Hdir.
  - intros slice err log'. apply (parser_slot_zero _ _ _ _ _ _ _ _ e); assumption.
  - intros Hok.
    destruct (parser_total zeroCPUThermalThrottle "thermal_throttle"
                thermalThrottleCases os fs online log Hok) as (slice & log' & E & Hlen).
    exists slice, log'. repeat split; try assumption.
    apply (parser_slot_zero _ _ _ _ _ _ _ _ e _ _ _ Hn Hdir E).
Qed.

Lemma parseCPUThermalThrottle_missing_directory_witness :
  exists slice log',
    parseCPUThermalThrottle fixture sys [0; 1] [] = (Done (slice, None), log')
    /\ length slice = 2%nat
    /\ slice !! 0%nat = Some (mkCPUThermalThrottle 0 0).
Proof.
  assert (Hin : In 0 [0; 1]) by (left; reflexivity).
  assert (Hn : 0 <= 0 < Z.of_nat (length [0; 1])) by (simpl; lia).
  apply (proj2 (proj2 (parseCPUThermalThrottle_missing_directory fixture sys
                         [0; 1] [] 0 _ Hin Hn eq_refl))).
  intros other files [<-|[<-|[]]] Hdir; vm_compute in Hdir; [discriminate|].
  injection Hdir as <-. split; [simpl; lia|].
  intros fileDir [<-|[<-|[]]]; eexists; reflexivity.
Defined.

(** C8. When the CPUs before [cpuNum] and the files before [fileDir] in
    the directory of [cpuNum] are read without a fatal failure, and
    [fileDir] cannot be read, the parser returns at once: the error is
    [cannot access <path of the file>, <error of the read>], and the
    slice and the log are as they stand at that point, whatever CPUs and
    files follow. *)
Theorem fanOut_aborts_on_unreadable_file {R : Type} (zero : R) (subsystem : string)
    (cases : string -> string -> option (assignment R)) (os : OS) (fs : FS)
    (pre : list Z) (cpuNum : Z) (post : list Z)
    (fpre : list FileInfo) (fileDir : FileInfo) (fpost : list FileInfo)
    (err : string) (log : Log) (s1 : list R) (l1 : Log) (s2 : list R) (l2 : Log) :
  readCPUs subsystem cases os fs pre
    (replicate (length (pre ++ cpuNum :: post)) zero) log = (Done (Next s1), l1) ->
  ReadDir os (cpuPath subsystem fs cpuNum) = inr (fpre ++ fileDir :: fpost) ->
  readFields cases os cpuNum (cpuPath subsystem fs cpuNum) fpre s1 l1
    = (Done (Next s2), l2) ->
  ReadFile os (cpuPath subsystem fs cpuNum +:+ "/" +:+ Name fileDir) = inl err ->
  fanOut zero subsystem cases os fs (pre ++ cpuNum :: post) log
  = (Done (s2, Some (errorString
             ("cannot access "
              +:+ (cpuPath subsystem fs cpuNum +:+ "/" +:+ Name fileDir)
              +:+ ", " +:+ err))), l2).
Proof. apply parser_abort. Qed.

Lemma fanOut_aborts_on_unreadable_file_witness :
  parseCPUTopology fixture sys [0; 2; 1] []
  = (Done ([mkCPUTopology 0 "" "0-23,48-71" 0 "" "";
            zeroCPUTopology;
            mkCPUTopology 2 "" "" 0 "" ""],
           Some (errorString
             "cannot access /sys/devices/system/cpu/cpu2/topology/core_siblings, open /sys/devices/system/cpu/cpu2/topology/core_siblings: no such file or directory")),
     []).
Proof.
  refine (fanOut_aborts_on_unreadable_file zeroCPUTopology "topology" topologyCases
    fixture sys [0] 2 [1] [file "core_id"] (file "core_siblings") [] _ []
    [mkCPUTopology 0 "" "0-23,48-71" 0 "" ""; zeroCPUTopology; zeroCPUTopology] []
    _ [] _ _ _ _); reflexivity.
Defined.

(** ** Zone information *)

Lemma scanLine_other line zoneInfo log :
  isNodeLine line = false -> scanLine line zoneInfo log = (Done zoneInfo, log).
Proof. unfold scanLine, isNodeLine. intros ->. reflexivity. Qed.

Lemma scanLine_node line zoneInfo log :
  isNodeLine line = true -> (4 <= length (Fields line))%nat ->
  scanLine line zoneInfo log = (Done (zoneInfo ++ [zoneRecord line]), log).
Proof.
  unfold scanLine, isNodeLine, zoneRecord. intros -> Hlen.
  destruct (Fields line) as [|p0 [|p1 [|p2 [|p3 rest]]]]; simpl in Hlen; try lia.
  reflexivity.
Qed.

Lemma scanLine_short line zoneInfo log :
  isNodeLine line = true -> (length (Fields line) < 4)%nat ->
  scanLine line zoneInfo log
  = (Panic (IndexOutOfRange (if (length (Fields line) <=? 1)%nat then 1 else 3)
              (length (Fields line))), log).
Proof.
  unfold scanLine, isNodeLine. intros -> Hlen.
  destruct (Fields line) as [|p0 [|p1 [|p2 [|p3 rest]]]]; simpl in Hlen; try lia;
    reflexivity.
Qed.

Lemma scanAll_records ls : forall zoneInfo log,
  Forall (fun line => isNodeLine line = true -> (4 <= length (Fields line))%nat) ls ->
  scanAll ls zoneInfo log
  = (Done (zoneInfo ++ map zoneRecord (List.filter isNodeLine ls)), log).
Proof.
  induction ls as [|line ls IH]; intros zoneInfo log Hls; simpl.
  - rewrite app_nil_r. reflexivity.
  - inversion Hls as [|? ? Hline Hrest]; subst. unfold bind.
    destruct (isNodeLine line) eqn:E.
    + rewrite scanLine_node by auto. rewrite IH by assumption.
      simpl. rewrite <- app_assoc. reflexivity.
    + rewrite scanLine_other by assumption. apply IH, Hrest.
Qed.

Lemma scanAll_app pre : forall post zoneInfo log,
  scanAll (pre ++ post) zoneInfo log
  = (z <- scanAll pre zoneInfo ;; scanAll post z) log.
Proof.
  induction pre as [|line pre IH]; intros post zoneInfo log; simpl; [reflexivity|].
  unfold bind.
  destruct (scanLine line zoneInfo log) as [[z| |] l]; try reflexivity.
  rewrite IH. reflexivity.
Qed.

(** C5. When every line that begins with [Node] has its four fields,
    [parseZoneInfo] returns one record for each such line, in the order
    of the lines, made of the second and the fourth field without their
    trailing commas; the other lines give no record; the error is the
    scanner's and nothing is logged. *)
Theorem parseZoneInfo_records (r : Reader) (log : Log) :
  Forall (fun line => isNodeLine line = true -> (4 <= length (Fields line))%nat)
    (lines r) ->
  parseZoneInfo r log
  = (Done (map zoneRecord (List.filter isNodeLine (lines r)), scanErr r), log).
Proof.
  intros H. unfold parseZoneInfo, bind.
  rewrite (scanAll_records _ [] log H). reflexivity.
Qed.

Lemma parseZoneInfo_records_witness :
  parseZoneInfo (mkReader zoneinfoLines None) []
  = (Done ([mkZoneInfo "0" "DMA"; mkZoneInfo "0" "DMA32"], None), []).
Proof.
  refine (parseZoneInfo_records (mkReader zoneinfoLines None) [] _).
  repeat constructor; vm_compute; (discriminate || (intros _; lia) || auto).
Defined.

(** C3 fails on the code. A line that begins with [Node] and has fewer
    than four fields, read after lines that have theirs, makes
    [parseZoneInfo] panic on [parts[1]] or on [parts[3]]: no error value
    is returned. *)
Theorem parseZoneInfo_short_line_panics (pre : list string) (line : string)
    (post : list string) (err : option error) (log : Log) :
  Forall (fun l => isNodeLine l = true -> (4 <= length (Fields l))%nat) pre ->
  isNodeLine line = true ->
  (length (Fields line) < 4)%nat ->
  parseZoneInfo (mkReader (pre ++ line :: post) err) log
  = (Panic (IndexOutOfRange (if (length (Fields line) <=? 1)%nat then 1 else 3)
              (length (Fields line))), log).
Proof.
  intros Hpre Hnode Hshort. unfold parseZoneInfo, bind. simpl.
  rewrite scanAll_app. unfold bind.
  rewrite (scanAll_records pre [] log Hpre). simpl. unfold bind.
  rewrite scanLine_short by assumption. reflexivity.
Qed.

Lemma parseZoneInfo_short_line_panics_witness :
  parseZoneInfo (mkReader ["Node 0, zone      DMA"; "Node 1, zone"] None) []
  = (Panic (IndexOutOfRange 3 3), []).
Proof.
  refine (parseZoneInfo_short_line_panics ["Node 0, zone      DMA"] "Node 1, zone"
            [] None [] _ _ _).
  - repeat constructor; try (intros _; vm_compute; lia).
  - reflexivity.
  - vm_compute. lia.
Defined.

(** ** The numeric fields of the three records *)

Ltac other_case r :=
  lazymatch goal with
  | |- Some _ = Some _ -> _ =>
      intros [= <-]; unfold parsed, stored; simpl;
      try match goal with |- context [ParseInt ?v] => destruct (ParseInt v) end;
      destruct r; reflexivity
  | |- None = Some _ -> _ => discriminate
  end.

Ltac numeric_field table :=
  split; [intros value; reflexivity|split; [intros v []; reflexivity|]];
  intros l value assign r Hne; unfold table;
  repeat (match goal with
          | |- context [String.eqb l ?x] => destruct (String.eqb_spec l x) as [->|_]
          end; cbv beta iota; [first [congruence | other_case r]|]);
  discriminate.

Lemma thermalThrottle_numeric_fields :
  numericField thermalThrottleCases "core_throttle_count"
    CoreThrottleCount setCoreThrottleCount
  /\ numericField thermalThrottleCases "package_throttle_count"
       PackageThrottleCount setPackageThrottleCount.
Proof. split; numeric_field thermalThrottleCases. Qed.

Lemma topology_numeric_fields :
  numericField topologyCases "core_id" CoreID setCoreID
  /\ numericField topologyCases "physical_package_id"
       PhysicalPackageID setPhysicalPackageID.
Proof. split; numeric_field topologyCases. Qed.

Lemma freq_numeric_fields :
  numericField freqCases "cpuinfo_cur_freq" CPUInfoCurFreq setCPUInfoCurFreq
  /\ numericField freqCases "cpuinfo_max_freq" CPUInfoMaxFreq setCPUInfoMaxFreq
  /\ numericField freqCases "cpuinfo_min_freq" CPUInfoMinFreq setCPUInfoMinFreq
  /\ numericField freqCases "cpuinfo_transition_latency"
       CPUInfoTransitionLatency setCPUInfoTransitionLatency
  /\ numericField freqCases "scaling_cur_freq" ScalingCurFreq setScalingCurFreq
  /\ numericField freqCases "scaling_max_freq" ScalingMaxFreq setScalingMaxFreq
  /\ numericField freqCases "scaling_min_freq" ScalingMinFreq setScalingMinFreq
  /\ numericField freqCases "scaling_setspeed" ScalingSetspeed setScalingSetspeed.
Proof.
  repeat match goal with |- numericField _ _ _ _ /\ _ => split end;
    numeric_field freqCases.
Qed.

(** C7, as amended. In a run of a per-CPU parser where the number of
    every CPU whose directory is listed is an index of the slice and
    the files listed can be read, a file of a numeric field whose
    trimmed contents [ParseInt] rejects does not stop the run: the
    parser returns no error and a slice of [len(online)] records, the
    error is in the log, and the field holds what [ParseInt] returned
    with the error, which is zero for a syntax error and the nearest
    bound of [int64] for a number out of range. *)
Theorem fanOut_conversion_failure {R : Type} (zero : R) (subsystem : string)
    (cases : string -> string -> option (assignment R)) (os : OS) (fs : FS)
    (label : string) (get : R -> Z) (set : Z -> R -> R)
    (online : list Z) (log : Log) (cpuNum : Z)
    (files : list FileInfo) (fileDir : FileInfo) (contents : string)
    (v : Z) (e : error) :
  numericField cases label get set ->
  (forall other listed, In other online ->
     ReadDir os (cpuPath subsystem fs other) = inr listed ->
     0 <= other < Z.of_nat (length online)
     /\ forall fd, In fd listed ->
          exists c, ReadFile os (cpuPath subsystem fs other +:+ "/" +:+ Name fd) = inr c) ->
  In cpuNum online ->
  ReadDir os (cpuPath subsystem fs cpuNum) = inr files ->
  In fileDir files -> Name fileDir = label ->
  ReadFile os (cpuPath subsystem fs cpuNum +:+ "/" +:+ label) = inr contents ->
  ParseInt (TrimSpace contents) = (v, Some e) ->
  exists slice log',
    fanOut zero subsystem cases os fs online log = (Done (slice, None), log')
    /\ length slice = length online
    /\ slotHas get (Z.to_nat cpuNum) v slice
    /\ In e log'
    /\ ((v = 0 /\ e = NumError "ParseInt" (TrimSpace contents) ErrSyntax)
        \/ ((v = MaxInt64 \/ v = MinInt64)
            /\ e = NumError "ParseInt" (TrimSpace contents) ErrRange)).
Proof.
  intros Hfield Hok Hin Hdir Hfile Hname Hread Hparse.
  destruct (cpus_total subsystem cases os fs online
              (replicate (length online) zero) log) as (slice & log' & E & Hlen).
  { rewrite length_replicate. exact Hok. }
  rewrite length_replicate in Hlen.
  destruct (Hok cpuNum files Hin Hdir) as [Hn _].
  destruct (cpus_field_value subsystem cases os fs label get set Hfield cpuNum
              (proj1 Hn) contents Hread online files fileDir _ _ _ _
              Hin Hdir Hfile Hname E) as [Hval Hlog].
  rewrite Hparse in Hval, Hlog. simpl in Hval, Hlog.
  exists slice, log'. unfold fanOut, bind. rewrite E.
  repeat split; try assumption.
  - apply Hlog. reflexivity.
  - apply ParseInt_failure, Hparse.
Qed.

(** [scaling_setspeed] of CPU 0 reads [<unsupported>]. *)
Lemma fanOut_conversion_failure_witness :
  exists slice log',
    parseCPUFreq fixture sys [0; 1] [] = (Done (slice, None), log')
    /\ length slice = 2%nat
    /\ slotHas ScalingSetspeed 0 0 slice
    /\ In (NumError "ParseInt" "<unsupported>" ErrSyntax) log'.
Proof.
  destruct (fanOut_conversion_failure zeroCPUFreq "cpufreq" freqCases fixture sys
    "scaling_setspeed" ScalingSetspeed setScalingSetspeed [0; 1] [] 0
    [file "cpuinfo_cur_freq"; file "scaling_driver"; file "scaling_setspeed"]
    (file "scaling_setspeed") "<unsupported>
" 0 (NumError "ParseInt" "<unsupported>" ErrSyntax))
    as (slice & log' & E & Hlen & Hval & Hlog & _); try reflexivity.
  - apply freq_numeric_fields.
  - intros other listed [<-|[<-|[]]] Hdir; vm_compute in Hdir; [|discriminate].
    injection Hdir as <-. split; [simpl; lia|].
    intros fd [<-|[<-|[<-|[]]]]; eexists; reflexivity.
  - left. reflexivity.
  - right. right. left. reflexivity.
  - exists slice, log'. repeat split; assumption.
Defined.

(** C7 as it is written fails for a number out of range: the count
    [9223372036854775808] of CPU 3 does not parse, and the field is
    left at the greatest [int64], not at zero. *)
Lemma parseCPUThermalThrottle_count_out_of_range :
  ParseInt (TrimSpace "9223372036854775808
")
  = (9223372036854775807, Some (NumError "ParseInt" "9223372036854775808" ErrRange))
  /\ parseCPUThermalThrottle fixture sys [0; 1; 2; 3] []
     = (Done ([mkCPUThermalThrottle 0 0; mkCPUThermalThrottle 30 45;
               mkCPUThermalThrottle 0 0;
               mkCPUThermalThrottle 9223372036854775807 0], None),
        [NumError "ParseInt" "9223372036854775808" ErrRange]).
Proof. split; reflexivity. Qed.

(** ** The CPU enumeration *)

Section GenericFacts.
Variable fuel : nat.
Variable os : OS.
Variable fs : FS.

Local Abbreviation entry := (readGeneric fuel os).
Local Abbreviation entries := (readGenerics fuel os).
Local Abbreviation root := (Path fs "devices/system/cpu").

Lemma steady_entry path fileDir c : steady (entry path fileDir c).
Proof. unfold readGeneric. repeat steady_step. Qed.

Lemma steady_entries path files : forall c, steady (entries path files c).
Proof.
  induction files as [|fd files IH]; intros c; simpl.
  - apply steady_ret.
  - apply steady_bind; [apply steady_entry|].
    intros [c'|r]; [apply IH|apply steady_ret].
Qed.

Lemma steady_parseCPUInfoGeneric : steady (parseCPUInfoGeneric fuel os fs).
Proof.
  unfold parseCPUInfoGeneric. destruct (ReadDir os _); [apply steady_ret|].
  apply steady_bind; [apply steady_entries|].
  intros [c|r]; apply steady_ret.
Qed.

Lemma steady_NewCPUInfo : steady (NewCPUInfo fuel os fs).
Proof.
  unfold NewCPUInfo.
  apply steady_bind; [apply steady_parseCPUInfoGeneric|]. intros [g [e|]]; simpl;
    [apply steady_ret|].
  apply steady_bind; [apply steady_parser|]. intros [f [e|]]; simpl;
    [apply steady_ret|].
  apply steady_bind; [apply steady_parser|]. intros [t [e|]]; simpl;
    [apply steady_ret|].
  apply steady_bind; [apply steady_parser|]. intros [h e]. apply steady_ret.
Qed.

Lemma entries_app path pre : forall post c log,
  entries path (pre ++ post) c log
  = match entries path pre c log with
    | (Done (Next c1), l1) => entries path post c1 l1
    | other => other
    end.
Proof.
  induction pre as [|fd pre IH]; intros post c log; simpl; [reflexivity|].
  unfold bind.
  destruct (entry path fd c log) as [[[c1|r]| |] l1]; try reflexivity.
  apply IH.
Qed.

(** *** An entry at a time *)

Lemma entry_directory path fileDir c log :
  IsDir fileDir = true -> entry path fileDir c log = (Done (Next c), log).
Proof. intros H. unfold readGeneric. rewrite H. reflexivity. Qed.

Lemma entry_kernel_max path fileDir c log contents :
  IsDir fileDir = false -> Name fileDir = "kernel_max" ->
  ReadFile os (path +:+ "/" +:+ "kernel_max") = inr contents ->
  entry path fileDir c log
  = (Done (Next (setKernelMax (ParseInt (TrimSpace contents)).1 c)),
     log ++ option_list (ParseInt (TrimSpace contents)).2).
Proof.
  intros Hdir Hname Hread. unfold readGeneric. rewrite Hdir, Hname, Hread. simpl.
  destruct (ParseInt (TrimSpace contents)) as [v [e|]]; simpl; [reflexivity|].
  unfold bind, ret. simpl. rewrite app_nil_r. reflexivity.
Qed.

(** With its file read, an entry returns no error; it goes on when it
    is not a range file, or when its range expands. *)
Lemma entry_next path fileDir c log contents :
  IsDir fileDir = false ->
  ReadFile os (path +:+ "/" +:+ Name fileDir) = inr contents ->
  (forall f log', entry path fileDir c log = (Done f, log') -> exists c', f = Next c')
  /\ ((isRangeFile (Name fileDir) = true -> expands fuel (TrimSpace contents)) ->
      exists c' log', entry path fileDir c log = (Done (Next c'), log')).
Proof.
  intros Hdir Hread. unfold readGeneric, isRangeFile. rewrite Hdir, Hread.
  destruct (String.eqb (Name fileDir) "kernel_max").
  { destruct (ParseInt _) as [v [e|]]; unfold bind; simpl; split;
      try (intros f log' [= <- <-]); eauto. }
  assert (Hrange : forall set : list Z -> CPUInfoGeneric -> CPUInfoGeneric,
    (forall f log',
       (v <- parseCPURange fuel (TrimSpace contents) ;; ret (Next (set v c))) log
       = (Done f, log') -> exists c' : CPUInfoGeneric,
           f = @Next _ (CPUInfoGeneric * option error) c')
    /\ (expands fuel (TrimSpace contents) ->
        exists c' log',
          (v <- parseCPURange fuel (TrimSpace contents) ;; ret (Next (set v c))) log
          = (Done (@Next _ (CPUInfoGeneric * option error) c'), log'))).
  { intros set. unfold bind. rewrite (steady_parseCPURange fuel _ log). split.
    - destruct (parseCPURange fuel _ []) as [[out| |] w]; simpl;
        intros f log' H; inversion H; eauto.
    - intros (out & w & ->). simpl. eauto. }
  destruct (String.eqb (Name fileDir) "offline"); simpl.
  { destruct (Hrange setOffline) as [H1 H2]. split; [exact H1|auto]. }
  destruct (String.eqb (Name fileDir) "online"); simpl.
  { destruct (Hrange setOnline) as [H1 H2]. split; [exact H1|auto]. }
  destruct (String.eqb (Name fileDir) "possible"); simpl.
  { destruct (Hrange setPossible) as [H1 H2]. split; [exact H1|auto]. }
  destruct (String.eqb (Name fileDir) "present"); simpl.
  { destruct (Hrange setPresent) as [H1 H2]. split; [exact H1|auto]. }
  split; [intros f log' [= <- <-]|]; eauto.
Qed.

(** No entry but [kernel_max] writes [KernelMax]. *)
Lemma entry_keeps_kernelMax path fileDir c log f log' contents :
  ReadFile os (path +:+ "/" +:+ "kernel_max") = inr contents ->
  entry path fileDir c log = (Done f, log') ->
  KernelMax c = (ParseInt (TrimSpace contents)).1 ->
  KernelMax (enumerationOf f) = (ParseInt (TrimSpace contents)).1.
Proof.
  intros Hmax. unfold readGeneric.
  destruct (IsDir fileDir). { intros [= <- <-]. exact id. }
  destruct (ReadFile os (path +:+ "/" +:+ Name fileDir)) as [e|contents'] eqn:Hread.
  { intros [= <- <-]. exact id. }
  destruct (String.eqb_spec (Name fileDir) "kernel_max") as [Hname|_].
  { rewrite Hname, Hmax in Hread. injection Hread as <-.
    destruct (ParseInt _) as [v [e|]]; unfold bind; simpl;
      intros [= <- <-]; reflexivity. }
  assert (Hrange : forall set : list Z -> CPUInfoGeneric -> CPUInfoGeneric,
    (forall out, KernelMax (set out c) = KernelMax c) ->
    (v <- parseCPURange fuel (TrimSpace contents') ;;
     ret (@Next _ (CPUInfoGeneric * option error) (set v c))) log = (Done f, log') ->
    KernelMax c = (ParseInt (TrimSpace contents)).1 ->
    KernelMax (enumerationOf f) = (ParseInt (TrimSpace contents)).1).
  { intros set Hset. unfold bind.
    destruct (parseCPURange fuel _ log) as [[out| |] w]; simpl;
      intros H; inversion H; subst. simpl. rewrite Hset. exact id. }
  destruct (String.eqb (Name fileDir) "offline"); [apply Hrange; reflexivity|].
  destruct (String.eqb (Name fileDir) "online"); [apply Hrange; reflexivity|].
  destruct (String.eqb (Name fileDir) "possible"); [apply Hrange; reflexivity|].
  destruct (String.eqb (Name fileDir) "present"); [apply Hrange; reflexivity|].
  intros [= <- <-]. exact id.
Qed.

(** *** The loop over the entries *)

Lemma entries_keep_kernelMax path contents files : forall c log f log',
  ReadFile os (path +:+ "/" +:+ "kernel_max") = inr contents ->
  entries path files c log = (Done f, log') ->
  KernelMax c = (ParseInt (TrimSpace contents)).1 ->
  KernelMax (enumerationOf f) = (ParseInt (TrimSpace contents)).1.
Proof.
  induction files as [|fd files IH]; simpl; intros c log f log' Hmax Hrun Hc.
  - inversion Hrun; subst. exact Hc.
  - unfold bind in Hrun.
    destruct (entry path fd c log) as [[f1| |] l1] eqn:E; try discriminate.
    pose proof (entry_keeps_kernelMax _ _ _ _ _ _ _ Hmax E Hc) as H1.
    destruct f1 as [c1|r1].
    + apply (IH _ _ _ _ Hmax Hrun H1).
    + inversion Hrun; subst. exact H1.
Qed.

Lemma entries_next path files : forall c log,
  (forall fd, In fd files -> IsDir fd = false ->
     exists contents, ReadFile os (path +:+ "/" +:+ Name fd) = inr contents) ->
  (forall f log', entries path files c log = (Done f, log') -> exists c', f = Next c')
  /\ ((forall fd contents, In fd files -> IsDir fd = false ->
         isRangeFile (Name fd) = true ->
         ReadFile os (path +:+ "/" +:+ Name fd) = inr contents ->
         expands fuel (TrimSpace contents)) ->
      exists c' log', entries path files c log = (Done (Next c'), log')).
Proof.
  induction files as [|fd files IH]; simpl; intros c log Hread.
  - split; [intros f log' [= <- <-]|]; eauto.
  - assert (Hstep :
      (forall f log', entry path fd c log = (Done f, log') -> exists c', f = Next c')
      /\ ((forall contents, IsDir fd = false -> isRangeFile (Name fd) = true ->
             ReadFile os (path +:+ "/" +:+ Name fd) = inr contents ->
             expands fuel (TrimSpace contents)) ->
          exists c' log', entry path fd c log = (Done (Next c'), log'))).
    { destruct (IsDir fd) eqn:Hdir.
      - rewrite entry_directory by assumption. split; [intros f log' [= <- <-]|]; eauto.
      - destruct (Hread fd (or_introl eq_refl) Hdir) as [contents Hc].
        destruct (entry_next path fd c log contents Hdir Hc) as [H1 H2].
        split; [exact H1|]. intros Hexp. apply H2. intros Hr. apply Hexp; auto. }
    destruct Hstep as [Hstep1 Hstep2]. unfold bind. split.
    + intros f log'.
      destruct (entry path fd c log) as [[f1| |] l1] eqn:E; try discriminate.
      destruct (Hstep1 _ _ eq_refl) as [c1 ->].
      apply (proj1 (IH c1 l1 (fun g Hg => Hread g (or_intror Hg)))).
    + intros Hexp.
      destruct Hstep2 as (c1 & l1 & ->).
      { intros contents. apply Hexp. left. reflexivity. }
      apply (proj2 (IH c1 l1 (fun g Hg => Hread g (or_intror Hg)))).
      intros g contents Hg. apply Hexp. right. exact Hg.
Qed.
End GenericFacts.

(** C4, as amended. When the CPU device root is listed, its files are
    read and [kernel_max] does not parse, [parseCPUInfoGeneric] returns
    no conversion failure: whatever it returns has a [nil] error, the
    failure is in the debug log, and [KernelMax] is what [ParseInt]
    returned with it; and it does return when the range files expand. *)
Theorem parseCPUInfoGeneric_conversion_failure (fuel : nat) (os : OS) (fs : FS)
    (files : list FileInfo) (log : Log) (contents : string) (v : Z) (e : error) :
  ReadDir os (Path fs "devices/system/cpu") = inr files ->
  (forall fd, In fd files -> IsDir fd = false ->
     exists c, ReadFile os (Path fs "devices/system/cpu" +:+ "/" +:+ Name fd) = inr c) ->
  In (file "kernel_max") files ->
  ReadFile os (Path fs "devices/system/cpu" +:+ "/" +:+ "kernel_max") = inr contents ->
  ParseInt (TrimSpace contents) = (v, Some e) ->
  (forall r err log',
     parseCPUInfoGeneric fuel os fs log = (Done (r, err), log') ->
     err = None /\ KernelMax r = v /\ In e log')
  /\ ((forall fd c, In fd files -> IsDir fd = false ->
         isRangeFile (Name fd) = true ->
         ReadFile os (Path fs "devices/system/cpu" +:+ "/" +:+ Name fd) = inr c ->
         expands fuel (TrimSpace c)) ->
      exists r log',
        parseCPUInfoGeneric fuel os fs log = (Done (r, None), log')
        /\ KernelMax r = v /\ In e log').
Proof.
  intros Hdir Hread Hin Hmax Hparse.
  set (root := Path fs "devices/system/cpu") in *.
  assert (Hloop : forall c' l,
    readGenerics fuel os root files zeroCPUInfoGeneric log = (Done (Next c'), l) ->
    KernelMax c' = v /\ In e l).
  { intros c' l E.
    apply in_split in Hin as (fpre & fpost & ->).
    rewrite entries_app in E.
    destruct (readGenerics fuel os root fpre zeroCPUInfoGeneric log)
      as [[[c1|r1]| |] l1]; try discriminate.
    simpl in E. unfold bind in E.
    rewrite (entry_kernel_max fuel os root (file "kernel_max") c1 l1 contents
               eq_refl eq_refl Hmax) in E.
    rewrite Hparse in E. simpl in E. split.
    - pose proof (entries_keep_kernelMax fuel os root contents fpost _ _ _ _ Hmax E)
        as H. rewrite Hparse in H. simpl in H. apply H. reflexivity.
    - destruct (steady_extends _ _ _ _ (steady_entries fuel os root fpost _) E)
        as [w ->].
      rewrite !in_app_iff. left. right. left. reflexivity. }
  destruct (entries_next fuel os root files zeroCPUInfoGeneric log Hread)
    as [Hnext Htotal].
  assert (Hpart : forall r err log',
    parseCPUInfoGeneric fuel os fs log = (Done (r, err), log') ->
    err = None /\ KernelMax r = v /\ In e log').
  { intros r err log'. unfold parseCPUInfoGeneric. fold root. rewrite Hdir.
    unfold bind.
    destruct (readGenerics fuel os root files zeroCPUInfoGeneric log)
      as [[f| |] l] eqn:E; try discriminate.
    destruct (Hnext _ _ eq_refl) as [c' ->].
    intros [= <- <- <-]. split; [reflexivity|]. apply (Hloop _ _ eq_refl). }
  split; [exact Hpart|].
  intros Hexp. destruct (Htotal Hexp) as (c' & l & E).
  assert (Hrun : parseCPUInfoGeneric fuel os fs log = (Done (c', None), l)).
  { unfold parseCPUInfoGeneric. fold root. rewrite Hdir. unfold bind. rewrite E.
    reflexivity. }
  exists c', l. split; [exact Hrun|]. apply (Hpart _ _ _ Hrun).
Qed.

Lemma parseCPUInfoGeneric_conversion_failure_witness :
  exists r log',
    parseCPUInfoGeneric 2 fixtureKernelMax sys [] = (Done (r, None), log')
    /\ KernelMax r = 0
    /\ In (NumError "ParseInt" "unlimited" ErrSyntax) log'.
Proof.
  apply (proj2 (parseCPUInfoGeneric_conversion_failure 2 fixtureKernelMax sys
    [dir "cpu0"; file "kernel_max"; file "online"] [] "unlimited
" 0 (NumError "ParseInt" "unlimited" ErrSyntax) eq_refl
    ltac:(intros fd [<-|[<-|[<-|[]]]] Hd; try discriminate Hd; eexists; reflexivity)
    ltac:(right; left; reflexivity) eq_refl eq_refl)).
  intros fd c [<-|[<-|[<-|[]]]] Hd Hr Hc; try discriminate.
  injection Hc as <-. eexists _, _. reflexivity.
Defined.

(** C4 as it is written fails: with [kernel_max] reading [unlimited]
    the conversion fails, and the error returned is [nil]; the failure
    goes to the log alone. *)
Lemma parseCPUInfoGeneric_kernel_max_not_a_number :
  ParseInt (TrimSpace "unlimited
") = (0, Some (NumError "ParseInt" "unlimited" ErrSyntax))
  /\ parseCPUInfoGeneric 2 fixtureKernelMax sys []
     = (Done (mkCPUInfoGeneric 0 [] [0; 1] [] [], None),
        [NumError "ParseInt" "unlimited" ErrSyntax]).
Proof. split; reflexivity. Qed.

(** C9. A call of [NewCPUInfo] only adds to the debug log and does not
    read it: the second of two calls in a row on the same file system,
    started on the log the first one left, comes to the same snapshot
    and the same error, and so does a call started on any other log. *)
Theorem NewCPUInfo_deterministic (fuel : nat) (os : OS) (fs : FS) (log : Log) :
  (NewCPUInfo fuel os fs (NewCPUInfo fuel os fs log).2).1
  = (NewCPUInfo fuel os fs log).1
  /\ forall log', (NewCPUInfo fuel os fs log').1 = (NewCPUInfo fuel os fs log).1.
Proof.
  assert (H : forall l, (NewCPUInfo fuel os fs l).1 = (NewCPUInfo fuel os fs []).1).
  { intros l. rewrite (steady_NewCPUInfo fuel os fs l). reflexivity. }
  split; [|intros log'].
  - rewrite H. symmetry. apply H.
  - rewrite (H log'). symmetry. apply H.
Qed.

(** * Further properties *)

(** ** Range expansion: the other inputs *)

Lemma Split_concat s t sep :
  Split (s +:+ String sep t) sep = Split s sep ++ Split t sep.
Proof.
  induction s as [|c s IH].
  - simpl. rewrite Ascii.eqb_refl. reflexivity.
  - change (String c s +:+ String sep t) with (String c (s +:+ String sep t)).
    simpl. rewrite IH. destruct (Ascii.eqb c sep); [reflexivity|].
    destruct (Split s sep) as [|h tl] eqn:E; [|reflexivity].
    destruct s as [|c' s']; simpl in E; [discriminate|].
    destruct (Ascii.eqb c' sep); [discriminate|].
    destruct (Split s' sep); discriminate.
Qed.

Lemma Split_parts s sep : Forall (fun p => hasByte sep p = false) (Split s sep).
Proof.
  induction s as [|c s IH]; simpl.
  - repeat constructor.
  - destruct (Ascii.eqb c sep) eqn:E.
    + constructor; [reflexivity|exact IH].
    + destruct (Split s sep) as [|h tl]; [repeat constructor; simpl; rewrite E; reflexivity|].
      inversion IH as [|? ? Hh Htl]; subst.
      constructor; [simpl; rewrite E, Hh; reflexivity|exact Htl].
Qed.

Lemma parseUintLoop_nonneg s : forall n, 0 <= n -> 0 <= (parseUintLoop s n).1.
Proof.
  induction s as [|c s IH]; simpl; intros n Hn; [exact Hn|].
  destruct (digit c) as [v|]; [|simpl; lia].
  destruct (_ >=? _); [simpl; unfold maxUint64; lia|].
  destruct (_ || _); [simpl; unfold maxUint64; lia|].
  apply IH. apply Z.mod_pos_bound. lia.
Qed.

(** Without a minus sign [ParseInt] gives a number from 0 to the
    greatest [int64], whether it fails or not. *)
Lemma ParseInt_unsigned s :
  hasByte "-" s = false -> 0 <= (ParseInt s).1 <= MaxInt64.
Proof.
  unfold ParseInt, MaxInt64. destruct s as [|c0 rest]; [simpl; lia|].
  simpl. intros H. apply orb_false_iff in H as [Hc _]. rewrite Hc.
  rewrite orb_false_r. cbn [negb andb].
  set (s := if Ascii.eqb c0 "+" then rest else String c0 rest).
  assert (Hun : 0 <= (ParseUint s).1).
  { unfold ParseUint. destruct s; [simpl; lia|]. apply parseUintLoop_nonneg. lia. }
  destruct (ParseUint s) as [un [[]|]]; simpl in *; try lia;
    destruct (Z.geb_spec un (2 ^ 63)); simpl; lia.
Qed.

(** The loop, when it ends, has added numbers from 0 to below the
    greatest [int64] only. *)
Lemma rangeLoop_bounds fuel : forall i last cpuSlice out,
  0 <= i -> last <= MaxInt64 ->
  Forall (fun n => 0 <= n < MaxInt64) cpuSlice ->
  rangeLoop fuel i last cpuSlice = Done out ->
  Forall (fun n => 0 <= n < MaxInt64) out.
Proof.
  induction fuel as [|fuel IH]; intros i last cpuSlice out Hi Hlast Hacc; simpl;
    destruct (Z.leb_spec i last); try discriminate;
    try (intros [= <-]; exact Hacc).
  destruct (Z.eq_dec i MaxInt64) as [->|Hne].
  - assert (last = MaxInt64) as -> by lia.
    rewrite rangeLoop_forever; [discriminate|].
    unfold wrap64, MinInt64, MaxInt64.
    pose proof (Z.mod_pos_bound (2 ^ 63 - 1 + 1 + 2 ^ 63) (2 ^ 64) ltac:(lia)). lia.
  - rewrite wrap64_id by (unfold MinInt64, MaxInt64 in *; lia).
    apply IH; [lia|assumption|].
    apply Forall_app. split; [exact Hacc|]. repeat constructor; lia.
Qed.

Lemma parseComponent_bounds fuel component cpuSlice log out log' :
  Forall (fun n => 0 <= n < MaxInt64) cpuSlice ->
  parseComponent fuel component cpuSlice log = (Done out, log') ->
  Forall (fun n => 0 <= n < MaxInt64) out.
Proof.
  intros Hacc. unfold parseComponent.
  pose proof (Split_parts component "-") as Hparts.
  unfold bind, index. simpl.
  destruct (Split component "-") as [|p0 [|p1 rest]]; simpl; try discriminate.
  { destruct (ParseInt p0) as [v [e|]]; simpl; discriminate. }
  inversion Hparts as [|? ? H0 Hrest]; subst.
  inversion Hrest as [|? ? H1 _]; subst.
  pose proof (ParseInt_unsigned p0 H0) as B0.
  pose proof (ParseInt_unsigned p1 H1) as B1.
  destruct (ParseInt p0) as [first [e0|]]; destruct (ParseInt p1) as [last [e1|]];
    simpl in *; unfold lift; intros [= Hrun _];
    apply (rangeLoop_bounds _ _ _ _ _ (proj1 B0) (proj2 B1) Hacc Hrun).
Qed.

Lemma parseComponents_bounds fuel components : forall cpuSlice log out log',
  Forall (fun n => 0 <= n < MaxInt64) cpuSlice ->
  parseComponents fuel components cpuSlice log = (Done out, log') ->
  Forall (fun n => 0 <= n < MaxInt64) out.
Proof.
  induction components as [|c rest IH]; simpl; intros cpuSlice log out log' Hacc.
  - intros [= <- _]. exact Hacc.
  - unfold bind.
    destruct (parseComponent fuel c cpuSlice log) as [[s| |] l] eqn:E; try discriminate.
    apply IH. apply (parseComponent_bounds _ _ _ _ _ _ Hacc E).
Qed.

(** X2. Whatever the string, the CPU numbers [parseCPURange] returns
    are from 0 to below the greatest [int64]: none is negative. *)
Theorem parseCPURange_numbers_in_range (fuel : nat) (value : string)
    (log : Log) (out : list Z) (log' : Log) :
  parseCPURange fuel value log = (Done out, log') ->
  Forall (fun n => 0 <= n < MaxInt64) out.
Proof. apply parseComponents_bounds. constructor. Qed.

Lemma parseCPURange_numbers_in_range_witness :
  parseCPURange 6 "-3-5" [] = (Done [0; 1; 2; 3], [NumError "ParseInt" "" ErrSyntax])
  /\ Forall (fun n => 0 <= n < MaxInt64) [0; 1; 2; 3].
Proof.
  split; [reflexivity|].
  apply (parseCPURange_numbers_in_range 6 "-3-5" []
           [0; 1; 2; 3] [NumError "ParseInt" "" ErrSyntax]).
  reflexivity.
Defined.

Lemma parseComponent_no_hyphen fuel component cpuSlice log :
  hasByte "-" component = false ->
  parseComponent fuel component cpuSlice log
  = (Panic (IndexOutOfRange 1 1), log ++ option_list (ParseInt component).2).
Proof.
  intros H. unfold parseComponent. rewrite (Split_none _ _ H).
  unfold bind, index. simpl.
  destruct (ParseInt component) as [v [e|]]; simpl; [reflexivity|].
  rewrite app_nil_r. reflexivity.
Qed.

(** X1. A component without a hyphen, be it a bare number or the empty
    string, makes [parseCPURange] panic on [Split(component, "-")[1]],
    once the components before it are expanded; what [ParseInt] has to
    say of the component is logged first. *)
Theorem parseCPURange_no_hyphen (pre post : list string) (component : string)
    (fuel : nat) (log : Log) (cpuSlice : list Z) (log1 : Log) :
  Forall (fun c => hasByte "," c = false) (pre ++ component :: post) ->
  hasByte "-" component = false ->
  parseComponents fuel pre [] log = (Done cpuSlice, log1) ->
  parseCPURange fuel (joinWith "," (pre ++ component :: post)) log
  = (Panic (IndexOutOfRange 1 1), log1 ++ option_list (ParseInt component).2).
Proof.
  intros Hcomma Hc Hpre. unfold parseCPURange.
  rewrite Split_joinWith; [|destruct pre; discriminate|assumption].
  rewrite parseComponents_app. unfold bind. rewrite Hpre. simpl. unfold bind.
  rewrite parseComponent_no_hyphen by assumption. reflexivity.
Qed.

(** The empty string, and a bare number after a range. *)
Lemma parseCPURange_no_hyphen_witness :
  parseCPURange 2 "" [] = (Panic (IndexOutOfRange 1 1), [NumError "ParseInt" "" ErrSyntax])
  /\ parseCPURange 2 "0-1,5" [] = (Panic (IndexOutOfRange 1 1), []).
Proof.
  split.
  - refine (parseCPURange_no_hyphen [] [] "" 2 [] [] [] _ _ _);
      [repeat constructor|reflexivity|reflexivity].
  - refine (parseCPURange_no_hyphen ["0-1"] [] "5" 2 [] [0; 1] [] _ _ _);
      [repeat constructor|reflexivity|reflexivity].
Defined.

Lemma rangeLoop_from_empty fuel : forall i last cpuSlice,
  rangeLoop fuel i last cpuSlice
  = match rangeLoop fuel i last [] with
    | Done out => Done (cpuSlice ++ out)
    | Panic p => Panic p
    | OutOfFuel => OutOfFuel
    end.
Proof.
  induction fuel as [|fuel IH]; intros i last cpuSlice; simpl.
  - destruct (i <=? last); [reflexivity|]. rewrite app_nil_r. reflexivity.
  - destruct (i <=? last); [|rewrite app_nil_r; reflexivity].
    rewrite (IH _ _ (cpuSlice ++ [i])), (IH _ _ [i]).
    destruct (rangeLoop fuel (wrap64 (i + 1)) last []); try reflexivity.
    rewrite <- app_assoc. reflexivity.
Qed.

Lemma parseComponent_from_empty fuel component cpuSlice log :
  parseComponent fuel component cpuSlice log
  = match parseComponent fuel component [] log with
    | (Done out, l) => (Done (cpuSlice ++ out), l)
    | other => other
    end.
Proof.
  unfold parseComponent, bind, index. simpl.
  destruct (Split component "-") as [|p0 [|p1 rest]]; simpl; try reflexivity.
  { destruct (ParseInt p0) as [v [e|]]; reflexivity. }
  destruct (ParseInt p0) as [first [e0|]]; destruct (ParseInt p1) as [last [e1|]];
    simpl; unfold lift; rewrite (rangeLoop_from_empty _ _ _ cpuSlice);
    destruct (rangeLoop fuel first last []); reflexivity.
Qed.

Lemma parseComponents_from_empty fuel components : forall cpuSlice log,
  parseComponents fuel components cpuSlice log
  = match parseComponents fuel components [] log with
    | (Done out, l) => (Done (cpuSlice ++ out), l)
    | other => other
    end.
Proof.
  induction components as [|c rest IH]; intros cpuSlice log; simpl.
  - unfold ret. rewrite app_nil_r. reflexivity.
  - unfold bind. rewrite (parseComponent_from_empty _ _ cpuSlice).
    destruct (parseComponent fuel c [] log) as [[s| |] l]; try reflexivity.
    rewrite (IH (cpuSlice ++ s)), (IH s).
    destruct (parseComponents fuel rest [] l) as [[out| |] l']; try reflexivity.
    rewrite app_assoc. reflexivity.
Qed.

(** X3. The expansion of two strings with a comma between them is the
    expansion of the first followed by the expansion of the second,
    when both return. *)
Theorem parseCPURange_append (fuel : nat) (value1 value2 : string)
    (log : Log) (out1 : list Z) (log1 : Log) (out2 : list Z) (log2 : Log) :
  parseCPURange fuel value1 log = (Done out1, log1) ->
  parseCPURange fuel value2 log1 = (Done out2, log2) ->
  parseCPURange fuel (value1 +:+ "," +:+ value2) log = (Done (out1 ++ out2), log2).
Proof.
  unfold parseCPURange. intros H1 H2.
  change (value1 +:+ "," +:+ value2) with (value1 +:+ String "," value2).
  rewrite Split_concat, parseComponents_app. unfold bind. rewrite H1.
  rewrite parseComponents_from_empty, H2. reflexivity.
Qed.

Lemma parseCPURange_append_witness :
  parseCPURange 24 "0-23,48-71" []
  = (Done (seqZ 0 24 ++ seqZ 48 24), []).
Proof.
  refine (parseCPURange_append 24 "0-23" "48-71" [] _ [] _ [] _ _); reflexivity.
Defined.

Lemma Split_three a b rest :
  hasByte "-" a = false -> hasByte "-" b = false ->
  Split (a +:+ "-" +:+ b +:+ "-" +:+ rest) "-" = a :: b :: Split rest "-".
Proof.
  intros Ha Hb.
  change (a +:+ "-" +:+ b +:+ "-" +:+ rest) with (a +:+ String "-" (b +:+ String "-" rest)).
  rewrite !Split_app by assumption. reflexivity.
Qed.

Lemma parseComponents_same fuel c c' pre post :
  (forall cpuSlice log,
     parseComponent fuel c cpuSlice log = parseComponent fuel c' cpuSlice log) ->
  forall cpuSlice log,
    parseComponents fuel (pre ++ c :: post) cpuSlice log
    = parseComponents fuel (pre ++ c' :: post) cpuSlice log.
Proof.
  intros Hc cpuSlice log. rewrite !parseComponents_app. unfold bind.
  destruct (parseComponents fuel pre cpuSlice log) as [[s| |] l]; try reflexivity.
  simpl. unfold bind. rewrite Hc. reflexivity.
Qed.

(** X4. In a component only the text before the second hyphen counts:
    [first-last-rest] is expanded as [first-last]. *)
Theorem parseCPURange_second_hyphen (pre post : list string) (a b rest : string)
    (fuel : nat) (log : Log) :
  Forall (fun c => hasByte "," c = false) (pre ++ post) ->
  hasByte "," a = false -> hasByte "," b = false -> hasByte "," rest = false ->
  hasByte "-" a = false -> hasByte "-" b = false ->
  parseCPURange fuel
    (joinWith "," (pre ++ (a +:+ "-" +:+ b +:+ "-" +:+ rest) :: post)) log
  = parseCPURange fuel (joinWith "," (pre ++ (a +:+ "-" +:+ b) :: post)) log.
Proof.
  intros Hcomma Ha Hb Hrest Ha' Hb'.
  apply Forall_app in Hcomma as [Hpre Hpost].
  unfold parseCPURange. rewrite !Split_joinWith.
  - apply parseComponents_same. intros cpuSlice log0. unfold parseComponent.
    rewrite Split_three, Split_component by assumption. reflexivity.
  - destruct pre; discriminate.
  - apply Forall_app. split; [exact Hpre|]. constructor; [|exact Hpost].
    rewrite !hasByte_app, Ha, Hb. reflexivity.
  - destruct pre; discriminate.
  - apply Forall_app. split; [exact Hpre|]. constructor; [|exact Hpost].
    rewrite !hasByte_app, Ha, Hb, Hrest. reflexivity.
Qed.

Lemma parseCPURange_second_hyphen_witness :
  parseCPURange 3 "1-3-5,8-9" [] = (Done [1; 2; 3; 8; 9], []).
Proof.
  refine (eq_trans (parseCPURange_second_hyphen [] ["8-9"] "1" "3" "5" 3 []
                      _ _ _ _ _ _) _); try reflexivity.
  repeat constructor.
Defined.

(** X5. A range whose first part is not a number (a negative number is
    the case of an empty first part) is expanded from 0: the failure is
    logged and the range runs from 0 to its second part. *)
Theorem parseCPURange_first_part_not_a_number (a b : string) (fuel : nat)
    (log : Log) :
  hasByte "," a = false -> hasByte "-" a = false ->
  (ParseInt a).2 = Some (NumError "ParseInt" a ErrSyntax) ->
  isNumber b = true -> decimal b < MaxInt64 ->
  decimal b + 1 <= Z.of_nat fuel ->
  parseCPURange fuel (a +:+ "-" +:+ b) log
  = (Done (seqZ 0 (decimal b + 1)), log ++ [NumError "ParseInt" a ErrSyntax]).
Proof.
  intros Hcomma Ha Hfail Hb Hmax Hfuel.
  assert (Hb' : allDigits b = true) by apply isNumber_allDigits, Hb.
  unfold parseCPURange. rewrite Split_none.
  2: { rewrite !hasByte_app, Hcomma, (allDigits_hasByte "," b); auto. }
  simpl. unfold bind, parseComponent.
  rewrite Split_component by (auto using allDigits_hasByte).
  unfold bind, index. simpl.
  destruct (ParseInt a) as [v [e|]] eqn:Ea; simpl in Hfail; [|discriminate].
  injection Hfail as ->.
  destruct (ParseInt_failure _ _ _ Ea) as [[-> _]|[_ Hr]]; [|discriminate].
  simpl. rewrite (ParseInt_number b Hb) by lia. simpl. unfold lift.
  rewrite rangeLoop_spec by (unfold MinInt64; lia).
  replace (decimal b - 0 + 1) with (decimal b + 1) by lia. reflexivity.
Qed.

Lemma parseCPURange_first_part_not_a_number_witness :
  parseCPURange 4 "-3" [] = (Done [0; 1; 2; 3], [NumError "ParseInt" "" ErrSyntax]).
Proof.
  refine (parseCPURange_first_part_not_a_number "" "3" 4 [] _ _ _ _ _ _);
    first [reflexivity | vm_compute; congruence].
Defined.

(** ** The per-CPU parsers: returns, errors, fields *)

Section FanOutMore.
Context {R : Type}.
Variable zero : R.
Variable subsystem : string.
Variable cases : string -> string -> option (assignment R).
Variable os : OS.
Variable fs : FS.

Local Abbreviation field := (readField cases os).
Local Abbreviation fields := (readFields cases os).
Local Abbreviation cpu := (readCPU subsystem cases os fs).
Local Abbreviation cpus := (readCPUs subsystem cases os fs).
Local Abbreviation pathOf := (cpuPath subsystem fs).
Local Abbreviation parser := (fanOut zero subsystem cases os fs).

(** *** No panic inside the slice *)

Lemma field_returns cpuNum path fileDir s log :
  0 <= cpuNum < Z.of_nat (length s) ->
  exists f log', field cpuNum path fileDir s log = (Done f, log').
Proof.
  intros Hn. unfold readField.
  destruct (ReadFile os _) as [e|contents]; [eexists _, _; reflexivity|].
  destruct (cases _ _) as [assign|]; [|eexists _, _; reflexivity].
  unfold bind, index. destruct (Z.ltb_spec cpuNum 0); [lia|].
  destruct (lookup_lt_is_Some_2 s (Z.to_nat cpuNum) ltac:(lia)) as [r ->].
  simpl. destruct (assign r) as [r' [e|]]; simpl; eexists _, _; reflexivity.
Qed.

Lemma fields_returns cpuNum path files : forall s log,
  0 <= cpuNum < Z.of_nat (length s) ->
  exists f log', fields cpuNum path files s log = (Done f, log').
Proof.
  induction files as [|fd files IH]; simpl; intros s log Hn.
  - eexists _, _. reflexivity.
  - unfold bind. destruct (field_returns cpuNum path fd s log Hn) as (f & l & E).
    rewrite E. destruct f as [s1|r]; [|eexists _, _; reflexivity].
    apply IH. apply (field_length cases os) in E. simpl in E. lia.
Qed.

Lemma cpus_returns online : forall s log,
  (forall cpuNum files, In cpuNum online ->
     ReadDir os (pathOf cpuNum) = inr files -> 0 <= cpuNum < Z.of_nat (length s)) ->
  exists f log', cpus online s log = (Done f, log').
Proof.
  induction online as [|n online IH]; simpl; intros s log Hok.
  - eexists _, _. reflexivity.
  - unfold bind.
    assert (Hstep : exists f l, cpu n s log = (Done f, l)).
    { unfold readCPU. destruct (ReadDir os (pathOf n)) as [e|files] eqn:Hdir.
      - eexists _, _. reflexivity.
      - apply fields_returns. apply (Hok n files); [left; reflexivity|exact Hdir]. }
    destruct Hstep as (f & l & E). rewrite E.
    destruct f as [s1|r]; [|eexists _, _; reflexivity].
    assert (Hlen : length s1 = length s).
    { apply (cpu_keep subsystem cases os fs (fun a b => length b = length a)
               ltac:(reflexivity) ltac:(congruence) n
               (fun fd a l0 f0 l0' => field_length cases os n _ fd a l0 f0 l0')
               _ _ _ _ E). }
    apply IH. intros m files Hm Hdir.
    rewrite Hlen. apply (Hok m files); [right|]; assumption.
Qed.

(** *** The error of an early return *)

Lemma field_return cpuNum path fileDir s log r log' :
  field cpuNum path fileDir s log = (Done (Return r), log') ->
  exists e, ReadFile os (path +:+ "/" +:+ Name fileDir) = inl e
            /\ r = (s, Some (cannotAccess (path +:+ "/" +:+ Name fileDir) e)).
Proof.
  unfold readField.
  destruct (ReadFile os _) as [e|contents].
  { intros [= <- _]. exists e. split; reflexivity. }
  destruct (cases _ _) as [assign|]; [|discriminate].
  unfold bind, index. destruct (cpuNum <? 0); [discriminate|].
  destruct (s !! Z.to_nat cpuNum) as [r0|]; [|discriminate].
  simpl. destruct (assign r0) as [r' [e|]]; discriminate.
Qed.

Lemma fields_return cpuNum path files : forall s log r log',
  fields cpuNum path files s log = (Done (Return r), log') ->
  exists fileDir e,
    In fileDir files
    /\ ReadFile os (path +:+ "/" +:+ Name fileDir) = inl e
    /\ r.2 = Some (cannotAccess (path +:+ "/" +:+ Name fileDir) e).
Proof.
  induction files as [|fd files IH]; simpl; intros s log r log'; [discriminate|].
  unfold bind.
  destruct (field cpuNum path fd s log) as [[[s1|r1]| |] l1] eqn:E; try discriminate.
  - intros H. destruct (IH _ _ _ _ H) as (g & e & Hg & Hread & Hr).
    exists g, e. auto.
  - intros [= <- _]. destruct (field_return _ _ _ _ _ _ _ E) as (e & Hread & ->).
    exists fd, e. auto.
Qed.

Lemma cpus_return online : forall s log r log',
  cpus online s log = (Done (Return r), log') ->
  exists cpuNum files fileDir e,
    In cpuNum online
    /\ ReadDir os (pathOf cpuNum) = inr files
    /\ In fileDir files
    /\ ReadFile os (pathOf cpuNum +:+ "/" +:+ Name fileDir) = inl e
    /\ r.2 = Some (cannotAccess (pathOf cpuNum +:+ "/" +:+ Name fileDir) e).
Proof.
  induction online as [|n online IH]; simpl; intros s log r log'; [discriminate|].
  unfold bind.
  destruct (cpu n s log) as [[[s1|r1]| |] l1] eqn:E; try discriminate.
  - intros H. destruct (IH _ _ _ _ H) as (m & files & g & e & Hm & Hrest).
    exists m, files, g, e. auto.
  - intros [= <- _]. unfold readCPU in E.
    destruct (ReadDir os (pathOf n)) as [e0|files] eqn:Hdir; [discriminate|].
    destruct (fields_return _ _ _ _ _ _ _ E) as (g & e & Hg & Hread & Hr).
    exists n, files, g, e. auto.
Qed.

Lemma parser_next online log slice log' :
  parser online log = (Done (slice, None), log') ->
  cpus online (replicate (length online) zero) log = (Done (Next slice), log').
Proof.
  unfold fanOut, bind.
  destruct (cpus online _ log) as [[[s1|r1]| |] l1] eqn:E; try discriminate.
  - intros [= <- <-]. reflexivity.
  - intros [= -> <-]. destruct (cpus_return _ _ _ _ _ E) as (? & ? & ? & ? & H).
    destruct H as (_ & _ & _ & _ & H). discriminate.
Qed.

(** *** The value of a string field *)

Section StringField.
Variable label : string.
Variable get : R -> string.
Variable set : string -> R -> R.
Hypothesis Hfield : stringField cases label get set.
Variable cpuNum : Z.
Hypothesis Hnonneg : 0 <= cpuNum.
Variable contents : string.
Hypothesis Hcontents :
  ReadFile os (pathOf cpuNum +:+ "/" +:+ label) = inr contents.

Lemma field_stores_value fileDir s log f log' :
  Name fileDir = label ->
  field cpuNum (pathOf cpuNum) fileDir s log = (Done f, log') ->
  slotHolds get (Z.to_nat cpuNum) (TrimSpace contents) (sliceOf f).
Proof.
  intros Hname. destruct Hfield as (Hcase & Hget & _).
  unfold readField. rewrite Hname, Hcontents, Hcase.
  unfold bind, index. destruct (Z.ltb_spec cpuNum 0); [discriminate|].
  destruct (s !! Z.to_nat cpuNum) as [r|] eqn:Hr; [|discriminate].
  apply lookup_lt_Some in Hr. simpl.
  intros [= <- _]. simpl. exists (set (TrimSpace contents) r).
  split; [apply list_lookup_insert_eq; exact Hr|apply Hget].
Qed.

Lemma field_keeps_string other path fileDir s log f log' :
  (other = cpuNum -> path = pathOf cpuNum) ->
  field other path fileDir s log = (Done f, log') ->
  slotHolds get (Z.to_nat cpuNum) (TrimSpace contents) s ->
  slotHolds get (Z.to_nat cpuNum) (TrimSpace contents) (sliceOf f).
Proof.
  intros Hpath Hrun (r0 & Hr0 & Hget0).
  destruct (field_cases cases os _ _ _ _ _ _ _ Hrun)
    as [->|(c & assign & r & Hread & Hcase & Hn & Hr & ->)].
  { exists r0. split; assumption. }
  simpl. destruct (Z.eq_dec other cpuNum) as [->|Hne].
  - rewrite (Hpath eq_refl) in Hread.
    assert (r = r0) as -> by congruence.
    exists (assign r0).1.
    split; [apply list_lookup_insert_eq; eapply lookup_lt_Some; eauto|].
    destruct Hfield as (Hlabel & Hset & Hother).
    destruct (String.eqb_spec (Name fileDir) label) as [Heq|Hneq].
    + rewrite Heq in Hread, Hcase. rewrite Hcontents in Hread.
      injection Hread as <-. rewrite Hlabel in Hcase. injection Hcase as <-.
      apply Hset.
    + rewrite (Hother _ _ _ r0 Hneq Hcase). exact Hget0.
  - exists r0. split; [|exact Hget0].
    rewrite list_lookup_insert_ne by lia. exact Hr0.
Qed.

Lemma cpus_string_value online files fileDir : forall s log s' log',
  In cpuNum online ->
  ReadDir os (pathOf cpuNum) = inr files ->
  In fileDir files -> Name fileDir = label ->
  cpus online s log = (Done (Next s'), log') ->
  slotHolds get (Z.to_nat cpuNum) (TrimSpace contents) s'.
Proof.
  intros s log s' log' Hin Hdir Hfile Hname Hrun.
  set (Q := fun a b : list R =>
              slotHolds get (Z.to_nat cpuNum) (TrimSpace contents) a ->
              slotHolds get (Z.to_nat cpuNum) (TrimSpace contents) b).
  assert (Qrefl : forall a, Q a a) by (intros a; exact id).
  assert (Qtrans : forall a b c, Q a b -> Q b c -> Q a c) by (unfold Q; auto).
  assert (Hstep : forall other fd a l f l',
            field other (pathOf other) fd a l = (Done f, l') -> Q a (sliceOf f)).
  { intros other fd a l f l' H. unfold Q.
    apply (field_keeps_string other (pathOf other) fd a l f l');
      [intros ->; reflexivity|exact H]. }
  apply in_split in Hin as (pre & post & ->).
  apply in_split in Hfile as (fpre & fpost & ->).
  rewrite (cpus_app subsystem cases os fs) in Hrun.
  destruct (cpus pre s log) as [[[s1|r1]| |] l1] eqn:Epre; try discriminate.
  simpl in Hrun. unfold bind in Hrun.
  destruct (cpu cpuNum s1 l1) as [[[s2|r2]| |] l2] eqn:Ecpu; try discriminate.
  unfold readCPU in Ecpu. rewrite Hdir, (fields_app cases os) in Ecpu.
  destruct (fields cpuNum (pathOf cpuNum) fpre s1 l1) as [[[t1|q1]| |] m1] eqn:Efpre;
    try discriminate.
  simpl in Ecpu. unfold bind in Ecpu.
  destruct (field cpuNum (pathOf cpuNum) fileDir t1 m1) as [[[t2|q2]| |] m2] eqn:Efile;
    try discriminate.
  pose proof (field_stores_value _ _ _ _ _ Hname Efile) as Hval. simpl in Hval.
  apply (cpus_keep subsystem cases os fs Q Qrefl Qtrans post
           (fun other _ =>
              cpu_keep subsystem cases os fs Q Qrefl Qtrans other (Hstep other))
           _ _ _ _ Hrun).
  apply (fields_keep cases os Q Qrefl Qtrans cpuNum (pathOf cpuNum) fpost
           (fun fd _ => Hstep cpuNum fd) _ _ _ _ Ecpu). exact Hval.
Qed.
End StringField.
End FanOutMore.

Lemma freq_string_fields :
  stringField freqCases "scaling_available_governors"
    ScalingAvailableGovernors setScalingAvailableGovernors
  /\ stringField freqCases "scaling_driver" ScalingDriver setScalingDriver
  /\ stringField freqCases "scaling_governor" ScalingGovernor setScalingGovernor.
Proof.
  repeat match goal with |- stringField _ _ _ _ /\ _ => split end;
    numeric_field freqCases.
Qed.

Lemma topology_string_fields :
  stringField topologyCases "core_siblings" CoreSiblings setCoreSiblings
  /\ stringField topologyCases "core_siblings_list"
       CoreSiblingsList setCoreSiblingsList
  /\ stringField topologyCases "thread_siblings" ThreadSiblings setThreadSiblings
  /\ stringField topologyCases "thread_siblings_list"
       ThreadSiblingsList setThreadSiblingsList.
Proof.
  repeat match goal with |- stringField _ _ _ _ /\ _ => split end;
    numeric_field topologyCases.
Qed.

Lemma parser_returns {R : Type} (zero : R) (subsystem : string)
    (cases : string -> string -> option (assignment R)) (os : OS) (fs : FS)
    (online : list Z) (log : Log) :
  (forall cpuNum files, In cpuNum online ->
     ReadDir os (cpuPath subsystem fs cpuNum) = inr files ->
     0 <= cpuNum < Z.of_nat (length online)) ->
  exists slice err log',
    fanOut zero subsystem cases os fs online log = (Done (slice, err), log')
    /\ length slice = length online.
Proof.
  intros Hok.
  destruct (cpus_returns subsystem cases os fs online
              (replicate (length online) zero) log) as (f & log' & E).
  { rewrite length_replicate. exact Hok. }
  pose proof (cpus_length subsystem cases os fs _ _ _ _ _ E) as Hlen.
  rewrite length_replicate in Hlen.
  unfold fanOut, bind. rewrite E.
  destruct f as [s|[s e]]; eexists _, _, _; (split; [reflexivity|exact Hlen]).
Qed.


(** X6. A per-CPU parser does not panic when the number of every online
    CPU whose directory is listed is an index of the slice, as it is
    for the CPUs [0 .. n-1]: it returns a slice of [len(online)]
    records, with or without an error. *)
Theorem fanOut_returns_inside_slice {R : Type} (zero : R) (subsystem : string)
    (cases : string -> string -> option (assignment R)) (os : OS) (fs : FS)
    (online : list Z) (log : Log) :
  (forall cpuNum files, In cpuNum online ->
     ReadDir os (cpuPath subsystem fs cpuNum) = inr files ->
     0 <= cpuNum < Z.of_nat (length online)) ->
  exists slice err log',
    fanOut zero subsystem cases os fs online log = (Done (slice, err), log')
    /\ length slice = length online.
Proof. apply parser_returns. Qed.

Lemma fanOut_returns_inside_slice_witness :
  exists slice err log',
    parseCPUTopology fixture sys [0; 1; 2] [] = (Done (slice, err), log')
    /\ length slice = 3%nat.
Proof.
  apply (fanOut_returns_inside_slice zeroCPUTopology "topology" topologyCases
           fixture sys [0; 1; 2] []).
  intros cpuNum files [<-|[<-|[<-|[]]]] _; simpl; lia.
Defined.

(** X7. The only error a per-CPU parser returns is that of a file it
    could not read: [cannot access <file>, <error>] for a file listed in
    the directory of an online CPU. A conversion failure is never
    returned. *)
Theorem fanOut_error_is_unreadable_file {R : Type} (zero : R) (subsystem : string)
    (cases : string -> string -> option (assignment R)) (os : OS) (fs : FS)
    (online : list Z) (log : Log) (slice : list R) (err : error) (log' : Log) :
  fanOut zero subsystem cases os fs online log = (Done (slice, Some err), log') ->
  exists cpuNum files fileDir e,
    In cpuNum online
    /\ ReadDir os (cpuPath subsystem fs cpuNum) = inr files
    /\ In fileDir files
    /\ ReadFile os (cpuPath subsystem fs cpuNum +:+ "/" +:+ Name fileDir) = inl e
    /\ err = cannotAccess (cpuPath subsystem fs cpuNum +:+ "/" +:+ Name fileDir) e.
Proof.
  unfold fanOut, bind.
  destruct (readCPUs subsystem cases os fs online _ log) as [[[s1|r1]| |] l1] eqn:E;
    try discriminate.
  intros [= -> <-].
  destruct (cpus_return _ _ _ _ _ _ _ _ _ E) as (n & files & fd & e & H1 & H2 & H3 & H4 & H5).
  exists n, files, fd, e. simpl in H5. injection H5 as ->. auto.
Qed.

Lemma fanOut_error_is_unreadable_file_witness :
  exists cpuNum files fileDir e,
    In cpuNum [0; 2; 1]
    /\ ReadDir fixture (cpuPath "topology" sys cpuNum) = inr files
    /\ In fileDir files
    /\ ReadFile fixture (cpuPath "topology" sys cpuNum +:+ "/" +:+ Name fileDir) = inl e
    /\ errorString
         "cannot access /sys/devices/system/cpu/cpu2/topology/core_siblings, open /sys/devices/system/cpu/cpu2/topology/core_siblings: no such file or directory"
       = cannotAccess (cpuPath "topology" sys cpuNum +:+ "/" +:+ Name fileDir) e.
Proof.
  apply (fanOut_error_is_unreadable_file zeroCPUTopology "topology" topologyCases
           fixture sys [0; 2; 1] []
           [mkCPUTopology 0 "" "0-23,48-71" 0 "" ""; zeroCPUTopology;
            mkCPUTopology 2 "" "" 0 "" ""] _ []).
  reflexivity.
Defined.

(** X8. When a per-CPU parser returns without an error, a numeric field
    of the record at the index of an online CPU holds what [ParseInt]
    gives for the trimmed contents of the file of that field in the
    directory of the CPU: the number written there when it is one. *)
Theorem fanOut_numeric_field_value {R : Type} (zero : R) (subsystem : string)
    (cases : string -> string -> option (assignment R)) (os : OS) (fs : FS)
    (label : string) (get : R -> Z) (set : Z -> R -> R)
    (online : list Z) (log : Log) (cpuNum : Z)
    (files : list FileInfo) (fileDir : FileInfo) (contents : string)
    (slice : list R) (log' : Log) :
  numericField cases label get set ->
  In cpuNum online -> 0 <= cpuNum ->
  ReadDir os (cpuPath subsystem fs cpuNum) = inr files ->
  In fileDir files -> Name fileDir = label ->
  ReadFile os (cpuPath subsystem fs cpuNum +:+ "/" +:+ label) = inr contents ->
  fanOut zero subsystem cases os fs online log = (Done (slice, None), log') ->
  slotHas get (Z.to_nat cpuNum) (ParseInt (TrimSpace contents)).1 slice.
Proof.
  intros Hfield Hin Hn Hdir Hfile Hname Hread Hrun.
  apply parser_next in Hrun.
  apply (cpus_field_value subsystem cases os fs label get set Hfield cpuNum Hn
           contents Hread online files fileDir _ _ _ _ Hin Hdir Hfile Hname Hrun).
Qed.

Lemma fanOut_numeric_field_value_witness :
  slotHas CPUInfoCurFreq 0 2300000
    [mkCPUFreq 2300000 0 0 0 "" 0 "acpi-cpufreq" "" 0 0 0; zeroCPUFreq].
Proof.
  refine (fanOut_numeric_field_value zeroCPUFreq "cpufreq" freqCases fixture sys
    "cpuinfo_cur_freq" CPUInfoCurFreq setCPUInfoCurFreq [0; 1] [] 0
    [file "cpuinfo_cur_freq"; file "scaling_driver"; file "scaling_setspeed"]
    (file "cpuinfo_cur_freq") "2300000
" _ [NumError "ParseInt" "<unsupported>" ErrSyntax] _ _ _ _ _ _ _ _);
    first [reflexivity | apply freq_numeric_fields | lia | (left; reflexivity)].
Defined.

(** X9. When a per-CPU parser returns without an error, a string field
    of the record at the index of an online CPU holds the contents of
    the file of that field in the directory of the CPU, with the white
    space at both ends cut and nothing else changed. *)
Theorem fanOut_string_field_value {R : Type} (zero : R) (subsystem : string)
    (cases : string -> string -> option (assignment R)) (os : OS) (fs : FS)
    (label : string) (get : R -> string) (set : string -> R -> R)
    (online : list Z) (log : Log) (cpuNum : Z)
    (files : list FileInfo) (fileDir : FileInfo) (contents : string)
    (slice : list R) (log' : Log) :
  stringField cases label get set ->
  In cpuNum online -> 0 <= cpuNum ->
  ReadDir os (cpuPath subsystem fs cpuNum) = inr files ->
  In fileDir files -> Name fileDir = label ->
  ReadFile os (cpuPath subsystem fs cpuNum +:+ "/" +:+ label) = inr contents ->
  fanOut zero subsystem cases os fs online log = (Done (slice, None), log') ->
  slotHolds get (Z.to_nat cpuNum) (TrimSpace contents) slice.
Proof.
  intros Hfield Hin Hn Hdir Hfile Hname Hread Hrun.
  apply parser_next in Hrun.
  apply (cpus_string_value subsystem cases os fs label get set Hfield cpuNum Hn
           contents Hread online files fileDir _ _ _ _ Hin Hdir Hfile Hname Hrun).
Qed.

Lemma fanOut_string_field_value_witness :
  slotHolds ScalingDriver 0 "acpi-cpufreq"
    [mkCPUFreq 2300000 0 0 0 "" 0 "acpi-cpufreq" "" 0 0 0; zeroCPUFreq].
Proof.
  refine (fanOut_string_field_value zeroCPUFreq "cpufreq" freqCases fixture sys
    "scaling_driver" ScalingDriver setScalingDriver [0; 1] [] 0
    [file "cpuinfo_cur_freq"; file "scaling_driver"; file "scaling_setspeed"]
    (file "scaling_driver") "acpi-cpufreq
" _ [NumError "ParseInt" "<unsupported>" ErrSyntax] _ _ _ _ _ _ _ _);
    first [reflexivity | apply freq_string_fields | lia
          | (left; reflexivity) | (right; left; reflexivity)].
Defined.

(** X10. In whatever a per-CPU parser returns, a slot whose index is the
    number of no online CPU holds the zero record: the records are
    placed by CPU number, and the slots left over stay empty. *)
Theorem fanOut_other_slots_zero {R : Type} (zero : R) (subsystem : string)
    (cases : string -> string -> option (assignment R)) (os : OS) (fs : FS)
    (online : list Z) (log : Log) (slice : list R) (err : option error)
    (log' : Log) (i : nat) :
  (i < length online)%nat ->
  ~ In (Z.of_nat i) online ->
  fanOut zero subsystem cases os fs online log = (Done (slice, err), log') ->
  slice !! i = Some zero.
Proof.
  intros Hi Hnot. unfold fanOut, bind.
  destruct (readCPUs subsystem cases os fs online _ log) as [[f| |] l1] eqn:E;
    try discriminate.
  apply (cpus_untouched subsystem cases os fs i) in E.
  - rewrite lookup_replicate_2 in E by exact Hi.
    destruct f as [s1|[s1 e1]]; intros H; inversion H; subst; exact E.
  - intros m Hm ->. contradiction.
Qed.

Lemma fanOut_other_slots_zero_witness :
  [zeroCPUThermalThrottle; mkCPUThermalThrottle 30 45] !! 0%nat
  = Some zeroCPUThermalThrottle.
Proof.
  refine (fanOut_other_slots_zero zeroCPUThermalThrottle "thermal_throttle"
    thermalThrottleCases fixture sys [1; 1] [] _ None [] 0 _ _ _).
  - simpl. lia.
  - intros [H|[H|[]]]; discriminate.
  - reflexivity.
Defined.

(** ** The CPU enumeration: entries, errors, fields *)

Section GenericMore.
Variable fuel : nat.
Variable os : OS.
Variable fs : FS.

Local Abbreviation entry := (readGeneric fuel os).
Local Abbreviation entries := (readGenerics fuel os).
Local Abbreviation root := (Path fs "devices/system/cpu").

Lemma entries_without_directories path files : forall c log,
  entries path (List.filter (fun fd => negb (IsDir fd)) files) c log
  = entries path files c log.
Proof.
  induction files as [|fd files IH]; intros c log; simpl; [reflexivity|].
  destruct (IsDir fd) eqn:Hd; simpl.
  - unfold bind. rewrite (entry_directory fuel os path fd c log Hd). apply IH.
  - unfold bind. destruct (entry path fd c log) as [[[c1|r]| |] l1]; try reflexivity.
    apply IH.
Qed.

Lemma entry_return path fileDir c log r log' :
  entry path fileDir c log = (Done (Return r), log') ->
  exists e, IsDir fileDir = false
            /\ ReadFile os (path +:+ "/" +:+ Name fileDir) = inl e
            /\ r = (c, Some (cannotAccess (path +:+ "/" +:+ Name fileDir) e))
            /\ log' = log.
Proof.
  unfold readGeneric. destruct (IsDir fileDir); [discriminate|].
  destruct (ReadFile os _) as [e|contents].
  { intros [= <- <-]. exists e. auto. }
  assert (Hrange : forall set : list Z -> CPUInfoGeneric -> CPUInfoGeneric,
    (v <- parseCPURange fuel (TrimSpace contents) ;;
     ret (@Next _ (CPUInfoGeneric * option error) (set v c))) log
    <> (Done (Return r), log')).
  { intros set. unfold bind.
    destruct (parseCPURange fuel _ log) as [[v| |] l]; discriminate. }
  destruct (String.eqb (Name fileDir) "kernel_max").
  { destruct (ParseInt _) as [v [e|]]; discriminate. }
  destruct (String.eqb (Name fileDir) "offline"); [intros H; destruct (Hrange _ H)|].
  destruct (String.eqb (Name fileDir) "online"); [intros H; destruct (Hrange _ H)|].
  destruct (String.eqb (Name fileDir) "possible"); [intros H; destruct (Hrange _ H)|].
  destruct (String.eqb (Name fileDir) "present"); [intros H; destruct (Hrange _ H)|].
  discriminate.
Qed.

Lemma entries_return path files : forall c log r log',
  entries path files c log = (Done (Return r), log') ->
  exists fileDir e,
    In fileDir files /\ IsDir fileDir = false
    /\ ReadFile os (path +:+ "/" +:+ Name fileDir) = inl e
    /\ r.2 = Some (cannotAccess (path +:+ "/" +:+ Name fileDir) e).
Proof.
  induction files as [|fd files IH]; simpl; intros c log r log'; [discriminate|].
  unfold bind.
  destruct (entry path fd c log) as [[[c1|r1]| |] l1] eqn:E; try discriminate.
  - intros H. destruct (IH _ _ _ _ H) as (g & e & Hg & Hrest). exists g, e. auto.
  - intros [= <- _].
    destruct (entry_return _ _ _ _ _ _ E) as (e & Hd & Hread & -> & _).
    exists fd, e. auto.
Qed.

Lemma generic_next log r log' :
  parseCPUInfoGeneric fuel os fs log = (Done (r, None), log') ->
  exists files,
    ReadDir os root = inr files
    /\ entries root files zeroCPUInfoGeneric log = (Done (Next r), log').
Proof.
  unfold parseCPUInfoGeneric.
  destruct (ReadDir os root) as [e|files]; [discriminate|].
  unfold bind.
  destruct (entries root files zeroCPUInfoGeneric log) as [[[c1|r1]| |] l1] eqn:E;
    try discriminate.
  - intros [= <- <-]. exists files. auto.
  - intros [= -> <-]. destruct (entries_return _ _ _ _ _ _ E) as (? & ? & _ & _ & _ & H).
    discriminate.
Qed.

(** *** A range field *)

Lemma entry_range name get path fileDir c log f log' contents out w :
  rangeField name get ->
  ReadFile os (path +:+ "/" +:+ name) = inr contents ->
  parseCPURange fuel (TrimSpace contents) [] = (Done out, w) ->
  entry path fileDir c log = (Done f, log') ->
  get c = out \/ (IsDir fileDir = false /\ Name fileDir = name) ->
  get (enumerationOf f) = out.
Proof.
  intros Hfield Hread Hexp. unfold readGeneric.
  destruct (IsDir fileDir).
  { intros [= <- <-] [H|[H _]]; [exact H|discriminate]. }
  destruct (ReadFile os (path +:+ "/" +:+ Name fileDir)) as [e|contents'] eqn:Hread'.
  { intros [= <- <-] [H|[_ Hn]]; [exact H|]. rewrite Hn in Hread'. congruence. }
  assert (Hsame : Name fileDir = name -> contents' = contents).
  { intros Hn. rewrite Hn in Hread'. congruence. }
  assert (Hrange : forall set : list Z -> CPUInfoGeneric -> CPUInfoGeneric,
    (forall v, get (set v c) = get c \/ (Name fileDir = name /\ get (set v c) = v)) ->
    (Name fileDir = name -> forall v, get (set v c) = v) ->
    (v <- parseCPURange fuel (TrimSpace contents') ;;
     ret (@Next _ (CPUInfoGeneric * option error) (set v c))) log = (Done f, log') ->
    get c = out \/ (false = false /\ Name fileDir = name) ->
    get (enumerationOf f) = out).
  { intros set Hset Hmine. unfold bind.
    rewrite (steady_parseCPURange fuel _ log).
    destruct (parseCPURange fuel (TrimSpace contents') []) as [[v| |] l] eqn:E;
      simpl; try discriminate.
    intros [= <- <-]. simpl.
    assert (Hv : Name fileDir = name -> v = out).
    { intros Hn. rewrite (Hsame Hn) in E. congruence. }
    intros [H|[_ Hn]].
    - destruct (Hset v) as [->|[Hn ->]]; [exact H|exact (Hv Hn)].
    - rewrite (Hmine Hn). exact (Hv Hn). }
  destruct Hfield;
    (destruct (String.eqb_spec (Name fileDir) "kernel_max") as [Hk|_];
     [destruct (ParseInt _) as [v [e|]]; unfold bind; simpl;
      intros [= <- <-] [H|[_ Hn]]; solve [exact H | congruence]|]);
    (destruct (String.eqb_spec (Name fileDir) "offline") as [H1|H1];
     [apply Hrange; [intros v; first [left; reflexivity | right; split; [exact H1|reflexivity]]
                    |intros Hn v; first [reflexivity | congruence]]|]);
    (destruct (String.eqb_spec (Name fileDir) "online") as [H2|H2];
     [apply Hrange; [intros v; first [left; reflexivity | right; split; [exact H2|reflexivity]]
                    |intros Hn v; first [reflexivity | congruence]]|]);
    (destruct (String.eqb_spec (Name fileDir) "possible") as [H3|H3];
     [apply Hrange; [intros v; first [left; reflexivity | right; split; [exact H3|reflexivity]]
                    |intros Hn v; first [reflexivity | congruence]]|]);
    (destruct (String.eqb_spec (Name fileDir) "present") as [H4|H4];
     [apply Hrange; [intros v; first [left; reflexivity | right; split; [exact H4|reflexivity]]
                    |intros Hn v; first [reflexivity | congruence]]|]);
    intros [= <- <-] [H|[_ Hn]]; solve [exact H | congruence].
Qed.

Lemma entries_range name get path contents out w files : forall c log c' log',
  rangeField name get ->
  ReadFile os (path +:+ "/" +:+ name) = inr contents ->
  parseCPURange fuel (TrimSpace contents) [] = (Done out, w) ->
  entries path files c log = (Done (Next c'), log') ->
  get c = out \/ In (file name) files ->
  get c' = out.
Proof.
  induction files as [|fd files IH]; simpl;
    intros c log c' log' Hfield Hread Hexp Hrun Hor.
  - inversion Hrun; subst. destruct Hor as [H|[]]. exact H.
  - unfold bind in Hrun.
    destruct (entry path fd c log) as [[[c1|r1]| |] l1] eqn:E; try discriminate.
    apply (IH _ _ _ _ Hfield Hread Hexp Hrun).
    destruct Hor as [Hc|[Hfd|Hin]]; [left|left|right; exact Hin].
    + apply (entry_range _ _ _ _ _ _ _ _ _ _ _ Hfield Hread Hexp E (or_introl Hc)).
    + subst fd.
      apply (entry_range _ _ _ _ _ _ _ _ _ _ _ Hfield Hread Hexp E
               (or_intror (conj eq_refl eq_refl))).
Qed.

Lemma entries_kernel_max path contents files : forall c log c' log',
  ReadFile os (path +:+ "/" +:+ "kernel_max") = inr contents ->
  entries path files c log = (Done (Next c'), log') ->
  KernelMax c = (ParseInt (TrimSpace contents)).1 \/ In (file "kernel_max") files ->
  KernelMax c' = (ParseInt (TrimSpace contents)).1.
Proof.
  induction files as [|fd files IH]; simpl; intros c log c' log' Hread Hrun Hor.
  - inversion Hrun; subst. destruct Hor as [H|[]]. exact H.
  - unfold bind in Hrun.
    destruct (entry path fd c log) as [[[c1|r1]| |] l1] eqn:E; try discriminate.
    apply (IH _ _ _ _ Hread Hrun).
    destruct Hor as [Hc|[Hfd|Hin]]; [left|left|right; exact Hin].
    + apply (entry_keeps_kernelMax fuel os _ _ _ _ _ _ _ Hread E Hc).
    + subst fd.
      rewrite (entry_kernel_max fuel os path (file "kernel_max") c log contents
                 eq_refl eq_refl Hread) in E.
      injection E as <- _. reflexivity.
Qed.
Lemma entry_expands name get path c log f log' contents :
  rangeField name get ->
  ReadFile os (path +:+ "/" +:+ name) = inr contents ->
  entry path (file name) c log = (Done f, log') ->
  exists out w, parseCPURange fuel (TrimSpace contents) [] = (Done out, w).
Proof.
  intros Hfield Hread. unfold readGeneric. simpl. rewrite Hread.
  destruct Hfield; simpl; unfold bind;
    rewrite (steady_parseCPURange fuel _ log);
    destruct (parseCPURange fuel (TrimSpace contents) []) as [[out| |] w];
    simpl; try discriminate; eauto.
Qed.

Lemma entries_expand name get path contents files : forall c log c' log',
  rangeField name get ->
  ReadFile os (path +:+ "/" +:+ name) = inr contents ->
  In (file name) files ->
  entries path files c log = (Done (Next c'), log') ->
  exists out w, parseCPURange fuel (TrimSpace contents) [] = (Done out, w).
Proof.
  induction files as [|fd files IH]; simpl;
    intros c log c' log' Hfield Hread Hin Hrun; [contradiction|].
  unfold bind in Hrun.
  destruct (entry path fd c log) as [[[c1|r1]| |] l1] eqn:E; try discriminate.
  destruct Hin as [->|Hin].
  - apply (entry_expands _ _ _ _ _ _ _ _ Hfield Hread E).
  - apply (IH _ _ _ _ Hfield Hread Hin Hrun).
Qed.
End GenericMore.

(** X11. The subdirectories of the CPU device root play no part in the
    enumeration: it comes to the same on a file system whose listings
    leave the directories out. *)
Theorem parseCPUInfoGeneric_skips_directories (fuel : nat) (os : OS) (fs : FS)
    (log : Log) :
  parseCPUInfoGeneric fuel (withoutDirectories os) fs log
  = parseCPUInfoGeneric fuel os fs log.
Proof.
  unfold parseCPUInfoGeneric. simpl.
  destruct (ReadDir os (Path fs "devices/system/cpu")) as [e|files]; [reflexivity|].
  unfold bind.
  change (readGenerics fuel (withoutDirectories os))
    with (readGenerics fuel os).
  rewrite entries_without_directories. reflexivity.
Qed.

(** X12. Every entry of the CPU device root that is not a directory is
    read, whatever its name: one that cannot be read ends the
    enumeration at once with [cannot access <file>, <error>], the fields
    read so far, and the later entries not looked at. *)
Theorem parseCPUInfoGeneric_aborts_on_unreadable_entry (fuel : nat) (os : OS)
    (fs : FS) (pre : list FileInfo) (fileDir : FileInfo) (post : list FileInfo)
    (e : string) (log : Log) (c1 : CPUInfoGeneric) (l1 : Log) :
  ReadDir os (Path fs "devices/system/cpu") = inr (pre ++ fileDir :: post) ->
  readGenerics fuel os (Path fs "devices/system/cpu") pre zeroCPUInfoGeneric log
    = (Done (Next c1), l1) ->
  IsDir fileDir = false ->
  ReadFile os (Path fs "devices/system/cpu" +:+ "/" +:+ Name fileDir) = inl e ->
  parseCPUInfoGeneric fuel os fs log
  = (Done (c1, Some (cannotAccess
                       (Path fs "devices/system/cpu" +:+ "/" +:+ Name fileDir) e)),
     l1).
Proof.
  intros Hdir Hpre Hd Hread. unfold parseCPUInfoGeneric. rewrite Hdir.
  unfold bind. rewrite entries_app, Hpre. simpl. unfold bind, readGeneric.
  rewrite Hd, Hread. reflexivity.
Qed.

Lemma parseCPUInfoGeneric_aborts_on_unreadable_entry_witness :
  parseCPUInfoGeneric 2 fixtureUevent sys []
  = (Done (mkCPUInfoGeneric 2047 [] [0; 1] [] [],
           Some (errorString
             "cannot access /sys/devices/system/cpu/probe, open /sys/devices/system/cpu/probe: no such file or directory")),
     []).
Proof.
  refine (parseCPUInfoGeneric_aborts_on_unreadable_entry 2 fixtureUevent sys
    [dir "cpu0"; file "kernel_max"; file "online"] (file "probe") [file "present"]
    _ [] _ [] _ _ _ _); reflexivity.
Defined.

(** X13. The error [parseCPUInfoGeneric] returns is that of the listing
    of the CPU device root, [cannot access <root> dir <error>] with the
    zero enumeration, or that of an entry, not a directory, that could
    not be read. A conversion failure is never returned. *)
Theorem parseCPUInfoGeneric_error (fuel : nat) (os : OS) (fs : FS) (log : Log)
    (r : CPUInfoGeneric) (err : error) (log' : Log) :
  parseCPUInfoGeneric fuel os fs log = (Done (r, Some err), log') ->
  (exists e, ReadDir os (Path fs "devices/system/cpu") = inl e
             /\ err = cannotAccessDir (Path fs "devices/system/cpu") e
             /\ r = zeroCPUInfoGeneric /\ log' = log)
  \/ (exists files fileDir e,
        ReadDir os (Path fs "devices/system/cpu") = inr files
        /\ In fileDir files /\ IsDir fileDir = false
        /\ ReadFile os (Path fs "devices/system/cpu" +:+ "/" +:+ Name fileDir) = inl e
        /\ err = cannotAccess (Path fs "devices/system/cpu" +:+ "/" +:+ Name fileDir) e).
Proof.
  unfold parseCPUInfoGeneric.
  destruct (ReadDir os (Path fs "devices/system/cpu")) as [e|files].
  { intros [= <- <- <-]. left. exists e. auto. }
  unfold bind.
  destruct (readGenerics fuel os _ files zeroCPUInfoGeneric log)
    as [[[c1|r1]| |] l1] eqn:E; try discriminate.
  intros [= -> <-]. right.
  destruct (entries_return _ _ _ _ _ _ _ _ E) as (fd & e & Hin & Hd & Hread & Herr).
  exists files, fd, e. simpl in Herr. injection Herr as ->. auto.
Qed.

Lemma parseCPUInfoGeneric_error_witness :
  (exists e, ReadDir (fixtureOS [] []) (Path sys "devices/system/cpu") = inl e
             /\ errorString
                  "cannot access /sys/devices/system/cpu dir open /sys/devices/system/cpu: no such file or directory"
                = cannotAccessDir (Path sys "devices/system/cpu") e
             /\ zeroCPUInfoGeneric = zeroCPUInfoGeneric /\ @nil error = [])
  \/ (exists files fileDir e,
        ReadDir (fixtureOS [] []) (Path sys "devices/system/cpu") = inr files
        /\ In fileDir files /\ IsDir fileDir = false
        /\ ReadFile (fixtureOS [] [])
             (Path sys "devices/system/cpu" +:+ "/" +:+ Name fileDir) = inl e
        /\ errorString
             "cannot access /sys/devices/system/cpu dir open /sys/devices/system/cpu: no such file or directory"
           = cannotAccess (Path sys "devices/system/cpu" +:+ "/" +:+ Name fileDir) e).
Proof.
  apply (parseCPUInfoGeneric_error 0 (fixtureOS [] []) sys [] zeroCPUInfoGeneric _ []).
  reflexivity.
Defined.

(** X14. When the enumeration returns without an error, a range field
    ([Offline], [Online], [Possible], [Present]) whose file is listed
    holds the expansion by [parseCPURange] of the trimmed contents of
    that file. *)
Theorem parseCPUInfoGeneric_range_field (fuel : nat) (os : OS) (fs : FS)
    (name : string) (get : CPUInfoGeneric -> list Z)
    (files : list FileInfo) (contents : string) (log : Log)
    (r : CPUInfoGeneric) (log' : Log) :
  rangeField name get ->
  ReadDir os (Path fs "devices/system/cpu") = inr files ->
  In (file name) files ->
  ReadFile os (Path fs "devices/system/cpu" +:+ "/" +:+ name) = inr contents ->
  parseCPUInfoGeneric fuel os fs log = (Done (r, None), log') ->
  exists w, parseCPURange fuel (TrimSpace contents) [] = (Done (get r), w).
Proof.
  intros Hfield Hdir Hin Hread Hrun.
  destruct (generic_next _ _ _ _ _ _ Hrun) as (files' & Hdir' & E).
  rewrite Hdir in Hdir'. injection Hdir' as <-.
  destruct (entries_expand fuel os name get _ contents files _ _ _ _
              Hfield Hread Hin E) as (out & w & Hexp).
  exists w. rewrite Hexp.
  rewrite (entries_range fuel os name get _ contents out w files _ _ _ _
             Hfield Hread Hexp E (or_intror Hin)).
  reflexivity.
Qed.

Lemma parseCPUInfoGeneric_range_field_witness :
  exists w, parseCPURange 4 "0-3" [] = (Done [0; 1; 2; 3], w).
Proof.
  refine (parseCPUInfoGeneric_range_field 4 fixture sys "possible" Possible
    [dir "cpu0"; dir "cpu1"; file "kernel_max"; file "offline"; file "online";
     file "possible"; file "present"] "0-3
" [] (mkCPUInfoGeneric 2047 [2; 3] [0; 1] [0; 1; 2; 3] [0; 1]) [] _ _ _ _ _);
    first [reflexivity | solve [constructor] | (do 5 right; left; reflexivity)].
Defined.

(** X15. When the enumeration returns without an error and
    [kernel_max] is listed, [KernelMax] is what [ParseInt] gives for the
    trimmed contents of the file: the number written there when it is
    one. *)
Theorem parseCPUInfoGeneric_kernel_max (fuel : nat) (os : OS) (fs : FS)
    (files : list FileInfo) (contents : string) (log : Log)
    (r : CPUInfoGeneric) (log' : Log) :
  ReadDir os (Path fs "devices/system/cpu") = inr files ->
  In (file "kernel_max") files ->
  ReadFile os (Path fs "devices/system/cpu" +:+ "/" +:+ "kernel_max") = inr contents ->
  parseCPUInfoGeneric fuel os fs log = (Done (r, None), log') ->
  KernelMax r = (ParseInt (TrimSpace contents)).1.
Proof.
  intros Hdir Hin Hread Hrun.
  destruct (generic_next _ _ _ _ _ _ Hrun) as (files' & Hdir' & E).
  rewrite Hdir in Hdir'. injection Hdir' as <-.
  apply (entries_kernel_max fuel os _ contents files _ _ _ _ Hread E).
  right. exact Hin.
Qed.

Lemma parseCPUInfoGeneric_kernel_max_witness :
  KernelMax (mkCPUInfoGeneric 2047 [2; 3] [0; 1] [0; 1; 2; 3] [0; 1]) = 2047.
Proof.
  refine (parseCPUInfoGeneric_kernel_max 4 fixture sys
    [dir "cpu0"; dir "cpu1"; file "kernel_max"; file "offline"; file "online";
     file "possible"; file "present"] "2047
" [] _ [] _ _ _ _);
    first [reflexivity | (do 2 right; left; reflexivity)].
Defined.

(** ** The composite read: NewCPUInfo *)

(** X16. When [NewCPUInfo] returns without an error, the three slices
    of the snapshot have the length of its [Online] list. *)
Theorem NewCPUInfo_slices_sized (fuel : nat) (os : OS) (fs : FS) (log : Log)
    (info : CPUInfo) (log' : Log) :
  NewCPUInfo fuel os fs log = (Done (info, None), log') ->
  length (CPUFreqSlice info) = length (Online (cpuInfoGeneric info))
  /\ length (CPUTopologySlice info) = length (Online (cpuInfoGeneric info))
  /\ length (CPUThermalThrottleSlice info) = length (Online (cpuInfoGeneric info)).
Proof.
  unfold NewCPUInfo, bind.
  destruct (parseCPUInfoGeneric fuel os fs log) as [[[g [e0|]]| |] l0];
    simpl; try discriminate.
  destruct (parseCPUFreq os fs (Online g) l0) as [[[F [e1|]]| |] l1] eqn:EF;
    simpl; try discriminate.
  destruct (parseCPUTopology os fs (Online g) l1) as [[[T [e2|]]| |] l2] eqn:ET;
    simpl; try discriminate.
  destruct (parseCPUThermalThrottle os fs (Online g) l2) as [[[H e3]| |] l3] eqn:EH;
    simpl; try discriminate.
  intros [= <- -> <-]. simpl.
  repeat split; eapply parser_length; eassumption.
Qed.

Lemma NewCPUInfo_slices_sized_witness :
  exists info log',
    NewCPUInfo 4 fixture sys [] = (Done (info, None), log')
    /\ length (CPUFreqSlice info) = 2%nat
    /\ length (CPUTopologySlice info) = 2%nat
    /\ length (CPUThermalThrottleSlice info) = 2%nat.
Proof.
  destruct (NewCPUInfo 4 fixture sys []) as [[[info [e|]]| |] log'] eqn:E;
    try (vm_compute in E; discriminate).
  exists info, log'. split; [reflexivity|].
  pose proof (NewCPUInfo_slices_sized 4 fixture sys [] info log' E) as H.
  vm_compute in E. injection E as <- <-. exact H.
Defined.



(** X18. [NewCPUInfo] does not panic once the enumeration has returned
    and every number of its [Online] list is an index of that list, as
    it is for the CPUs [0 .. n-1]. *)
Theorem NewCPUInfo_returns (fuel : nat) (os : OS) (fs : FS) (log : Log)
    (g : CPUInfoGeneric) (err0 : option error) (log0 : Log) :
  parseCPUInfoGeneric fuel os fs log = (Done (g, err0), log0) ->
  (forall n, In n (Online g) -> 0 <= n < Z.of_nat (length (Online g))) ->
  exists info err log', NewCPUInfo fuel os fs log = (Done (info, err), log').
Proof.
  intros EG Hin. unfold NewCPUInfo, bind. rewrite EG. simpl.
  destruct err0 as [e0|]; [eexists _, _, _; reflexivity|].
  destruct (parser_returns zeroCPUFreq "cpufreq" freqCases os fs (Online g) log0)
    as (F & e1 & l1 & EF & _); [intros n files Hn _; apply Hin, Hn|].
  unfold parseCPUFreq. rewrite EF. simpl.
  destruct e1 as [e1|]; [eexists _, _, _; reflexivity|].
  destruct (parser_returns zeroCPUTopology "topology" topologyCases os fs (Online g) l1)
    as (T & e2 & l2 & ET & _); [intros n files Hn _; apply Hin, Hn|].
  unfold parseCPUTopology. rewrite ET. simpl.
  destruct e2 as [e2|]; [eexists _, _, _; reflexivity|].
  destruct (parser_returns zeroCPUThermalThrottle "thermal_throttle"
              thermalThrottleCases os fs (Online g) l2)
    as (H & e3 & l3 & EH & _); [intros n files Hn _; apply Hin, Hn|].
  unfold parseCPUThermalThrottle. rewrite EH. simpl.
  eexists _, _, _. reflexivity.
Qed.

Lemma NewCPUInfo_returns_witness :
  exists info err log', NewCPUInfo 4 fixture sys [] = (Done (info, err), log').
Proof.
  apply (NewCPUInfo_returns 4 fixture sys []
           (mkCPUInfoGeneric 2047 [2; 3] [0; 1] [0; 1; 2; 3] [0; 1]) None []).
  - reflexivity.
  - intros n [<-|[<-|[]]]; simpl; lia.
Defined.

(** ** Zone information: the records *)

Lemma TrimRight_end s c : endsWith c (TrimRight s c) = false.
Proof.
  induction s as [|a s IH]; simpl; [reflexivity|].
  destruct (TrimRight s c) as [|b t] eqn:E.
  - destruct (Ascii.eqb a c) eqn:Ea; simpl; [reflexivity|exact Ea].
  - exact IH.
Qed.

Lemma scanLine_trimmed line zoneInfo log out log' :
  Forall (fun z => endsWith "," (Node z) = false /\ endsWith "," (Zone z) = false)
    zoneInfo ->
  scanLine line zoneInfo log = (Done out, log') ->
  Forall (fun z => endsWith "," (Node z) = false /\ endsWith "," (Zone z) = false) out.
Proof.
  intros Hz. unfold scanLine.
  destruct (HasPrefix line "Node"); [|intros [= <- _]; exact Hz].
  unfold bind, index, throw, ret. simpl.
  destruct (Fields line !! Z.to_nat 1) as [p1|]; simpl; [|discriminate].
  destruct (Fields line !! Z.to_nat 3) as [p3|]; simpl; [|discriminate].
  intros [= <- _]. apply Forall_app. split; [exact Hz|].
  repeat constructor; simpl; apply TrimRight_end.
Qed.

Lemma scanAll_trimmed ls : forall zoneInfo log out log',
  Forall (fun z => endsWith "," (Node z) = false /\ endsWith "," (Zone z) = false)
    zoneInfo ->
  scanAll ls zoneInfo log = (Done out, log') ->
  Forall (fun z => endsWith "," (Node z) = false /\ endsWith "," (Zone z) = false) out.
Proof.
  induction ls as [|line ls IH]; simpl; intros zoneInfo log out log' Hz.
  - intros [= <- _]. exact Hz.
  - unfold bind.
    destruct (scanLine line zoneInfo log) as [[z| |] l] eqn:E; try discriminate.
    apply IH. apply (scanLine_trimmed _ _ _ _ _ Hz E).
Qed.

(** X19. No record [parseZoneInfo] returns has a node or a zone that
    ends with a comma: all the trailing commas of the two fields are
    cut, not one only. *)
Theorem parseZoneInfo_no_trailing_comma (r : Reader) (log : Log)
    (zoneInfo : list ZoneInfo) (err : option error) (log' : Log) :
  parseZoneInfo r log = (Done (zoneInfo, err), log') ->
  Forall (fun z => endsWith "," (Node z) = false /\ endsWith "," (Zone z) = false)
    zoneInfo.
Proof.
  unfold parseZoneInfo, bind.
  destruct (scanAll (lines r) [] log) as [[z| |] l] eqn:E; try discriminate.
  intros [= <- _ _]. apply (scanAll_trimmed _ _ _ _ _ (List.Forall_nil _) E).
Qed.

Lemma parseZoneInfo_no_trailing_comma_witness :
  Forall (fun z => endsWith "," (Node z) = false /\ endsWith "," (Zone z) = false)
    [mkZoneInfo "0" "Normal"].
Proof.
  apply (parseZoneInfo_no_trailing_comma
           (mkReader ["Node 0,, zone Normal,,,"] None) [] _ None []).
  reflexivity.
Defined.

(** ** The earlier reader with the frequencies only *)

Lemma steady_result {A} (m : M A) log : steady m -> (m log).1 = (m []).1.
Proof. intros H. rewrite (H log). reflexivity. Qed.

Lemma bind_result {A B} (m : M A) (k : A -> M B) log :
  steady m -> (forall a, steady (k a)) ->
  ((x <- m ;; k x) log).1
  = match (m []).1 with
    | Done a => (k a []).1
    | Panic p => Panic p
    | OutOfFuel => OutOfFuel
    end.
Proof.
  intros Hm Hk. unfold bind. rewrite (Hm log).
  destruct (m []) as [[a| |] w]; simpl; try reflexivity.
  rewrite (Hk a (log ++ w)). reflexivity.
Qed.

Section FreqFacts.
Variable fuel : nat.
Variable os : OS.
Variable fs : FS.

Lemma steady_readGenericF path fileDir c : steady (readGenericF fuel os path fileDir c).
Proof. unfold readGenericF. repeat steady_step. Qed.

Lemma steady_readGenericsF path files :
  forall c, steady (readGenericsF fuel os path files c).
Proof.
  induction files as [|fd files IH]; intros c; simpl.
  - apply steady_ret.
  - apply steady_bind; [apply steady_readGenericF|].
    intros [c'|r]; [apply IH|apply steady_ret].
Qed.

Lemma steady_parseCPUInfoGenericF : steady (parseCPUInfoGenericF fuel os fs).
Proof.
  unfold parseCPUInfoGenericF. destruct (ReadDir os _); [apply steady_ret|].
  apply steady_bind; [apply steady_readGenericsF|].
  intros [c|r]; apply steady_ret.
Qed.

Lemma readGenericF_result path fileDir c :
  (readGenericF fuel os path fileDir c []).1 = (readGeneric fuel os path fileDir c []).1.
Proof.
  unfold readGenericF, readGeneric.
  destruct (IsDir fileDir); [reflexivity|].
  destruct (ReadFile os _); [reflexivity|].
  destruct (String.eqb (Name fileDir) "kernel_max"); [|reflexivity].
  destruct (ParseInt _) as [v [e|]]; reflexivity.
Qed.

Lemma readGenericsF_result path files : forall c,
  (readGenericsF fuel os path files c []).1 = (readGenerics fuel os path files c []).1.
Proof.
  induction files as [|fd files IH]; intros c; simpl; [reflexivity|].
  rewrite !bind_result.
  - rewrite readGenericF_result.
    destruct (readGeneric fuel os path fd c []).1 as [[c1|r1]| |]; try reflexivity.
    apply IH.
  - apply steady_entry.
  - intros [c1|r1]; [apply steady_entries|apply steady_ret].
  - apply steady_readGenericF.
  - intros [c1|r1]; [apply steady_readGenericsF|apply steady_ret].
Qed.

Lemma parseCPUInfoGenericF_result :
  (parseCPUInfoGenericF fuel os fs []).1 = (parseCPUInfoGeneric fuel os fs []).1.
Proof.
  unfold parseCPUInfoGenericF, parseCPUInfoGeneric.
  destruct (ReadDir os _) as [e|files]; [reflexivity|].
  rewrite !bind_result.
  - rewrite readGenericsF_result.
    destruct (readGenerics fuel os _ files zeroCPUInfoGeneric []).1 as [[c1|r1]| |];
      reflexivity.
  - apply steady_entries.
  - intros [c1|r1]; apply steady_ret.
  - apply steady_readGenericsF.
  - intros [c1|r1]; apply steady_ret.
Qed.
End FreqFacts.

(** X20. The earlier [parseCPUInfoGeneric], which does not log the
    conversion failure of [kernel_max], comes to the same enumeration
    and the same error as the present one, whatever the logs they start
    on. *)
Theorem parseCPUInfoGenericF_same_result (fuel : nat) (os : OS) (fs : FS)
    (log log' : Log) :
  (parseCPUInfoGenericF fuel os fs log).1 = (parseCPUInfoGeneric fuel os fs log').1.
Proof.
  rewrite (steady_result _ log (steady_parseCPUInfoGenericF fuel os fs)).
  rewrite (steady_result _ log' (steady_parseCPUInfoGeneric fuel os fs)).
  apply parseCPUInfoGenericF_result.
Qed.

(** X21. When the present [NewCPUInfo] returns a snapshot without an
    error, the earlier one, on the same file system, returns the
    enumeration and the frequency slice of that snapshot, without an
    error. *)
Theorem NewCPUInfoF_agrees (fuel : nat) (os : OS) (fs : FS) (log : Log)
    (info : CPUInfo) (log' : Log) (logF : Log) :
  NewCPUInfo fuel os fs log = (Done (info, None), log') ->
  (NewCPUInfoF fuel os fs logF).1
  = Done (mkCPUInfoF (cpuInfoGeneric info) (CPUFreqSlice info), None).
Proof.
  intros Hrun.
  assert (Hfreq : forall online, steady (parseCPUFreq os fs online)).
  { intros online. apply steady_parser. }
  assert (H0 : (NewCPUInfo fuel os fs []).1 = Done (info, None)).
  { rewrite <- (steady_result _ log (steady_NewCPUInfo fuel os fs)), Hrun.
    reflexivity. }
  clear Hrun. unfold NewCPUInfo in H0. unfold NewCPUInfoF.
  rewrite bind_result in H0;
    [|apply steady_parseCPUInfoGeneric
     |intros [g [e|]]; simpl; [apply steady_ret|];
      apply steady_bind; [apply steady_parser|]; intros [F [e|]]; simpl;
      [apply steady_ret|];
      apply steady_bind; [apply steady_parser|]; intros [T [e|]]; simpl;
      [apply steady_ret|];
      apply steady_bind; [apply steady_parser|]; intros [H e]; apply steady_ret].
  rewrite bind_result;
    [|apply steady_parseCPUInfoGenericF
     |intros [g [e|]]; simpl; [apply steady_ret|];
      apply steady_bind; [apply Hfreq|]; intros [F [e|]]; simpl; apply steady_ret].
  rewrite parseCPUInfoGenericF_result.
  destruct (parseCPUInfoGeneric fuel os fs []).1 as [[g [e0|]]| |];
    simpl in *; try discriminate.
  rewrite bind_result in H0;
    [|apply steady_parser
     |intros [F [e|]]; simpl; [apply steady_ret|];
      apply steady_bind; [apply steady_parser|]; intros [T [e|]]; simpl;
      [apply steady_ret|];
      apply steady_bind; [apply steady_parser|]; intros [H e]; apply steady_ret].
  rewrite bind_result;
    [|apply Hfreq|intros [F [e|]]; simpl; apply steady_ret].
  destruct (parseCPUFreq os fs (Online g) []).1 as [[F [e1|]]| |];
    simpl in *; try discriminate.
  rewrite bind_result in H0;
    [|apply steady_parser
     |intros [T [e|]]; simpl; [apply steady_ret|];
      apply steady_bind; [apply steady_parser|]; intros [H e]; apply steady_ret].
  destruct (parseCPUTopology os fs (Online g) []).1 as [[T [e2|]]| |];
    simpl in *; try discriminate.
  rewrite bind_result in H0;
    [|apply steady_parser|intros [H e]; apply steady_ret].
  destruct (parseCPUThermalThrottle os fs (Online g) []).1 as [[H e3]| |];
    simpl in *; try discriminate.
  injection H0 as <- _. reflexivity.
Qed.

Lemma NewCPUInfoF_agrees_witness :
  (NewCPUInfoF 4 fixture sys []).1
  = Done (mkCPUInfoF (mkCPUInfoGeneric 2047 [2; 3] [0; 1] [0; 1; 2; 3] [0; 1])
            [mkCPUFreq 2300000 0 0 0 "" 0 "acpi-cpufreq" "" 0 0 0; zeroCPUFreq],
          None).
Proof.
  refine (NewCPUInfoF_agrees 4 fixture sys []
    (mkCPUInfo (mkCPUInfoGeneric 2047 [2; 3] [0; 1] [0; 1; 2; 3] [0; 1])
       [mkCPUFreq 2300000 0 0 0 "" 0 "acpi-cpufreq" "" 0 0 0; zeroCPUFreq]
       [mkCPUTopology 0 "" "0-23,48-71" 0 "" ""; mkCPUTopology 1 "" "0-15,32-47" 0 "" ""]
       [zeroCPUThermalThrottle; mkCPUThermalThrottle 30 45])
    [NumError "ParseInt" "<unsupported>" ErrSyntax] [] _).
  reflexivity.
Defined.

(** ** The earlier reader that keeps the ranges as strings *)

Section StringsFacts.
Variable sysReadFile : string -> string + string.
Variable os : OS.
Variable fs : FS.

Local Abbreviation entryS := (readGenericS sysReadFile).
Local Abbreviation entriesS := (readGenericsS sysReadFile).

Lemma entryS_return path fileDir c r :
  entryS path fileDir c = Return r ->
  exists e, IsDir fileDir = false
            /\ sysReadFile (path +:+ "/" +:+ Name fileDir) = inl e
            /\ r = (c, Some (cannotAccess (path +:+ "/" +:+ Name fileDir) e)).
Proof.
  unfold readGenericS. destruct (IsDir fileDir); [discriminate|].
  destruct (sysReadFile _) as [e|contents].
  { intros [= <-]. exists e. auto. }
  destruct c.
  repeat match goal with
         | |- context [String.eqb ?a ?b] => destruct (String.eqb a b)
         end; discriminate.
Qed.

Lemma entriesS_return path files : forall c r,
  entriesS path files c = Return r ->
  exists fileDir e,
    In fileDir files /\ IsDir fileDir = false
    /\ sysReadFile (path +:+ "/" +:+ Name fileDir) = inl e
    /\ r.2 = Some (cannotAccess (path +:+ "/" +:+ Name fileDir) e).
Proof.
  induction files as [|fd files IH]; simpl; intros c r; [discriminate|].
  destruct (entryS path fd c) as [c1|r1] eqn:E.
  - intros H. destruct (IH _ _ H) as (g & e & Hg & Hrest). exists g, e. auto.
  - intros [= <-]. destruct (entryS_return _ _ _ _ E) as (e & Hd & Hread & ->).
    exists fd, e. auto.
Qed.

Lemma entryS_string name get path fileDir c c' contents :
  rangeString name get ->
  sysReadFile (path +:+ "/" +:+ name) = inr contents ->
  entryS path fileDir c = Next c' ->
  get c = TrimSpace contents \/ (IsDir fileDir = false /\ Name fileDir = name) ->
  get c' = TrimSpace contents.
Proof.
  intros Hfield Hread. unfold readGenericS.
  destruct (IsDir fileDir).
  { intros [= <-] [H|[H _]]; [exact H|discriminate]. }
  destruct (sysReadFile (path +:+ "/" +:+ Name fileDir)) as [e|contents'] eqn:Hread';
    [discriminate|].
  assert (Hsame : Name fileDir = name -> contents' = contents).
  { intros Hn. rewrite Hn in Hread'. congruence. }
  destruct c as [k off on pos pre].
  destruct Hfield;
    repeat match goal with
           | |- context [String.eqb (Name fileDir) ?b] =>
               destruct (String.eqb_spec (Name fileDir) b)
           end;
    intros [= <-] [H|[_ Hn]]; simpl in *;
    solve [exact H | congruence | rewrite Hsame by assumption; reflexivity].
Qed.

Lemma entriesS_string name get path contents files : forall c c',
  rangeString name get ->
  sysReadFile (path +:+ "/" +:+ name) = inr contents ->
  entriesS path files c = Next c' ->
  get c = TrimSpace contents \/ In (file name) files ->
  get c' = TrimSpace contents.
Proof.
  induction files as [|fd files IH]; simpl; intros c c' Hfield Hread Hrun Hor.
  - injection Hrun as <-. destruct Hor as [H|[]]. exact H.
  - destruct (entryS path fd c) as [c1|r1] eqn:E; [|discriminate].
    apply (IH _ _ Hfield Hread Hrun).
    destruct Hor as [Hc|[Hfd|Hin]]; [left|left|right; exact Hin].
    + apply (entryS_string _ _ _ _ _ _ _ Hfield Hread E (or_introl Hc)).
    + subst fd.
      apply (entryS_string _ _ _ _ _ _ _ Hfield Hread E
               (or_intror (conj eq_refl eq_refl))).
Qed.
End StringsFacts.

(** X22. The earlier [NewCPUInfo] that keeps the ranges as strings
    returns, with an error, the zero snapshot and nothing of what was
    read; the error is that of the listing of the CPU device root or of
    an entry, not a directory, that could not be read. *)
Theorem NewCPUInfoS_error (sysReadFile : string -> string + string) (os : OS)
    (fs : FS) (info : CPUInfoS) (err : error) :
  NewCPUInfoS sysReadFile os fs = (info, Some err) ->
  info = mkCPUInfoS zeroCPUInfoGenericS
  /\ ((exists e, ReadDir os (Path fs "devices/system/cpu") = inl e
                 /\ err = cannotAccessDir (Path fs "devices/system/cpu") e)
      \/ (exists files fileDir e,
            ReadDir os (Path fs "devices/system/cpu") = inr files
            /\ In fileDir files /\ IsDir fileDir = false
            /\ sysReadFile (Path fs "devices/system/cpu" +:+ "/" +:+ Name fileDir) = inl e
            /\ err = cannotAccess
                       (Path fs "devices/system/cpu" +:+ "/" +:+ Name fileDir) e)).
Proof.
  unfold NewCPUInfoS, parseCPUInfoGenericS.
  destruct (ReadDir os (Path fs "devices/system/cpu")) as [e|files]; simpl.
  { intros [= <- <-]. split; [reflexivity|]. left. exists e. auto. }
  destruct (readGenericsS sysReadFile _ files zeroCPUInfoGenericS) as [c1|r1] eqn:E;
    simpl; [discriminate|].
  destruct (entriesS_return _ _ _ _ _ E) as (fd & e & Hin & Hd & Hread & Herr).
  rewrite Herr. intros [= <- <-]. split; [reflexivity|].
  right. exists files, fd, e. auto.
Qed.

Lemma NewCPUInfoS_error_witness :
  NewCPUInfoS (ReadFile fixtureUevent) fixtureUevent sys
  = (mkCPUInfoS zeroCPUInfoGenericS,
     Some (errorString
       "cannot access /sys/devices/system/cpu/probe, open /sys/devices/system/cpu/probe: no such file or directory"))
  /\ exists files fileDir e,
       ReadDir fixtureUevent (Path sys "devices/system/cpu") = inr files
       /\ In fileDir files /\ IsDir fileDir = false
       /\ ReadFile fixtureUevent
            (Path sys "devices/system/cpu" +:+ "/" +:+ Name fileDir) = inl e
       /\ errorString
            "cannot access /sys/devices/system/cpu/probe, open /sys/devices/system/cpu/probe: no such file or directory"
          = cannotAccess (Path sys "devices/system/cpu" +:+ "/" +:+ Name fileDir) e.
Proof.
  split; [reflexivity|].
  destruct (NewCPUInfoS_error (ReadFile fixtureUevent) fixtureUevent sys _ _ eq_refl)
    as [_ [(e & H & _)|H]]; [discriminate H|exact H].
Defined.

(** X23. When that earlier [NewCPUInfo] returns without an error, a
    range string of the snapshot whose file is listed is the contents of
    the file with the white space at both ends cut. *)
Theorem NewCPUInfoS_range_string (sysReadFile : string -> string + string)
    (os : OS) (fs : FS) (name : string) (get : CPUInfoGenericS -> string)
    (files : list FileInfo) (contents : string) (info : CPUInfoS) :
  rangeString name get ->
  ReadDir os (Path fs "devices/system/cpu") = inr files ->
  In (file name) files ->
  sysReadFile (Path fs "devices/system/cpu" +:+ "/" +:+ name) = inr contents ->
  NewCPUInfoS sysReadFile os fs = (info, None) ->
  get (cpuInfoGenericS info) = TrimSpace contents.
Proof.
  intros Hfield Hdir Hin Hread. unfold NewCPUInfoS, parseCPUInfoGenericS.
  rewrite Hdir.
  destruct (readGenericsS sysReadFile _ files zeroCPUInfoGenericS) as [c1|r1] eqn:E;
    simpl.
  - intros [= <-]. simpl.
    apply (entriesS_string sysReadFile name get _ contents files _ _
             Hfield Hread E (or_intror Hin)).
  - destruct (entriesS_return _ _ _ _ _ E) as (fd & e & _ & _ & _ & Herr).
    rewrite Herr. discriminate.
Qed.

Lemma NewCPUInfoS_range_string_witness :
  OnlineS (mkCPUInfoGenericS 2047 "2-3" "0-1" "0-3" "0-1") = TrimSpace "0-1
".
Proof.
  refine (NewCPUInfoS_range_string (ReadFile fixture) fixture sys "online" OnlineS
    [dir "cpu0"; dir "cpu1"; file "kernel_max"; file "offline"; file "online";
     file "possible"; file "present"] "0-1
" (mkCPUInfoS (mkCPUInfoGenericS 2047 "2-3" "0-1" "0-3" "0-1")) _ _ _ _ _);
    first [reflexivity | solve [constructor] | (do 4 right; left; reflexivity)].
Defined.
